(** * miapy: rigid multi-modal registration, its progress plotter, and the
      plotting helpers

    A shallow embedding of [miapy/filtering/registration.py] and
    [miapy/plotting/plotter.py].  Both modules are glue over SimpleITK,
    numpy and matplotlib; the libraries are an interface here (class
    [SimpleITK] below), the Python of the two modules is embedded
    statement by statement in a state-and-exception monad over the
    objects the code touches. *)
From Stdlib Require Import ZArith QArith String Ascii List Lia DecimalString DecimalNat Sorted.
From stdpp Require Import base option list gmap strings.

Open Scope string_scope.
Open Scope list_scope.

(** ** Python values and built-ins used by the sources *)

Module py.

(** Exceptions raised by the embedded code, by their Python class.
    [LibraryError] stands for an exception whose class is not modelled:
    the toolkit's refusal of a slice index, and a reference of the
    embedding that leads to no object. *)
Inductive Exn : Type :=
| ValueError (msg : string)
| IndexError (msg : string)
| TypeError (msg : string)
| OverflowError (msg : string)
| AttributeError (msg : string)
| RuntimeError (msg : string)
| LibraryError (msg : string).

Definition nl : string := String "010"%char EmptyString.

(** [str(n)] for a non-negative [int]. *)
Definition str_nat (n : nat) : string :=
  NilZero.string_of_uint (Nat.to_uint n).

Fixpoint zeros (k : nat) : string :=
  match k with
  | O => ""
  | S k' => String "0"%char (zeros k')
  end.

(** [format(n, '03d')] for a non-negative [int]: the decimal digits,
    padded on the left with zeros up to a width of three. *)
Definition format_03d (n : nat) : string :=
  let s := str_nat n in
  zeros (3 - String.length s) +:+ s.

(** [n / 2] for an [int] n is a float: the quotient rounded to the 53
    significant bits of a double, ties to even.  Halving is exact in
    binary, so the float is half of [n] rounded to 53 bits;
    [to_double n] is that rounded [n], which is [n] itself up to 2^53.
    (From 2^1024 on Python raises OverflowError instead; the extents of
    an image, which is all the sources divide, are unsigned 32-bit.) *)
Definition to_double (n : Z) : Z :=
  let a := Z.abs n in
  let e := (Z.log2 a - 52)%Z in
  if (e <=? 0)%Z then n
  else
    let q := (a / 2 ^ e)%Z in
    let r := (a mod 2 ^ e)%Z in
    let h := (2 ^ (e - 1))%Z in
    let q' := if (h <? r)%Z || ((r =? h)%Z && Z.odd q) then (q + 1)%Z else q in
    (Z.sgn n * (q' * 2 ^ e))%Z.

(** [round(n / 2)] for an [int] n: true division followed by Python 3's
    round-half-to-even. *)
Definition round_half (n : Z) : Z :=
  let m := to_double n in
  let q := (m / 2)%Z in
  if Z.even m then q else if Z.even q then q else (q + 1)%Z.

(** A C [unsigned int] of the toolkit's interface. *)
Definition is_uint32 (x : Z) : bool := ((0 <=? x) && (x <? 2 ^ 32))%Z.

(** Truthiness of a [str]: the empty string is false. *)
Definition truthy (s : string) : bool :=
  match s with
  | EmptyString => false
  | String _ _ => true
  end.

End py.
Import py.

(** ** numpy arrays *)

Record ndarray (A : Type) : Type := mk_ndarray
  { shape : list nat;
    data : list A }.
Arguments mk_ndarray {A} _ _.
Arguments shape {A} _.
Arguments data {A} _.

Definition ndim {A} (a : ndarray A) : nat := length (shape a).

(** The buffer of an array holds one element per index. *)
Definition ndarray_wf {A} (a : ndarray A) : Prop :=
  length (data a) = foldr Nat.mul 1%nat (shape a).

(** [a.flatten()] *)
Definition flatten {A} (a : ndarray A) : ndarray A :=
  mk_ndarray [length (data a)] (data a).

(** [np.zeros(shape)] *)
Definition np_zeros (sh : list nat) : ndarray Z :=
  mk_ndarray sh (replicate (foldr Nat.mul 1%nat sh) 0%Z).

(** [a == label] and [a != label], element by element. *)
Definition np_eq (a : ndarray Z) (label : Z) : ndarray bool :=
  mk_ndarray (shape a) (map (fun x => Z.eqb x label) (data a)).

Definition np_ne (a : ndarray Z) (label : Z) : ndarray bool :=
  mk_ndarray (shape a) (map (fun x => negb (Z.eqb x label)) (data a)).

(** [np.bitwise_and(a, b)] on boolean arrays of one shape (the only use
    in the sources; broadcasting of unequal shapes is left out: they are
    rejected). *)
Definition np_bitwise_and (a b : ndarray bool) : Exn + ndarray bool :=
  if decide (shape a = shape b)
  then inr (mk_ndarray (shape a) (zip_with andb (data a) (data b)))
  else inl (ValueError "operands could not be broadcast together").

(** [m[b] = v] with a boolean index array [b]. *)
Definition np_setitem_bool (m : ndarray Z) (b : ndarray bool) (v : Z)
  : Exn + ndarray Z :=
  if decide (shape b = shape m)
  then inr (mk_ndarray (shape m)
              (zip_with (fun (c : bool) x => if c then v else x) (data b) (data m)))
  else inl (IndexError "boolean index did not match indexed array").

(** [np.ma.masked_where(cond, a)]: the data with a flag per element. *)
Record masked_array : Type := mk_masked
  { ma_data : ndarray Z;
    ma_mask : ndarray bool }.

Definition masked_where (cond : ndarray bool) (a : ndarray Z) : masked_array :=
  mk_masked a cond.

(** ** matplotlib: the calls the sources make, recorded on the figure *)

Inductive Colormap : Type :=
| cmap_named (name : string)
| cmap_default
| LinearSegmentedColormap_from_list (name : string) (colors : list (Z * Z * Z)) (N : Z).

Inductive Picture : Type :=
| pic_array (a : ndarray Q)
| pic_masked (a : masked_array).

Inductive AxesCall : Type :=
| set_axis_off
| margins (m : Z)
| tick_params (which direction : string)
| imshow (X : Picture) (cmap : Colormap) (interpolation : string) (alpha : option Q).

(** [plt.Axes(fig, rect)] and the calls made on it, oldest first. *)
Definition Axes : Type := list AxesCall.

Inductive Draw : Type :=
| hist (x : ndarray Q) (bins : Z) (alpha : option Q)
| title (s : string)
| xlabel (s : string) (fontsize : option Z)
| ylabel (s : string) (fontsize : option Z)
| plot_y (ys : list Q) (fmt : string)
| plot_xy (xs : list nat) (ys : list Q) (fmt : string)
| add_axes (ax : Axes).

(** A figure is the list of what was drawn on it, oldest first. *)
Definition Figure : Type := list Draw.

(** ** SimpleITK: enumerations and the settings of a registration method *)

Inductive PixelID : Type :=
| sitkUInt8 | sitkInt8 | sitkUInt16 | sitkInt16 | sitkUInt32 | sitkInt32
| sitkFloat32 | sitkFloat64 | sitkVectorUInt8.

Global Instance PixelID_eq_dec : EqDecision PixelID.
Proof. solve_decision. Defined.

Inductive Interpolator : Type := sitkNearestNeighbor | sitkLinear | sitkBSpline.

Inductive Event : Type :=
| sitkStartEvent | sitkEndEvent | sitkMultiResolutionIterationEvent | sitkIterationEvent.

Global Instance Event_eq_dec : EqDecision Event.
Proof. solve_decision. Defined.

Inductive SamplingStrategy : Type := NONE | REGULAR | RANDOM.
Inductive EstimateLearningRate : Type := Never | Once | EachIteration.
Inductive InitializerMode : Type := GEOMETRY | MOMENTS.

Inductive Metric : Type :=
| MattesMutualInformation (numberOfHistogramBins : Z).

Inductive Optimizer : Type :=
| GradientDescent (learningRate : Q) (numberOfIterations : Z)
    (convergenceMinimumValue : Q) (convergenceWindowSize : Z)
    (estimateLearningRate : EstimateLearningRate).

Inductive OptimizerScales : Type := FromPhysicalShift.

(** What the setters of [sitk.ImageRegistrationMethod] set. *)
Record Settings : Type := mk_settings
  { metric : option Metric;
    metric_sampling_strategy : SamplingStrategy;
    metric_sampling_percentage : Q;
    interpolator : Interpolator;
    optimizer : option Optimizer;
    optimizer_scales : option OptimizerScales;
    shrink_factors_per_level : list Z;
    smoothing_sigmas_per_level : list Q;
    smoothing_sigmas_in_physical_units : bool }.

(** What the engine shows to an observer while it runs and after it
    stopped: the value of the metric, the iteration of the optimizer, the
    description of the stopping condition, and the transform it is
    updating in place. *)
Record Snapshot (Transform : Type) : Type := mk_snapshot
  { sn_metric_value : Q;
    sn_optimizer_iteration : Z;
    sn_stop_condition : string;
    sn_transform : Transform }.
Arguments mk_snapshot {Transform} _ _ _ _.
Arguments sn_metric_value {Transform} _.
Arguments sn_optimizer_iteration {Transform} _.
Arguments sn_stop_condition {Transform} _.
Arguments sn_transform {Transform} _.

(** One run of the engine: the events it raises, each with what the
    engine shows at that moment, and then either what it shows at the end
    or, when the toolkit gives up, the message of its RuntimeError. *)
Record Run (Transform : Type) : Type := mk_run
  { run_events : list (Event * Snapshot Transform);
    run_error : option string;
    run_final : Snapshot Transform }.
Arguments mk_run {Transform} _ _ _.
Arguments run_events {Transform} _.
Arguments run_error {Transform} _.
Arguments run_final {Transform} _.

(** The part of SimpleITK (with the rendering of a matplotlib canvas into
    an image, and Python's printing of a float) that the two modules call.
    Images and transforms are opaque; every function returns a new
    object.  Where the toolkit is known to refuse arguments (images of
    different pixel types added or pasted, a registration it cannot
    carry out) the result is the message of the RuntimeError it raises
    or the object; the other functions are taken to return for every
    image. *)
Class SimpleITK (Image Transform : Type) : Type :=
  { GetPixelIDValue : Image -> PixelID;
    GetPixelID : Image -> PixelID;
    GetSize : Image -> list Z;
    GetWidth : Image -> Z;
    GetHeight : Image -> Z;
    GetNumberOfComponentsPerPixel : Image -> Z;
    Cast : Image -> PixelID -> Image;
    Normalize : Image -> Image;
    RescaleIntensity : Image -> Image;
    Compose : Image -> Image -> Image -> Image;
    (** [sitk.Image(size, pixel_id, components)] *)
    NewImage : list Z -> PixelID -> Z -> Image;
    (** [sitk.Paste(destination, source, size, source_index, destination_index)] *)
    Paste : Image -> Image -> list Z -> list Z -> list Z -> string + Image;
    (** [image[:, :, k]]; [None] when the toolkit rejects the index *)
    getitem_z : Image -> Z -> option Image;
    (** [c * image] and [image1 + image2] *)
    scalar_mul : Q -> Image -> Image;
    image_add : Image -> Image -> string + Image;
    Euler3DTransform : Transform;
    CenteredTransformInitializer :
      Image -> Image -> Transform -> InitializerMode -> Transform;
    (** [sitk.Resample(image, reference, transform, interpolator,
        default_value, output_pixel_type)] *)
    Resample : Image -> Image -> Transform -> Interpolator -> Q -> PixelID -> Image;
    (** a new [sitk.ImageRegistrationMethod()] *)
    ImageRegistrationMethod : Settings;
    initial_snapshot : Snapshot Transform;
    (** the optimisation itself: [ImageRegistrationMethod.Execute] without
        the calls to the observers *)
    optimize : Settings -> Transform -> Image -> Image -> Run Transform;
    GetArrayFromImage : Image -> ndarray Q;
    (** the canvas of a figure drawn, read as RGB bytes and turned into an
        image by [sitk.GetImageFromArray(_, isVector=True)] *)
    canvas_image : Figure -> Image;
    (** ['{0}'.format(x)] for a float *)
    format_float : Q -> string;
    (** the output pixel type of [Resample] is the one asked for *)
    Resample_pixel_id : forall i r t ip d pid,
      GetPixelIDValue (Resample i r t ip d pid) = pid }.

(** ** Objects, the store, and the monad of the embedded code *)

Section Program.
Context {Image Transform : Type} `{!SimpleITK Image Transform}.

(** What [sitk.WriteImage] and [plt.savefig] leave on disk. *)
Inductive File : Type :=
| ImageFile (img : Image)
| FigureFile (fig : Figure) (bbox_inches : option Axes).

(** [RigidMultiModalRegistrationParams]: [fixed_image] is a reference to
    the caller's image. *)
Record RigidMultiModalRegistrationParams : Type := mk_params
  { fixed_image : nat;
    plot_directory_path : string }.

Record RegistrationPlotter : Type := mk_plotter
  { metric_values : list Q;
    multires_iterations : list nat }.

(** The callables handed to [AddCommand]: three bound methods of a
    plotter and the lambda of [RegistrationPlotter.__init__] with what
    it captures. *)
Inductive Command : Type :=
| cb_start_plot (self : nat)
| cb_end_plot (self : nat)
| cb_update_multiresolution_iterations (self : nat)
| cb_save_plot (self registration : nat) (fixed image : Image)
    (transform : nat) (path : string).

(** A [sitk.ImageRegistrationMethod] object. *)
Record Engine : Type := mk_engine
  { settings : Settings;
    initial_transform : option nat;
    commands : list (Event * Command);
    metric_value : Q;
    optimizer_iteration : Z;
    stop_condition : string }.

(** The objects the code works on.  [images] and [params_store] hold the
    caller's images and parameter objects, the three lists the engines,
    plotters and transforms created on the way (a reference is an index);
    [figures] is pyplot's list of open figures, the current one first. *)
Record World : Type := mk_world
  { images : gmap nat Image;
    params_store : gmap nat RigidMultiModalRegistrationParams;
    engines : list Engine;
    plotters : list RegistrationPlotter;
    transforms : list Transform;
    figures : list Figure;
    files : list (string * File);
    stdout : list string }.

Definition set_engines (f : list Engine -> list Engine) (w : World) : World :=
  mk_world (images w) (params_store w) (f (engines w)) (plotters w)
    (transforms w) (figures w) (files w) (stdout w).
Definition set_plotters (f : list RegistrationPlotter -> list RegistrationPlotter)
    (w : World) : World :=
  mk_world (images w) (params_store w) (engines w) (f (plotters w))
    (transforms w) (figures w) (files w) (stdout w).
Definition set_transforms (f : list Transform -> list Transform) (w : World) : World :=
  mk_world (images w) (params_store w) (engines w) (plotters w)
    (f (transforms w)) (figures w) (files w) (stdout w).
Definition set_figures (f : list Figure -> list Figure) (w : World) : World :=
  mk_world (images w) (params_store w) (engines w) (plotters w)
    (transforms w) (f (figures w)) (files w) (stdout w).
Definition set_files (f : list (string * File) -> list (string * File))
    (w : World) : World :=
  mk_world (images w) (params_store w) (engines w) (plotters w)
    (transforms w) (figures w) (f (files w)) (stdout w).
Definition set_stdout (f : list string -> list string) (w : World) : World :=
  mk_world (images w) (params_store w) (engines w) (plotters w)
    (transforms w) (figures w) (files w) (f (stdout w)).

(** State and exceptions: a raised exception keeps the state reached. *)
Definition M (A : Type) : Type := World -> (Exn + A) * World.

#[export] Instance M_ret : MRet M := fun A (a : A) w => (inr a, w).
#[export] Instance M_bind : MBind M := fun A B (k : A -> M B) (m : M A) w =>
  match m w with
  | (inl e, w') => (inl e, w')
  | (inr a, w') => k a w'
  end.

Definition raise {A} (e : Exn) : M A := fun w => (inl e, w).
Definition get : M World := fun w => (inr w, w).
Definition modify (f : World -> World) : M unit := fun w => (inr tt, f w).
Definition lift_opt {A} (o : option A) (e : Exn) : M A :=
  match o with Some a => mret a | None => raise e end.
Definition lift_exn {A} (r : Exn + A) : M A :=
  match r with inr a => mret a | inl e => raise e end.
(** a toolkit call that returns or raises RuntimeError *)
Definition lift_runtime {A} (r : string + A) : M A :=
  match r with inr a => mret a | inl msg => raise (RuntimeError msg) end.

Fixpoint for_each {A} (f : A -> M unit) (l : list A) : M unit :=
  match l with
  | [] => mret tt
  | x :: l' => f x;; for_each f l'
  end.

(** [[f(x) for x in l]] *)
Fixpoint list_comprehension {A B} (f : A -> M B) (l : list A) : M (list B) :=
  match l with
  | [] => mret []
  | x :: l' => y ← f x; ys ← list_comprehension f l'; mret (y :: ys)
  end.

(** A reference of the embedding that leads to no object stands for a
    Python value of another kind, [None] for one.  For the objects the
    code makes itself (engines, plotters, transforms) this does not
    happen; for the caller's it is what Python raises at the first use:
    an attribute read on the value, or the toolkit's refusal of a null
    image. *)
Definition missing : Exn := LibraryError "no such object".
Definition no_image : Exn :=
  AttributeError "'NoneType' object has no attribute 'GetPixelIDValue'".
Definition no_params : Exn :=
  AttributeError "object has no attribute 'fixed_image'".
Definition null_image : Exn :=
  ValueError "invalid null reference in method 'Cast', argument 1 of type 'itk::simple::Image const &'".

Definition print (s : string) : M unit := modify (set_stdout (fun o => o ++ [s])).

(** *** Reading and writing objects *)

Definition get_image (i : nat) : M Image :=
  w ← get; lift_opt (images w !! i) no_image.
Definition get_params (p : nat) : M RigidMultiModalRegistrationParams :=
  w ← get; lift_opt (params_store w !! p) no_params.
Definition get_engine (r : nat) : M Engine :=
  w ← get; lift_opt (engines w !! r) missing.
Definition get_plotter (p : nat) : M RegistrationPlotter :=
  w ← get; lift_opt (plotters w !! p) missing.
Definition get_transform (t : nat) : M Transform :=
  w ← get; lift_opt (transforms w !! t) missing.

Definition update_engine (r : nat) (f : Engine -> Engine) : M unit :=
  e ← get_engine r; modify (set_engines (fun es => <[r := f e]> es)).
Definition update_plotter (p : nat) (f : RegistrationPlotter -> RegistrationPlotter)
  : M unit :=
  x ← get_plotter p; modify (set_plotters (fun ps => <[p := f x]> ps)).

Definition new_engine (e : Engine) : M nat :=
  w ← get; modify (set_engines (fun es => es ++ [e]));; mret (length (engines w)).
Definition new_plotter (p : RegistrationPlotter) : M nat :=
  w ← get; modify (set_plotters (fun ps => ps ++ [p]));; mret (length (plotters w)).
Definition new_transform (t : Transform) : M nat :=
  w ← get; modify (set_transforms (fun ts => ts ++ [t]));; mret (length (transforms w)).

(** [params.fixed_image] handed to the toolkit, which refuses [None],
    and [params.plot_directory_path] *)
Definition attr_fixed_image (p : nat) : M Image :=
  x ← get_params p; w ← get; lift_opt (images w !! fixed_image x) null_image.
Definition attr_plot_directory_path (p : nat) : M string :=
  x ← get_params p; mret (plot_directory_path x).

(** *** pyplot *)

(** [plt.gcf()]: the current figure, made if there is none. *)
Definition gcf : M Figure :=
  w ← get;
  match figures w with
  | [] => modify (set_figures (fun _ => [[]]));; mret []
  | f :: _ => mret f
  end.

(** a drawing call of pyplot: it lands on the current figure *)
Definition plt_draw (d : Draw) : M unit :=
  f ← gcf; modify (set_figures (fun fs => (f ++ [d]) :: tail fs)).

(** [plt.hist(x, bins=bins, alpha=alpha)]: on the current figure, made
    if there is none; NumPy refuses a number of bins that is not
    positive. *)
Definition plt_hist (x : ndarray Q) (bins : Z) (alpha : option Q) : M unit :=
  f ← gcf;
  if (bins <=? 0)%Z
  then raise (ValueError "`bins` must be positive, when an integer")
  else modify (set_figures (fun fs => (f ++ [hist x bins alpha]) :: tail fs)).

(** [plt.figure()] *)
Definition plt_figure : M unit := modify (set_figures (fun fs => [] :: fs)).

(** [plt.savefig(path, bbox_inches=...)] *)
Definition plt_savefig (path : string) (bbox_inches : option Axes) : M unit :=
  f ← gcf; modify (set_files (fun fl => fl ++ [(path, FigureFile f bbox_inches)])).

(** [plt.close()] *)
Definition plt_close : M unit := modify (set_figures tail).

(** [sitk.WriteImage(image, file_name)] *)
Definition WriteImage (img : Image) (file_name : string) : M unit :=
  modify (set_files (fun fl => fl ++ [(file_name, ImageFile img)])).

(** ** [miapy/filtering/registration.py] *)

(** *** The methods of [sitk.ImageRegistrationMethod] the module calls *)

Definition set_settings (f : Settings -> Settings) (e : Engine) : Engine :=
  mk_engine (f (settings e)) (initial_transform e) (commands e)
    (metric_value e) (optimizer_iteration e) (stop_condition e).

Definition new_ImageRegistrationMethod : M nat :=
  new_engine (mk_engine ImageRegistrationMethod None []
                (sn_metric_value initial_snapshot)
                (sn_optimizer_iteration initial_snapshot)
                (sn_stop_condition initial_snapshot)).

(** The setters take their numbers as C [unsigned int]: the wrapper
    raises OverflowError for a Python [int] outside that range, and
    TypeError for a sequence with such an element. *)
Definition SetMetricAsMattesMutualInformation (r : nat) (bins : Z) : M unit :=
  if negb (is_uint32 bins)
  then raise (OverflowError "in method 'ImageRegistrationMethod_SetMetricAsMattesMutualInformation', argument 2 of type 'unsigned int'")
  else
  update_engine r (set_settings (fun s =>
    mk_settings (Some (MattesMutualInformation bins)) (metric_sampling_strategy s)
      (metric_sampling_percentage s) (interpolator s) (optimizer s)
      (optimizer_scales s) (shrink_factors_per_level s)
      (smoothing_sigmas_per_level s) (smoothing_sigmas_in_physical_units s))).

Definition SetMetricSamplingStrategy (r : nat) (x : SamplingStrategy) : M unit :=
  update_engine r (set_settings (fun s =>
    mk_settings (metric s) x
      (metric_sampling_percentage s) (interpolator s) (optimizer s)
      (optimizer_scales s) (shrink_factors_per_level s)
      (smoothing_sigmas_per_level s) (smoothing_sigmas_in_physical_units s))).

Definition SetMetricSamplingPercentage (r : nat) (x : Q) : M unit :=
  update_engine r (set_settings (fun s =>
    mk_settings (metric s) (metric_sampling_strategy s)
      x (interpolator s) (optimizer s)
      (optimizer_scales s) (shrink_factors_per_level s)
      (smoothing_sigmas_per_level s) (smoothing_sigmas_in_physical_units s))).

Definition SetInterpolator (r : nat) (x : Interpolator) : M unit :=
  update_engine r (set_settings (fun s =>
    mk_settings (metric s) (metric_sampling_strategy s)
      (metric_sampling_percentage s) x (optimizer s)
      (optimizer_scales s) (shrink_factors_per_level s)
      (smoothing_sigmas_per_level s) (smoothing_sigmas_in_physical_units s))).

Definition SetOptimizerAsGradientDescent (r : nat) (learningRate : Q)
    (numberOfIterations : Z) (convergenceMinimumValue : Q)
    (convergenceWindowSize : Z) (estimateLearningRate : EstimateLearningRate)
  : M unit :=
  if negb (is_uint32 numberOfIterations)
  then raise (OverflowError "in method 'ImageRegistrationMethod_SetOptimizerAsGradientDescent', argument 3 of type 'unsigned int'")
  else if negb (is_uint32 convergenceWindowSize)
  then raise (OverflowError "in method 'ImageRegistrationMethod_SetOptimizerAsGradientDescent', argument 5 of type 'unsigned int'")
  else
  update_engine r (set_settings (fun s =>
    mk_settings (metric s) (metric_sampling_strategy s)
      (metric_sampling_percentage s) (interpolator s)
      (Some (GradientDescent learningRate numberOfIterations
               convergenceMinimumValue convergenceWindowSize estimateLearningRate))
      (optimizer_scales s) (shrink_factors_per_level s)
      (smoothing_sigmas_per_level s) (smoothing_sigmas_in_physical_units s))).

Definition SetOptimizerScalesFromPhysicalShift (r : nat) : M unit :=
  update_engine r (set_settings (fun s =>
    mk_settings (metric s) (metric_sampling_strategy s)
      (metric_sampling_percentage s) (interpolator s) (optimizer s)
      (Some FromPhysicalShift) (shrink_factors_per_level s)
      (smoothing_sigmas_per_level s) (smoothing_sigmas_in_physical_units s))).

Definition SetShrinkFactorsPerLevel (r : nat) (x : list Z) : M unit :=
  if negb (forallb is_uint32 x)
  then raise (TypeError "in method 'ImageRegistrationMethod_SetShrinkFactorsPerLevel', argument 2 of type 'std::vector< unsigned int,std::allocator< unsigned int > > const &'")
  else
  update_engine r (set_settings (fun s =>
    mk_settings (metric s) (metric_sampling_strategy s)
      (metric_sampling_percentage s) (interpolator s) (optimizer s)
      (optimizer_scales s) x
      (smoothing_sigmas_per_level s) (smoothing_sigmas_in_physical_units s))).

Definition SetSmoothingSigmasPerLevel (r : nat) (x : list Q) : M unit :=
  update_engine r (set_settings (fun s =>
    mk_settings (metric s) (metric_sampling_strategy s)
      (metric_sampling_percentage s) (interpolator s) (optimizer s)
      (optimizer_scales s) (shrink_factors_per_level s)
      x (smoothing_sigmas_in_physical_units s))).

Definition SmoothingSigmasAreSpecifiedInPhysicalUnitsOn (r : nat) : M unit :=
  update_engine r (set_settings (fun s =>
    mk_settings (metric s) (metric_sampling_strategy s)
      (metric_sampling_percentage s) (interpolator s) (optimizer s)
      (optimizer_scales s) (shrink_factors_per_level s)
      (smoothing_sigmas_per_level s) true)).

(** [SetInitialTransform(t, inPlace=True)]: the engine keeps the
    reference and updates that transform while it runs. *)
Definition SetInitialTransform (r : nat) (t : nat) : M unit :=
  update_engine r (fun e =>
    mk_engine (settings e) (Some t) (commands e)
      (metric_value e) (optimizer_iteration e) (stop_condition e)).

Definition AddCommand (r : nat) (ev : Event) (c : Command) : M unit :=
  update_engine r (fun e =>
    mk_engine (settings e) (initial_transform e) (commands e ++ [(ev, c)])
      (metric_value e) (optimizer_iteration e) (stop_condition e)).

Definition GetMetricValue (r : nat) : M Q :=
  e ← get_engine r; mret (metric_value e).
Definition GetOptimizerIteration (r : nat) : M Z :=
  e ← get_engine r; mret (optimizer_iteration e).
Definition GetOptimizerStopConditionDescription (r : nat) : M string :=
  e ← get_engine r; mret (stop_condition e).

(** *** [RegistrationPlotter] *)

(** [_end_plot]: [plt.close()] *)
Definition _end_plot (self : nat) : M unit := plt_close.

(** [_start_plot] *)
Definition _start_plot (self : nat) : M unit :=
  update_plotter self (fun p => mk_plotter [] (multires_iterations p));;
  update_plotter self (fun p => mk_plotter (metric_values p) []).

(** [_update_multiresolution_iterations] *)
Definition _update_multiresolution_iterations (self : nat) : M unit :=
  update_plotter self (fun p =>
    mk_plotter (metric_values p)
      (multires_iterations p ++ [length (metric_values p)])).

(** [_write_combined_image] *)
Definition _write_combined_image (self : nat) (image1 image2 : Image)
    (file_name : string) : M unit :=
  let combined_image :=
    NewImage [(GetWidth image1 + GetWidth image2)%Z;
              Z.max (GetHeight image1) (GetHeight image2)]
      (GetPixelID image1) (GetNumberOfComponentsPerPixel image1) in
  let image1_destination := [0%Z; 0%Z] in
  let image2_destination := [GetWidth image1; 0%Z] in
  let '(image1_destination, image2_destination) :=
    if (GetHeight image1 >? GetHeight image2)%Z
    then (image1_destination,
          <[1%nat := round_half (GetHeight combined_image - GetHeight image2)]>
            image2_destination)
    else (<[1%nat := round_half (GetHeight combined_image - GetHeight image1)]>
            image1_destination,
          image2_destination) in
  combined_image ← lift_runtime
    (Paste combined_image image1 (GetSize image1) [0%Z; 0%Z] image1_destination);
  combined_image ← lift_runtime
    (Paste combined_image image2 (GetSize image2) [0%Z; 0%Z] image2_destination);
  WriteImage combined_image file_name.

(** [_save_plot] *)
Definition _save_plot (self : nat) (registration_method : nat)
    (fixed moving : Image) (transform : nat) (file_name_prefix : string) : M unit :=
  v ← GetMetricValue registration_method;
  update_plotter self (fun p => mk_plotter (metric_values p ++ [v]) (multires_iterations p));;
  p ← get_plotter self;
  plt_draw (plot_y (metric_values p) "r");;
  ys ← list_comprehension
         (fun index => lift_opt (metric_values p !! index)
                         (IndexError "list index out of range"))
         (multires_iterations p);
  plt_draw (plot_xy (multires_iterations p) ys "b*");;
  plt_draw (xlabel "Iteration" (Some 12%Z));;
  plt_draw (ylabel "Metric Value" (Some 12%Z));;
  fig ← gcf;
  let plot_image := canvas_image fig in
  let alpha := 0.7%Q in
  size_z ← lift_opt (GetSize fixed !! 2%nat) (IndexError "tuple index out of range");
  let central_index := round_half size_z in
  t ← get_transform transform;
  let moving_transformed :=
    Resample moving fixed t sitkLinear 0%Q (GetPixelIDValue moving) in
  fixed_slice ← lift_opt (getitem_z fixed central_index)
                  (LibraryError "slice index out of range");
  moving_slice ← lift_opt (getitem_z moving_transformed central_index)
                   (LibraryError "slice index out of range");
  combined ← lift_runtime
    (image_add (scalar_mul (1 - alpha)%Q fixed_slice) (scalar_mul alpha moving_slice));
  let combined_slices_image := Cast (RescaleIntensity combined) sitkUInt8 in
  let combined_slices_image :=
    Compose combined_slices_image combined_slices_image combined_slices_image in
  p ← get_plotter self;
  _write_combined_image self combined_slices_image plot_image
    (file_name_prefix +:+ format_03d (length (metric_values p)) +:+ ".png").

(** The four callables [RegistrationPlotter.__init__] registers. *)
Definition plotter_commands (self registration : nat) (fixed_image image : Image)
    (transform : nat) (path : string) : list (Event * Command) :=
  [ (sitkStartEvent, cb_start_plot self);
    (sitkEndEvent, cb_end_plot self);
    (sitkMultiResolutionIterationEvent, cb_update_multiresolution_iterations self);
    (sitkIterationEvent, cb_save_plot self registration fixed_image image transform path) ].

(** [RegistrationPlotter.__init__] *)
Definition RegistrationPlotter_init (registration : nat) (fixed_image image : Image)
    (transform : nat) (path : string) : M nat :=
  self ← new_plotter (mk_plotter [] []);
  AddCommand registration sitkStartEvent (cb_start_plot self);;
  AddCommand registration sitkEndEvent (cb_end_plot self);;
  AddCommand registration sitkMultiResolutionIterationEvent
    (cb_update_multiresolution_iterations self);;
  AddCommand registration sitkIterationEvent
    (cb_save_plot self registration fixed_image image transform path);;
  mret self.

(** *** The engine's run, with its calls to the observers *)

Definition run_command (c : Command) : M unit :=
  match c with
  | cb_start_plot self => _start_plot self
  | cb_end_plot self => _end_plot self
  | cb_update_multiresolution_iterations self =>
      _update_multiresolution_iterations self
  | cb_save_plot self registration fixed image transform path =>
      _save_plot self registration fixed image transform path
  end.

(** The callables registered for an event, in the order they were added. *)
Definition commands_for (ev : Event) (cmds : list (Event * Command)) : list Command :=
  map snd (filter (fun x => x.1 = ev) cmds).

(** The engine moves on: it updates what it shows, and the transform it
    was given in place.  (Its own state: nothing is raised.) *)
Definition show (r : nat) (s : Snapshot Transform) (w : World) : World :=
  match engines w !! r with
  | None => w
  | Some e =>
      let e' := mk_engine (settings e) (initial_transform e) (commands e)
                  (sn_metric_value s) (sn_optimizer_iteration s)
                  (sn_stop_condition s) in
      let w' := set_engines (fun es => <[r := e']> es) w in
      match initial_transform e with
      | None => w'
      | Some t => set_transforms (fun ts => <[t := sn_transform s]> ts) w'
      end
  end.

(** The engine raises one event. *)
Definition fire (r : nat) (x : Event * Snapshot Transform) : M unit :=
  modify (show r x.2);;
  e ← get_engine r;
  for_each run_command (commands_for x.1 (commands e)).

(** [ImageRegistrationMethod.Execute(fixed, moving)] *)
Definition Execute (r : nat) (fixed moving : Image) : M Transform :=
  e ← get_engine r;
  t0 ← lift_opt (initial_transform e) (LibraryError "no initial transform");
  t ← get_transform t0;
  let run := optimize (settings e) t fixed moving in
  for_each (fire r) (run_events run);;
  match run_error run with
  | Some msg => raise (RuntimeError msg)
  | None =>
      modify (show r (run_final run));;
      mret (sn_transform (run_final run))
  end.

(** *** [RigidMultiModalRegistration] *)

(** What [fltr.IFilter.__init__] leaves on the object ([filter.py] is not
    among these sources; [execute] reads [self.verbose]). *)
Record IFilter : Type := mk_ifilter { verbose : bool }.

Record RigidMultiModalRegistration : Type := mk_registration
  { base : IFilter;
    number_of_histogram_bins : Z;
    learning_rate : Q;
    step_size : Q;
    number_of_iterations : Z;
    shrink_factors : list Z;
    smoothing_sigmas : list Q;
    registration : nat }.

(** [RigidMultiModalRegistration.__init__]; [super_init] is the object
    after [super().__init__()]. *)
Definition RigidMultiModalRegistration_init (super_init : IFilter)
    (number_of_histogram_bins : Z) (learning_rate step_size : Q)
    (number_of_iterations : Z) (shrink_factors : list Z)
    (smoothing_sigmas : list Q) : M RigidMultiModalRegistration :=
  if negb (length shrink_factors =? length smoothing_sigmas)%nat
  then raise (ValueError "shrink_factors and smoothing_sigmas need to be same length")
  else
    registration ← new_ImageRegistrationMethod;
    SetMetricAsMattesMutualInformation registration number_of_histogram_bins;;
    SetMetricSamplingStrategy registration RANDOM;;
    SetMetricSamplingPercentage registration 0.1%Q;;
    SetInterpolator registration sitkLinear;;
    SetOptimizerAsGradientDescent registration learning_rate number_of_iterations
      (1 # 1000000)%Q 10%Z Never;;
    SetOptimizerScalesFromPhysicalShift registration;;
    SetShrinkFactorsPerLevel registration shrink_factors;;
    SetSmoothingSigmasPerLevel registration smoothing_sigmas;;
    SmoothingSigmasAreSpecifiedInPhysicalUnitsOn registration;;
    mret (mk_registration super_init number_of_histogram_bins learning_rate
            step_size number_of_iterations shrink_factors smoothing_sigmas
            registration).

(** The constructor with its default arguments. *)
Definition RigidMultiModalRegistration_default (super_init : IFilter)
  : M RigidMultiModalRegistration :=
  RigidMultiModalRegistration_init super_init 200%Z 1%Q 0.001%Q 200%Z
    [4%Z; 2%Z; 1%Z] [2%Q; 1%Q; 0%Q].

(** [execute], lines 126 to 139: the initial transform, the two
    normalised images, the plotter if asked for, and the run of the
    engine.  [image] and [params] are references to the caller's
    objects; the result is the local [image] (the normalised moving
    image) and the transform the engine returned. *)
Definition execute_registration (self : RigidMultiModalRegistration)
    (image : nat) (params : nat) : M (Image * Transform) :=
  _ ← get_params params;
  moving0 ← get_image image;
  fixed0 ← attr_fixed_image params;
  initial_transform ← new_transform
    (CenteredTransformInitializer (Cast fixed0 (GetPixelIDValue moving0)) moving0
       Euler3DTransform GEOMETRY);
  SetInitialTransform (registration self) initial_transform;;
  fixed1 ← attr_fixed_image params;
  let fixed_image := Normalize fixed1 in
  moving1 ← get_image image;
  let image' := Normalize moving1 in
  path ← attr_plot_directory_path params;
  (if truthy path
   then path ← attr_plot_directory_path params;
        RegistrationPlotter_init (registration self) fixed_image image'
          initial_transform path;;
        mret tt
   else mret tt);;
  transform ← Execute (registration self) (Cast fixed_image sitkFloat32)
                (Cast image' sitkFloat32);
  mret (image', transform).

Definition not_converged : string :=
  "RigidMultiModalRegistration: Optimizer terminated at number of iterations and did not converge!".

(** [execute], lines 141 to 146: what is printed after the run. *)
Definition execute_report (self : RigidMultiModalRegistration) : M unit :=
  if verbose (base self)
  then
    v ← GetMetricValue (registration self);
    print ("RigidMultiModalRegistration:" +:+ nl +:+ " Final metric value: "
           +:+ format_float v);;
    d ← GetOptimizerStopConditionDescription (registration self);
    print (" Optimizer's stopping condition, " +:+ d)
  else
    n ← GetOptimizerIteration (registration self);
    if (number_of_iterations self =? n)%Z
    then print not_converged
    else mret tt.

(** [RigidMultiModalRegistration.execute] *)
Definition execute (self : RigidMultiModalRegistration) (image : nat)
    (params : option nat) : M Image :=
  match params with
  | None => raise (ValueError "params is not defined")
  | Some params =>
      '(image', transform) ← execute_registration self image params;
      execute_report self;;
      fixed ← attr_fixed_image params;
      mret (Resample image' fixed transform sitkLinear 0%Q (GetPixelIDValue image'))
  end.

(** ** [miapy/plotting/plotter.py] *)

(** [plot_histogram] *)
Definition plot_histogram (path : string) (image : Image) (no_bins : Z)
    (slice_no : Z) (title_ xlabel_ ylabel_ : string) : M unit :=
  data ← (if (slice_no >? -1)%Z
          then s ← lift_opt (getitem_z image slice_no)
                     (LibraryError "slice index out of range");
               mret (GetArrayFromImage s)
          else mret (GetArrayFromImage image));
  let data := flatten data in
  plt_hist data no_bins None;;
  (if truthy title_ then plt_draw (title title_) else mret tt);;
  (if truthy xlabel_ then plt_draw (xlabel xlabel_ None) else mret tt);;
  (if truthy ylabel_ then plt_draw (ylabel ylabel_ None) else mret tt);;
  plt_savefig path None;;
  plt_close.


(** [plot_slice] *)
Definition plot_slice (path : string) (image : Image) (slice_no : Z) : M unit :=
  s ← lift_opt (getitem_z image slice_no) (LibraryError "slice index out of range");
  let slice_ := GetArrayFromImage s in
  plt_figure;;
  let ax : Axes := [] in
  let ax := ax ++ [set_axis_off] in
  let ax := ax ++ [margins 0%Z] in
  let ax := ax ++ [tick_params "both" "in"] in
  let ax := ax ++ [imshow (pic_array slice_) (cmap_named "gray") "none" None] in
  plt_draw (add_axes ax);;
  plt_savefig path (Some ax);;
  plt_close.

(** [plot_2d_segmentation], lines 144 to 148: the overlay. *)
Definition segmentation_overlay (ground_truth segmentation : ndarray Z) (label : Z)
  : M masked_array :=
  let mask := np_zeros (shape ground_truth) in
  under ← lift_exn (np_bitwise_and (np_eq ground_truth label) (np_ne segmentation label));
  mask ← lift_exn (np_setitem_bool mask under 1%Z);
  correct ← lift_exn (np_bitwise_and (np_eq ground_truth label) (np_eq segmentation label));
  mask ← lift_exn (np_setitem_bool mask correct 2%Z);
  over ← lift_exn (np_bitwise_and (np_ne ground_truth label) (np_eq segmentation label));
  mask ← lift_exn (np_setitem_bool mask over 3%Z);
  mret (masked_where (np_eq mask 0%Z) mask).

(** the colour map of the overlay: red, green, blue *)
Definition overlay_cmap : Colormap :=
  LinearSegmentedColormap_from_list "rgb"
    [(1, 0, 0)%Z; (0, 1, 0)%Z; (0, 0, 1)%Z] 3%Z.

(** [plot_2d_segmentation] *)
Definition plot_2d_segmentation (path : string) (image : ndarray Q)
    (ground_truth segmentation : ndarray Z) (alpha : Q) (label : Z) : M unit :=
  if negb (bool_decide (shape image = shape ground_truth)
           && bool_decide (shape ground_truth = shape segmentation))
  then raise (ValueError "image, ground_truth, and segmentation must have equal shape")
  else if negb (ndim image =? 2)%nat
  then raise (ValueError "only 2-dimensional images supported")
  else
    masked ← segmentation_overlay ground_truth segmentation label;
    plt_figure;;
    let ax : Axes := [] in
    let ax := ax ++ [set_axis_off] in
    let ax := ax ++ [margins 0%Z] in
    let ax := ax ++ [tick_params "both" "in"] in
    let ax := ax ++ [imshow (pic_array image) (cmap_named "gray") "none" None] in
    let cm := overlay_cmap in
    let ax := ax ++ [imshow (pic_masked masked) cm "none" (Some alpha)] in
    plt_draw (add_axes ax);;
    plt_savefig path (Some ax);;
    plt_close.

End Program.

Arguments File : clear implicits.
Arguments Command : clear implicits.
Arguments Engine : clear implicits.
Arguments World : clear implicits.
Arguments M : clear implicits.

(** ** The vocabulary of the properties *)

Section Vocabulary.
Context {Image Transform : Type} `{!SimpleITK Image Transform}.
Local Abbreviation M := (M Image Transform).
Local Abbreviation World := (World Image Transform).
Local Abbreviation Engine := (Engine Image).

(** [P] holds after [m] whenever it held before, whether [m] returns or
    raises. *)
Definition preserves {A} (P : World -> Prop) (m : M A) : Prop :=
  forall w, P w -> P (m w).2.

(** The engine a new filter holds: what the constructor configured. *)
Definition configured_engine (number_of_histogram_bins : Z) (learning_rate : Q)
    (number_of_iterations : Z) (shrink_factors : list Z)
    (smoothing_sigmas : list Q) : Engine :=
  mk_engine
    (mk_settings (Some (MattesMutualInformation number_of_histogram_bins))
       RANDOM 0.1%Q sitkLinear
       (Some (GradientDescent learning_rate number_of_iterations
                (1 # 1000000)%Q 10%Z Never))
       (Some FromPhysicalShift) shrink_factors smoothing_sigmas true)
    None []
    (sn_metric_value initial_snapshot)
    (sn_optimizer_iteration initial_snapshot)
    (sn_stop_condition initial_snapshot).

(** The caller's images and parameter objects are those of [w0]. *)
Definition same_caller_objects (w0 w : World) : Prop :=
  images w = images w0 /\ params_store w = params_store w0.

(** There is an engine at reference [r]. *)
Definition engine_there (r : nat) (w : World) : Prop :=
  (r < length (engines w))%nat.

(** What [execute] prints after the run, read off the engine. *)
Definition report (self : RigidMultiModalRegistration) (e : Engine) : list string :=
  if verbose (base self)
  then ["RigidMultiModalRegistration:" +:+ nl +:+ " Final metric value: "
          +:+ format_float (metric_value e);
        " Optimizer's stopping condition, " +:+ stop_condition e]
  else if (number_of_iterations self =? optimizer_iteration e)%Z
       then [not_converged]
       else [].

(** An engine with the callables of one more plotter. *)
Definition with_commands (e : Engine) (cs : list (Event * Command Image)) : Engine :=
  mk_engine (settings e) (initial_transform e) (commands e ++ cs)
    (metric_value e) (optimizer_iteration e) (stop_condition e).

(** Every marker is at most the length of the metric history, and the
    markers do not decrease. *)
Definition markers_ok (p : RegistrationPlotter) : Prop :=
  Forall (fun m => m <= length (metric_values p))%nat (multires_iterations p)
  /\ Sorted le (multires_iterations p).

(** There is a plotter at reference [self], and its markers are in
    order. *)
Definition plotter_ok (self : nat) (w : World) : Prop :=
  exists p, plotters w !! self = Some p /\ markers_ok p.

(** Nothing was written and no plotter changed between [w0] and [w]. *)
Definition quiet (w0 w : World) : Prop :=
  files w = files w0 /\ plotters w = plotters w0 /\ engines w = engines w0.

(** The plotter a callable belongs to. *)
Definition command_self (c : Command Image) : nat :=
  match c with
  | cb_start_plot self | cb_end_plot self
  | cb_update_multiresolution_iterations self
  | cb_save_plot self _ _ _ _ _ => self
  end.

(** What an event does to the plotter it is delivered to; the snapshot
    carries the metric value the engine shows at that moment. *)
Definition plotter_step (p : RegistrationPlotter) (x : Event * Snapshot Transform)
  : RegistrationPlotter :=
  match x.1 with
  | sitkStartEvent => mk_plotter [] []
  | sitkEndEvent => p
  | sitkMultiResolutionIterationEvent =>
      mk_plotter (metric_values p)
        (multires_iterations p ++ [length (metric_values p)])
  | sitkIterationEvent =>
      mk_plotter (metric_values p ++ [sn_metric_value x.2]) (multires_iterations p)
  end.

(** Plotter [self] is [p] and the engines are [es]. *)
Definition plotter_is (self : nat) (p : RegistrationPlotter) (es : list Engine)
    (w : World) : Prop :=
  plotters w !! self = Some p /\ engines w = es.

(** The number of iteration events in a trace. *)
Definition iterations (trace : list (Event * Snapshot Transform)) : nat :=
  length (filter (fun x => x.1 = sitkIterationEvent) trace).

(** The value the overlay has where the ground truth is [g] and the
    segmentation [s]: the three assignments of lines 145 to 147 in
    turn. *)
Definition overlay_value (label g s : Z) : Z :=
  let m := 0%Z in
  let m := if (g =? label)%Z && negb (s =? label)%Z then 1%Z else m in
  let m := if (g =? label)%Z && (s =? label)%Z then 2%Z else m in
  if negb (g =? label)%Z && (s =? label)%Z then 3%Z else m.

(** The axes [plot_2d_segmentation] draws: the image in grey, and over it
    the overlay in the three-colour map red, green, blue. *)
Definition segmentation_axes (image : ndarray Q) (masked : masked_array) (alpha : Q)
  : Axes :=
  [ set_axis_off; margins 0%Z; tick_params "both" "in";
    imshow (pic_array image) (cmap_named "gray") "none" None;
    imshow (pic_masked masked)
      (LinearSegmentedColormap_from_list "rgb"
         [(1, 0, 0)%Z; (0, 1, 0)%Z; (0, 0, 1)%Z] 3%Z)
      "none" (Some alpha) ].

(** The optional title and axis labels, in the order they are drawn. *)
Definition histogram_labels (title_ xlabel_ ylabel_ : string) : list Draw :=
  (if truthy title_ then [title title_] else [])
    ++ (if truthy xlabel_ then [xlabel xlabel_ None] else [])
    ++ (if truthy ylabel_ then [ylabel ylabel_ None] else []).

(** The state [plot_histogram] leaves once it has the array [d] (lines 33
    to 40): the histogram and the labels drawn on the current figure, the
    figure saved under [path] and closed. *)
Definition histogram_saved (path : string) (d : ndarray Q) (no_bins : Z)
    (title_ xlabel_ ylabel_ : string) (w : World) : World :=
  set_figures (fun fs => tail fs)
    (set_files
       (fun fl => fl ++ [(path,
                          FigureFile (hd [] (figures w)
                                      ++ hist (flatten d) no_bins None
                                           :: histogram_labels title_ xlabel_ ylabel_)
                            None)])
       w).


(** What [plt.hist] raises for a number of bins that is not positive, and
    the state it leaves: the current figure made if there was none, and
    nothing drawn. *)
Definition bins_error : Exn :=
  ValueError "`bins` must be positive, when an integer".

Definition figure_made (w : World) : World :=
  set_figures (fun fs => match fs with [] => [[]] | _ => fs end) w.

(** What [plot_histogram] does once it has the array [d] (lines 33 to
    40), and [plot_histogram_overlay] once it has its two (lines 68 to
    77). *)
Definition histogram_outcome (path : string) (d : ndarray Q) (no_bins : Z)
    (title_ xlabel_ ylabel_ : string) (w : World) : (Exn + unit) * World :=
  if (no_bins <=? 0)%Z
  then (inl bins_error, figure_made w)
  else (inr tt, histogram_saved path d no_bins title_ xlabel_ ylabel_ w).


(** Whatever [m] raises satisfies [E]. *)
Definition raises_only {A} (E : Exn -> Prop) (m : M A) : Prop :=
  forall w e w', m w = (inl e, w') -> E e.

(** The name of the file [_save_plot] writes when the history has [k]
    entries (line 258). *)
Definition plot_file_name (file_name_prefix : string) (k : nat) : string :=
  file_name_prefix +:+ format_03d k +:+ ".png".

(** The four calls [_save_plot] makes on the current figure for a plotter
    in state [p] (lines 217 to 220). *)
Definition iteration_draws (p : RegistrationPlotter) (ys : list Q) : list Draw :=
  [ plot_y (metric_values p) "r";
    plot_xy (multires_iterations p) ys "b*";
    xlabel "Iteration" (Some 12%Z);
    ylabel "Metric Value" (Some 12%Z) ].

(** The left half of the picture [_save_plot] writes (lines 238 to 255):
    the central slice of the fixed volume and of the moving volume
    resampled with the transform [T], blended with weight 0.7 on the
    moving one, rescaled, cast to 8 bits and made a colour image. *)
Definition blended_slices (fixed moving : Image) (T : Transform) (img : Image) : Prop :=
  exists z fs ms combined,
    GetSize fixed !! 2%nat = Some z
    /\ getitem_z fixed (round_half z) = Some fs
    /\ getitem_z (Resample moving fixed T sitkLinear 0%Q (GetPixelIDValue moving))
         (round_half z) = Some ms
    /\ image_add (scalar_mul (1 - 0.7)%Q fs) (scalar_mul 0.7%Q ms) = inr combined
    /\ img = Compose (Cast (RescaleIntensity combined) sitkUInt8)
               (Cast (RescaleIntensity combined) sitkUInt8)
               (Cast (RescaleIntensity combined) sitkUInt8).

(** [img] is what [_write_combined_image] makes of two images (lines 262
    to 274): a new image as wide as both and as high as the higher, of
    the type of the first, with the first pasted at the left edge and
    the second right of it, the lower of the two half way down. *)
Definition side_by_side (image1 image2 img : Image) : Prop :=
  let canvas :=
    NewImage [(GetWidth image1 + GetWidth image2)%Z;
              Z.max (GetHeight image1) (GetHeight image2)]
      (GetPixelID image1) (GetNumberOfComponentsPerPixel image1) in
  exists y1 y2 c1,
    (if (GetHeight image1 >? GetHeight image2)%Z
     then y1 = 0%Z /\ y2 = round_half (GetHeight canvas - GetHeight image2)
     else y1 = round_half (GetHeight canvas - GetHeight image1) /\ y2 = 0%Z)
    /\ Paste canvas image1 (GetSize image1) [0%Z; 0%Z] [0%Z; y1] = inr c1
    /\ Paste c1 image2 (GetSize image2) [0%Z; 0%Z] [GetWidth image1; y2] = inr img.

(** The state [_save_plot] leaves when it returns, for a plotter that
    was [p], an engine showing the metric value [v], the values [ys] of
    the history at the markers and the picture [img]. *)
Definition plot_saved (self : nat) (p : RegistrationPlotter) (v : Q) (ys : list Q)
    (file_name_prefix : string) (img : Image) (w : World) : World :=
  let p' := mk_plotter (metric_values p ++ [v]) (multires_iterations p) in
  set_files
    (fun fl => fl ++ [(plot_file_name file_name_prefix (S (length (metric_values p))),
                       ImageFile img)])
    (set_figures (fun fs => (hd [] fs ++ iteration_draws p' ys) :: tail fs)
       (set_plotters (fun ps => <[self := p']> ps) w)).

(** The axes [plot_slice] draws: the slice in grey. *)
Definition slice_axes (slice_ : ndarray Q) : Axes :=
  [ set_axis_off; margins 0%Z; tick_params "both" "in";
    imshow (pic_array slice_) (cmap_named "gray") "none" None ].

(** The callables [execute] attaches for a parameter object with plot
    directory [path] (none when it is empty), in a state with plotters
    [ps] and transforms [ts] (lines 135 and 136). *)
Definition attached_commands (r : nat) (fixed_image image : Image) (path : string)
    (ps : list RegistrationPlotter) (ts : list Transform)
  : list (Event * Command Image) :=
  if truthy path
  then plotter_commands (length ps) r fixed_image image (length ts) path
  else [].


(** Every plotter has its markers in order. *)
Definition all_ok (w : World) : Prop := Forall markers_ok (plotters w).

(** [m] raises only what satisfies [E] when it starts in a state that
    satisfies [P]. *)
Definition raises_only_from {A} (P : World -> Prop) (E : Exn -> Prop) (m : M A) : Prop :=
  forall w, P w -> forall e w', m w = (inl e, w') -> E e.

(** The exception of a list index out of range, as line 218 would raise
    it. *)
Definition list_index_error : Exn := IndexError "list index out of range".

(** [int(s)] for a string of decimal digits. *)
Definition int_of_digits (s : string) : option nat :=
  option_map Nat.of_uint (NilEmpty.uint_of_string s).

(** What the engine's own work leaves alone. *)
Definition same_outside (w w' : World) : Prop :=
  files w' = files w /\ figures w' = figures w /\ plotters w' = plotters w
  /\ stdout w' = stdout w /\ length (transforms w') = length (transforms w).

(** The data [plot_histogram] takes the histogram of (lines 28 to 31). *)
Definition histogram_data (image : Image) (slice_no : Z) : option (ndarray Q) :=
  if (slice_no >? -1)%Z
  then GetArrayFromImage <$> getitem_z image slice_no
  else Some (GetArrayFromImage image).

End Vocabulary.

(** ** A small executable toolkit

    Images and transforms are the terms that build them, so that what the
    code hands to the toolkit can be read off its results; pixel type,
    size and component count follow the toolkit's documented rules.  It is
    used to run the embedded code on concrete inputs. *)

Module Ref.

Inductive image : Type :=
| volume (name : string) (pid : PixelID) (size : list Z)
| i_cast (i : image) (pid : PixelID)
| i_normalize (i : image)
| i_rescale (i : image)
| i_compose (a b c : image)
| i_new (size : list Z) (pid : PixelID) (components : Z)
| i_paste (dst src : image) (size source_index destination_index : list Z)
| i_slice (i : image) (k : Z)
| i_scale (c : Q) (i : image)
| i_add (a b : image)
| i_resample (i r : image) (t : transform) (ip : Interpolator) (d : Q) (pid : PixelID)
| i_canvas (f : Figure)
with transform : Type :=
| t_euler3d
| t_centered (f m : image) (t : transform) (mode : InitializerMode)
| t_step (t : transform) (level iteration : nat).

(** Normalising gives a floating-point image whatever the input. *)
Fixpoint pixel_id (i : image) : PixelID :=
  match i with
  | volume _ pid _ => pid
  | i_cast _ pid => pid
  | i_normalize _ => sitkFloat64
  | i_rescale i => pixel_id i
  | i_compose _ _ _ => sitkVectorUInt8
  | i_new _ pid _ => pid
  | i_paste dst _ _ _ _ => pixel_id dst
  | i_slice i _ => pixel_id i
  | i_scale _ _ => sitkFloat64
  | i_add a _ => pixel_id a
  | i_resample _ _ _ _ _ pid => pid
  | i_canvas _ => sitkVectorUInt8
  end.

Fixpoint size (i : image) : list Z :=
  match i with
  | volume _ _ s => s
  | i_cast i _ | i_normalize i | i_rescale i | i_scale _ i => size i
  | i_compose a _ _ => size a
  | i_new s _ _ => s
  | i_paste dst _ _ _ _ => size dst
  | i_slice i _ => take 2 (size i)
  | i_add a _ => size a
  | i_resample _ r _ _ _ _ => size r
  | i_canvas _ => [640%Z; 480%Z]
  end.

Fixpoint components (i : image) : Z :=
  match i with
  | volume _ _ _ => 1%Z
  | i_cast i _ | i_normalize i | i_rescale i | i_scale _ i => components i
  | i_compose _ _ _ => 3%Z
  | i_new _ _ n => n
  | i_paste dst _ _ _ _ => components dst
  | i_slice i _ => components i
  | i_add a _ => components a
  | i_resample i _ _ _ _ _ => components i
  | i_canvas _ => 3%Z
  end.

(** [image[:, :, k]] of a volume; a negative [k] counts from the end. *)
Definition slice (i : image) (k : Z) : option image :=
  match size i with
  | [_; _; d] =>
      if ((0 <=? k) && (k <? d))%Z then Some (i_slice i k)
      else if ((- d <=? k) && (k <? 0))%Z then Some (i_slice i (d + k))
      else None
  | _ => None
  end.

(** [sitk.GetArrayFromImage]: the axes in reverse order; every voxel of
    a term image reads as zero. *)
Definition array_of (i : image) : ndarray Q :=
  let sh := map Z.to_nat (rev (size i)) in
  mk_ndarray sh (replicate (foldr Nat.mul 1%nat sh) 0%Q).

(** A scripted optimiser: at every level of the pyramid it takes at most
    two steps, fewer if the iteration budget is smaller. *)
Definition budget (s : Settings) : nat :=
  match optimizer s with
  | Some (GradientDescent _ n _ _ _) => Nat.min 2 (Z.to_nat n)
  | None => 0%nat
  end.

Definition snap (t : transform) (level k : nat) (stop : string) : Snapshot transform :=
  mk_snapshot (- (Z.of_nat (level + k)) # 10)%Q (Z.of_nat k) stop (t_step t level k).

Definition level_events (t : transform) (n level : nat)
  : list (Event * Snapshot transform) :=
  (sitkMultiResolutionIterationEvent, snap t level 0 "")
    :: map (fun k => (sitkIterationEvent, snap t level k "")) (seq 1 n).

(** The smoothing of the pyramid needs four pixels along every axis:
    with a positive sigma, a smaller image is refused once the run has
    started. *)
Definition too_small (i : image) : bool :=
  existsb (fun z => (z <? 4)%Z) (size i).

Definition smooths (s : Settings) : bool :=
  existsb (fun q => negb (Qle_bool q 0)) (smoothing_sigmas_per_level s).

Definition refusal : string :=
  "Exception thrown in SimpleITK ImageRegistrationMethod_Execute: The number of pixels along a direction is less than 4. This filter requires a minimum of four pixels along the dimension to be processed.".

Definition run (s : Settings) (t : transform) (fixed moving : image) : Run transform :=
  let n := budget s in
  let levels := length (shrink_factors_per_level s) in
  if smooths s && (too_small fixed || too_small moving)
  then mk_run [(sitkStartEvent, snap t 0 0 "")] (Some refusal) (snap t 0 0 "")
  else
    mk_run
      ((sitkStartEvent, snap t 0 0 "")
         :: concat (map (level_events t n) (seq 0 levels))
         ++ [(sitkEndEvent, snap t (levels - 1) n "")])
      None
      (snap t (levels - 1) n "Maximum number of iterations exceeded.").

(** Images of different pixel types are neither added nor pasted. *)
Definition same_type (a b : image) : bool :=
  bool_decide (pixel_id a = pixel_id b) && (components a =? components b)%Z.

Definition add (a b : image) : string + image :=
  if same_type a b then inr (i_add a b)
  else inl "Exception thrown in SimpleITK Add: Both images for AddImageFilter don't match type or dimension!".

Definition paste (dst src : image) (sz si di : list Z) : string + image :=
  if same_type dst src then inr (i_paste dst src sz si di)
  else inl "Exception thrown in SimpleITK Paste: Both images for PasteImageFilter don't match type or dimension!".

Definition default_settings : Settings :=
  mk_settings None NONE 1%Q sitkLinear None None [1%Z] [0%Q] false.

#[export] Instance toolkit : SimpleITK image transform :=
  {| GetPixelIDValue := pixel_id;
     GetPixelID := pixel_id;
     GetSize := size;
     GetWidth := fun i => nth 0 (size i) 0%Z;
     GetHeight := fun i => nth 1 (size i) 0%Z;
     GetNumberOfComponentsPerPixel := components;
     Cast := i_cast;
     Normalize := i_normalize;
     RescaleIntensity := i_rescale;
     Compose := i_compose;
     NewImage := i_new;
     Paste := paste;
     getitem_z := slice;
     scalar_mul := i_scale;
     image_add := add;
     Euler3DTransform := t_euler3d;
     CenteredTransformInitializer := t_centered;
     Resample := i_resample;
     ImageRegistrationMethod := default_settings;
     initial_snapshot := mk_snapshot 0%Q 0%Z "" t_euler3d;
     optimize := run;
     GetArrayFromImage := array_of;
     canvas_image := i_canvas;
     format_float := fun q => (if (Qnum q <? 0)%Z then "-" else "")
                                +:+ str_nat (Z.abs_nat (Qnum q)) +:+ "/"
                                +:+ str_nat (Pos.to_nat (Qden q));
     Resample_pixel_id := fun _ _ _ _ _ _ => eq_refl |}.

(** The caller's objects: a fixed image at 1, a moving image at 2, and
    two parameter objects, at 3 and 4, without and with a plot
    directory. *)
Definition fixed_volume : image := volume "fixed" sitkInt16 [64%Z; 64%Z; 48%Z].
Definition moving_volume : image := volume "moving" sitkUInt8 [64%Z; 64%Z; 48%Z].

(** Two volumes too thin for the pyramid, at 5 and 7, and a parameter
    object with the first as fixed image. *)
Definition thin_volume : image := volume "thin" sitkInt16 [4%Z; 4%Z; 3%Z].
Definition small_volume : image := volume "small" sitkUInt8 [5%Z; 5%Z; 2%Z].

Definition world0 : World image transform :=
  mk_world {[ 1%nat := fixed_volume; 2%nat := moving_volume; 5%nat := thin_volume;
              7%nat := small_volume ]}
    {[ 3%nat := mk_params 1%nat ""; 4%nat := mk_params 1%nat "out/";
       6%nat := mk_params 5%nat "" ]}
    [] [] [] [] [] [].

(** A filter with the default arguments, and one with a budget of two
    iterations, which the scripted optimiser uses up. *)
Definition make (verbose_ : bool) (iterations : Z)
  : (Exn + RigidMultiModalRegistration) * World image transform :=
  RigidMultiModalRegistration_init (mk_ifilter verbose_) 200%Z 1%Q 0.001%Q
    iterations [4%Z; 2%Z; 1%Z] [2%Q; 1%Q; 0%Q] world0.

Definition filter2 : RigidMultiModalRegistration :=
  mk_registration (mk_ifilter false) 200%Z 1%Q 0.001%Q 2%Z
    [4%Z; 2%Z; 1%Z] [2%Q; 1%Q; 0%Q] 0%nat.

Definition filter2_verbose : RigidMultiModalRegistration :=
  mk_registration (mk_ifilter true) 200%Z 1%Q 0.001%Q 2%Z
    [4%Z; 2%Z; 1%Z] [2%Q; 1%Q; 0%Q] 0%nat.

(** The state after [filter2] was made, and its engine. *)
Definition world1 : World image transform := (make false 2%Z).2.

Definition engine1 : Engine image :=
  mk_engine
    (mk_settings (Some (MattesMutualInformation 200%Z)) RANDOM 0.1%Q sitkLinear
       (Some (GradientDescent 1%Q 2%Z (1 # 1000000)%Q 10%Z Never))
       (Some FromPhysicalShift) [4%Z; 2%Z; 1%Z] [2%Q; 1%Q; 0%Q] true)
    None [] 0%Q 0%Z "".

(** The transform the scripted optimiser ends on for these inputs. *)
Definition final_transform : transform :=
  t_step (t_centered (i_cast fixed_volume sitkUInt8) moving_volume t_euler3d GEOMETRY)
    2 2.

(** The state once an initial transform is set and a plotter attached,
    as [execute] does for a parameter object with a plot directory; the
    engine then; and some events. *)
Definition world2 : World image transform :=
  ((t ← new_transform t_euler3d;
    SetInitialTransform 0%nat t;;
    RegistrationPlotter_init 0%nat (i_normalize fixed_volume)
      (i_normalize moving_volume) t "out/") world1).2.

Definition engine2 : Engine image :=
  mk_engine (settings engine1) (Some 0%nat)
    (plotter_commands 0%nat 0%nat (i_normalize fixed_volume)
       (i_normalize moving_volume) 0%nat "out/")
    0%Q 0%Z "".

Definition start0 : Event * Snapshot transform :=
  (sitkStartEvent, snap t_euler3d 0 0 "").

Definition trace2 : list (Event * Snapshot transform) :=
  [ (sitkMultiResolutionIterationEvent, snap t_euler3d 0 0 "");
    (sitkIterationEvent, snap t_euler3d 0 1 "");
    (sitkIterationEvent, snap t_euler3d 0 2 "") ].

(** A run of a thousand iterations: the start event and a thousand
    iteration events. *)
Definition trace1000 : list (Event * Snapshot transform) :=
  start0 :: replicate 1000 (sitkIterationEvent, snap t_euler3d 0 1 "").

(** The two halves of a picture as [_save_plot] makes them: the colour
    image of a slice, 64 by 64, and the canvas, 640 by 480. *)
Definition example_slices : image :=
  i_compose (i_cast (i_rescale (i_slice (i_normalize fixed_volume) 24)) sitkUInt8)
    (i_cast (i_rescale (i_slice (i_normalize fixed_volume) 24)) sitkUInt8)
    (i_cast (i_rescale (i_slice (i_normalize fixed_volume) 24)) sitkUInt8).

(** The arrays of the example in the docstring of
    [plot_2d_segmentation]: ones in rows [r0, r1) and columns [c0, c1) of
    a 10 by 15 array of zeros. *)
Definition block (r0 r1 c0 c1 : nat) : ndarray Z :=
  mk_ndarray [10%nat; 15%nat]
    (flat_map (fun i => map (fun j =>
                 if ((r0 <=? i) && (i <? r1) && (c0 <=? j) && (j <? c1))%nat
                 then 1%Z else 0%Z) (seq 0 15)) (seq 0 10)).

Definition example_image : ndarray Q :=
  mk_ndarray [10%nat; 15%nat] (replicate 150 0.1%Q).
Definition example_ground_truth : ndarray Z := block 3 7 3 12.
Definition example_segmentation : ndarray Z := block 4 8 4 13.

End Ref.

(** * Properties *)

Section Monad.
Context {Image Transform : Type} `{!SimpleITK Image Transform}.
Local Abbreviation M := (M Image Transform).
Local Abbreviation World := (World Image Transform).
Implicit Types P : World -> Prop.

Lemma bind_run {A B} (m : M A) (k : A -> M B) w a w1 :
  m w = (inr a, w1) -> (m ≫= k) w = k a w1.
Proof. intros H. unfold mbind, M_bind. now rewrite H. Qed.

Lemma bind_fail {A B} (m : M A) (k : A -> M B) w e w1 :
  m w = (inl e, w1) -> (m ≫= k) w = (inl e, w1).
Proof. intros H. unfold mbind, M_bind. now rewrite H. Qed.

Lemma bind_inv {A B} (m : M A) (k : A -> M B) w b w2 :
  (m ≫= k) w = (inr b, w2) ->
  exists a w1, m w = (inr a, w1) /\ k a w1 = (inr b, w2).
Proof.
  unfold mbind, M_bind. destruct (m w) as [[e|a] w1]; intros H.
  - discriminate.
  - eauto.
Qed.

Lemma preserves_ret {A} P (a : A) : preserves P (mret a : M A).
Proof. intros w Hw. exact Hw. Qed.

Lemma preserves_raise {A} P e : preserves P (raise e : M A).
Proof. intros w Hw. exact Hw. Qed.

Lemma preserves_get P : preserves P get.
Proof. intros w Hw. exact Hw. Qed.

Lemma preserves_modify P f :
  (forall w, P w -> P (f w)) -> preserves P (modify f).
Proof. intros Hf w Hw. now apply Hf. Qed.

Lemma preserves_bind {A B} P (m : M A) (k : A -> M B) :
  preserves P m -> (forall a, preserves P (k a)) -> preserves P (m ≫= k).
Proof.
  intros Hm Hk w Hw. unfold mbind, M_bind.
  specialize (Hm w Hw). destruct (m w) as [[e|a] w1]; simpl in *.
  - exact Hm.
  - now apply Hk.
Qed.

Lemma preserves_lift_opt {A} P (o : option A) e : preserves P (lift_opt o e).
Proof. destruct o; [apply preserves_ret | apply preserves_raise]. Qed.

Lemma preserves_lift_exn {A} P (r : Exn + A) : preserves P (lift_exn r).
Proof. destruct r; [apply preserves_raise | apply preserves_ret]. Qed.

Lemma preserves_lift_runtime {A} P (r : string + A) : preserves P (lift_runtime r).
Proof. destruct r; [apply preserves_raise | apply preserves_ret]. Qed.

Lemma preserves_for_each {A} P (f : A -> M unit) l :
  (forall x, preserves P (f x)) -> preserves P (for_each f l).
Proof.
  intros Hf. induction l as [|x l IH]; simpl.
  - apply preserves_ret.
  - apply preserves_bind; [apply Hf | intros _; exact IH].
Qed.

Lemma preserves_list_comprehension {A B} P (f : A -> M B) l :
  (forall x, preserves P (f x)) -> preserves P (list_comprehension f l).
Proof.
  intros Hf. induction l as [|x l IH]; simpl.
  - apply preserves_ret.
  - apply preserves_bind; [apply Hf | intros y].
    apply preserves_bind; [exact IH | intros ys; apply preserves_ret].
Qed.

(** If [m] returned, [P] was carried over to the state it returned in. *)
Lemma preserves_run {A} P (m : M A) w r w1 :
  preserves P m -> P w -> m w = (r, w1) -> P w1.
Proof. intros Hm Hw H. specialize (Hm w Hw). now rewrite H in Hm. Qed.

End Monad.

(** Splits a goal [preserves P m] along the structure of [m]; what is left
    are the state changes of [m]. *)
Ltac preserve :=
  repeat first
    [ apply preserves_ret
    | apply preserves_raise
    | apply preserves_get
    | apply preserves_lift_opt
    | apply preserves_lift_exn
    | apply preserves_lift_runtime
    | apply preserves_bind; [| intros ?]
    | apply preserves_for_each; intros ?
    | apply preserves_list_comprehension; intros ?
    | match goal with
      | |- preserves _ (if ?b then _ else _) => destruct b
      | |- preserves _ (match ?x with _ => _ end) => destruct x
      | |- preserves _ (let '(_, _) := ?x in _) => destruct x
      end ].

Section Registration.
Context {Image Transform : Type} `{!SimpleITK Image Transform}.
Local Abbreviation preserves := (preserves (Image := Image) (Transform := Transform)).
Local Abbreviation M := (M Image Transform).
Local Abbreviation World := (World Image Transform).
Local Abbreviation Engine := (Engine Image).

(** *** Reading and updating objects that are there *)

Lemma get_engine_run (w : World) r e :
  engines w !! r = Some e -> get_engine r w = (inr e, w).
Proof.
  intros H. unfold get_engine, get, lift_opt, mbind, M_bind. now rewrite H.
Qed.

Lemma update_engine_run (w : World) r e f :
  engines w !! r = Some e ->
  update_engine r f w = (inr tt, set_engines (fun es => <[r := f e]> es) w).
Proof.
  intros H. unfold update_engine. now rewrite (bind_run _ _ _ _ _ (get_engine_run _ _ _ H)).
Qed.

Lemma new_engine_run (w : World) e :
  new_engine e w = (inr (length (engines w)), set_engines (fun es => es ++ [e]) w).
Proof. reflexivity. Qed.

(** Updating the engine that was created last. *)
Lemma update_engine_last (w : World) (es : list Engine) e f :
  engines w = es ++ [e] ->
  update_engine (length es) f w = (inr tt, set_engines (fun _ => es ++ [f e]) w).
Proof.
  intros H.
  rewrite (update_engine_run w (length es) e).
  - unfold set_engines. rewrite H.
    replace (length es) with (length es + 0)%nat by lia.
    now rewrite insert_app_r.
  - rewrite H. now rewrite list_lookup_middle.
Qed.

Lemma is_uint32_true (x : Z) : is_uint32 x = true <-> (0 <= x < 2 ^ 32)%Z.
Proof. unfold is_uint32. rewrite andb_true_iff, Z.leb_le, Z.ltb_lt. tauto. Qed.

Lemma forallb_is_uint32 (l : list Z) :
  forallb is_uint32 l = true <-> Forall (fun x => 0 <= x < 2 ^ 32)%Z l.
Proof.
  induction l as [|x l IH]; simpl.
  - split; [intros _; constructor | reflexivity].
  - rewrite andb_true_iff, IH, is_uint32_true. split.
    + intros [Hx Hl]. now constructor.
    + intros H. inversion H; subst. auto.
Qed.

Ltac unfold_setters :=
  unfold SetMetricAsMattesMutualInformation, SetMetricSamplingStrategy,
    SetMetricSamplingPercentage, SetInterpolator, SetOptimizerAsGradientDescent,
    SetOptimizerScalesFromPhysicalShift, SetShrinkFactorsPerLevel,
    SetSmoothingSigmasPerLevel, SmoothingSigmasAreSpecifiedInPhysicalUnitsOn.

Ltac set_last w :=
  erewrite bind_run; [| apply (update_engine_last _ (engines w)); reflexivity].

Lemma init_equal_lengths super_init bins lr ss n (sf : list Z) (sg : list Q) (w : World) :
  length sf = length sg ->
  is_uint32 bins = true -> is_uint32 n = true -> forallb is_uint32 sf = true ->
  RigidMultiModalRegistration_init super_init bins lr ss n sf sg w
  = (inr (mk_registration super_init bins lr ss n sf sg (length (engines w))),
     set_engines (fun es => es ++ [configured_engine bins lr n sf sg]) w).
Proof.
  intros Hlen Hb Hn Hsf. unfold RigidMultiModalRegistration_init.
  rewrite Hlen, Nat.eqb_refl. change (negb true) with false. cbv iota.
  unfold new_ImageRegistrationMethod.
  rewrite (bind_run _ _ _ _ _ (new_engine_run _ _)).
  unfold_setters. rewrite Hb, Hn, Hsf.
  change (is_uint32 10) with true. change (negb true) with false. cbv iota.
  repeat set_last w.
  reflexivity.
Qed.

Lemma init_unequal_lengths super_init bins lr ss n (sf : list Z) (sg : list Q) (w : World) :
  length sf <> length sg ->
  RigidMultiModalRegistration_init super_init bins lr ss n sf sg w
  = (inl (ValueError "shrink_factors and smoothing_sigmas need to be same length"), w).
Proof.
  intros Hlen. unfold RigidMultiModalRegistration_init.
  apply Nat.eqb_neq in Hlen. now rewrite Hlen.
Qed.

(** Sequences of one length and a number the toolkit's setters refuse:
    the refusal of the first such setter is what the constructor raises,
    the engine being made already. *)
Lemma init_refused super_init bins lr ss n (sf : list Z) (sg : list Q) (w : World) :
  length sf = length sg ->
  is_uint32 bins && is_uint32 n && forallb is_uint32 sf = false ->
  exists err e' msg,
    RigidMultiModalRegistration_init super_init bins lr ss n sf sg w
    = (inl err, set_engines (fun es => es ++ [e']) w)
    /\ err = (if is_uint32 bins && is_uint32 n then TypeError msg else OverflowError msg).
Proof.
  intros Hlen Hr. unfold RigidMultiModalRegistration_init.
  rewrite Hlen, Nat.eqb_refl. change (negb true) with false. cbv iota.
  unfold new_ImageRegistrationMethod.
  rewrite (bind_run _ _ _ _ _ (new_engine_run _ _)).
  unfold_setters.
  destruct (is_uint32 bins) eqn:Hb; simpl negb; cbv iota.
  - do 4 set_last w.
    destruct (is_uint32 n) eqn:Hn; simpl negb; cbv iota.
    + change (is_uint32 10) with true. simpl negb. cbv iota.
      do 2 set_last w.
      simpl in Hr. rewrite Hr. simpl negb. cbv iota.
      eexists _, _, _. split; [reflexivity | reflexivity].
    + eexists _, _, _. split; [reflexivity | reflexivity].
  - eexists _, _, _. split; [reflexivity | reflexivity].
Qed.

(** C2, as the code has it.  The constructor raises ValueError exactly
    when [shrink_factors] and [smoothing_sigmas] differ in length, and
    then leaves everything as it was.  For sequences of one length it
    returns exactly when the toolkit's setters accept the numbers
    ([number_of_histogram_bins] and [number_of_iterations] in the range
    of a C unsigned int, and every shrink factor too), and the filter
    then has the six configuration fields as given and a newly made
    engine configured from them.  Otherwise the refusal of the first
    such setter is raised, OverflowError for the two numbers and
    TypeError for the sequence, the engine being made already. *)
Theorem init_value_error_iff_lengths_differ
    super_init bins lr ss n (sf : list Z) (sg : list Q) (w : World) :
  let res := RigidMultiModalRegistration_init super_init bins lr ss n sf sg w in
  let accepted :=
    ((0 <= bins < 2 ^ 32) /\ (0 <= n < 2 ^ 32)
     /\ Forall (fun x => 0 <= x < 2 ^ 32) sf)%Z in
  ((exists msg, res = (inl (ValueError msg), w)) <-> length sf <> length sg)
  /\ ((exists self w',
         res = (inr self, w')
         /\ number_of_histogram_bins self = bins
         /\ learning_rate self = lr
         /\ step_size self = ss
         /\ number_of_iterations self = n
         /\ shrink_factors self = sf
         /\ smoothing_sigmas self = sg
         /\ engines w' = engines w ++ [configured_engine bins lr n sf sg]
         /\ registration self = length (engines w))
      <-> length sf = length sg /\ accepted)
  /\ ((exists msg e',
         (res = (inl (OverflowError msg), set_engines (fun es => es ++ [e']) w)
          /\ ~ ((0 <= bins < 2 ^ 32) /\ (0 <= n < 2 ^ 32))%Z)
         \/ (res = (inl (TypeError msg), set_engines (fun es => es ++ [e']) w)
             /\ ((0 <= bins < 2 ^ 32) /\ (0 <= n < 2 ^ 32))%Z))
      <-> length sf = length sg /\ ~ accepted).
Proof.
  intros res accepted. subst res accepted.
  pose proof (is_uint32_true bins) as Rb.
  pose proof (is_uint32_true n) as Rn.
  pose proof (forallb_is_uint32 sf) as Rsf.
  destruct (decide (length sf = length sg)) as [Heq|Hne].
  - destruct (is_uint32 bins && is_uint32 n && forallb is_uint32 sf) eqn:Hacc.
    + apply andb_true_iff in Hacc as [Hacc Hsf].
      apply andb_true_iff in Hacc as [Hb Hn].
      rewrite (init_equal_lengths _ _ _ _ _ _ _ _ Heq Hb Hn Hsf).
      split; [| split].
      * split; [intros [msg Hm]; discriminate | intros Hc; contradiction].
      * split; [intros _; tauto | intros _].
        eexists _, _. split; [reflexivity |]. simpl. tauto.
      * split; [intros (msg & e' & [[Hm _]|[Hm _]]); discriminate |].
        intros [_ Hc]. exfalso. apply Hc. tauto.
    + destruct (init_refused super_init bins lr ss n sf sg w Heq Hacc)
        as (err & e' & msg & Hrun & Herr).
      rewrite Hrun. subst err.
      assert (Hnot : ~ (is_uint32 bins = true /\ is_uint32 n = true
                        /\ forallb is_uint32 sf = true)).
      { intros (Hb & Hn & Hsf). rewrite Hb, Hn, Hsf in Hacc. discriminate. }
      split; [| split].
      * split; [| intros Hc; contradiction].
        intros [m Hm]. destruct (is_uint32 bins && is_uint32 n); discriminate.
      * split; [| intros [_ Hc]; exfalso; tauto].
        intros (self & w' & Hm & _). discriminate.
      * split; [intros _; split; [exact Heq | tauto] | intros _].
        exists msg, e'.
        destruct (is_uint32 bins && is_uint32 n) eqn:Hbn.
        -- right. split; [reflexivity |].
           apply andb_true_iff in Hbn. tauto.
        -- left. split; [reflexivity |].
           intros [Hb Hn]. apply Rb in Hb. apply Rn in Hn.
           rewrite Hb, Hn in Hbn. discriminate.
  - rewrite (init_unequal_lengths _ _ _ _ _ _ _ _ Hne). split; [| split].
    + split; [intros _; exact Hne | intros _; eauto].
    + split; [intros (self & w' & Hm & _); discriminate | intros [Hc _]; contradiction].
    + split; [| intros [Hc _]; contradiction].
      intros (msg & e' & [[Hm _]|[Hm _]]); discriminate.
Qed.

(** C3.  With no parameter object, [execute] raises ValueError at once:
    the state is the one it was called in. *)
Theorem execute_without_params_raises
    (self : RigidMultiModalRegistration) (image : nat) (w : World) :
  execute self image None w = (inl (ValueError "params is not defined"), w).
Proof. reflexivity. Qed.

(** *** What [execute] leaves alone *)

(** Unfolds the embedded code down to [get], [modify], [raise] and the
    loops. *)
Ltac unfold_code :=
  unfold execute, execute_registration, execute_report, Execute, fire,
    RegistrationPlotter_init, run_command, _save_plot, _write_combined_image,
    _start_plot, _end_plot, _update_multiresolution_iterations,
    SetInitialTransform, AddCommand, GetMetricValue, GetOptimizerIteration,
    GetOptimizerStopConditionDescription, attr_fixed_image,
    attr_plot_directory_path, WriteImage, plt_draw, plt_close, plt_savefig,
    plt_figure, gcf, print, new_transform, new_plotter, new_engine,
    update_plotter, update_engine, get_transform, get_plotter, get_engine,
    get_params, get_image.

Lemma show_images r s (w : World) : images (show r s w) = images w.
Proof. unfold show. repeat case_match; reflexivity. Qed.

Lemma show_params_store r s (w : World) : params_store (show r s w) = params_store w.
Proof. unfold show. repeat case_match; reflexivity. Qed.

Ltac frame_modify :=
  apply preserves_modify; intros ? [? ?]; split;
  rewrite ?show_images, ?show_params_store; assumption.

Lemma run_command_frame w0 (c : Command Image) :
  preserves (same_caller_objects w0) (run_command c).
Proof.
  destruct c; unfold_code; preserve; frame_modify.
Qed.

Lemma Execute_frame w0 r fixed moving :
  preserves (same_caller_objects w0) (Execute r fixed moving).
Proof.
  unfold Execute, fire, get_engine, get_transform.
  preserve; try frame_modify. apply run_command_frame.
Qed.

Lemma execute_frame w0 self image params :
  preserves (same_caller_objects w0) (execute self image params).
Proof.
  unfold execute, execute_registration, execute_report.
  preserve; try apply Execute_frame; unfold_code; preserve; frame_modify.
Qed.

(** C4.  [execute] normalises copies: whatever it is called with and
    however it ends, the caller's images (the fixed and the moving image
    among them) and parameter objects (with their [fixed_image] and
    [plot_directory_path]) are afterwards what they were before. *)
Theorem execute_leaves_caller_objects
    (self : RigidMultiModalRegistration) (image : nat) (params : option nat)
    (w : World) :
  images (execute self image params w).2 = images w
  /\ params_store (execute self image params w).2 = params_store w.
Proof.
  apply (execute_frame w self image params w). split; reflexivity.
Qed.

Lemma execute_registration_frame w0 self image params :
  preserves (same_caller_objects w0) (execute_registration self image params).
Proof.
  unfold execute_registration.
  preserve; try apply Execute_frame; unfold_code; preserve; frame_modify.
Qed.

(** *** Engines stay where they are *)

Lemma show_engines_length r s (w : World) :
  length (engines (show r s w)) = length (engines w).
Proof.
  unfold show. repeat case_match; simpl; rewrite ?length_insert; reflexivity.
Qed.

Ltac there_modify :=
  apply preserves_modify; unfold engine_there; intros ? ?;
  rewrite ?show_engines_length; simpl;
  rewrite ?length_insert, ?length_app; simpl; lia.

Lemma run_command_engine_there r (c : Command Image) :
  preserves (engine_there r) (run_command c).
Proof. destruct c; unfold_code; preserve; there_modify. Qed.

Lemma Execute_engine_there r r' fixed moving :
  preserves (engine_there r) (Execute r' fixed moving).
Proof.
  unfold Execute, fire, get_engine, get_transform.
  preserve; try there_modify. apply run_command_engine_there.
Qed.

Lemma get_engine_inv (w : World) r e w1 :
  get_engine r w = (inr e, w1) -> w1 = w /\ engines w !! r = Some e.
Proof.
  unfold get_engine, get, lift_opt, mbind, M_bind.
  destruct (engines w !! r); simpl; intros H; inversion H; auto.
Qed.

Lemma Execute_returns_engine_there r fixed moving (w : World) t w1 :
  Execute r fixed moving w = (inr t, w1) -> engine_there r w1.
Proof.
  intros H.
  refine (preserves_run _ _ w _ _ (Execute_engine_there r r fixed moving) _ H).
  unfold Execute in H. apply bind_inv in H as (e & w' & He & _).
  apply get_engine_inv in He as [_ He].
  unfold engine_there. apply lookup_lt_is_Some. eauto.
Qed.

Lemma get_image_inv (w : World) i x w1 :
  get_image i w = (inr x, w1) -> w1 = w /\ images w !! i = Some x.
Proof.
  unfold get_image, get, lift_opt, mbind, M_bind.
  destruct (images w !! i); simpl; intros H; inversion H; auto.
Qed.

Lemma get_params_inv (w : World) p x w1 :
  get_params p w = (inr x, w1) -> w1 = w /\ params_store w !! p = Some x.
Proof.
  unfold get_params, get, lift_opt, mbind, M_bind.
  destruct (params_store w !! p); simpl; intros H; inversion H; auto.
Qed.

Lemma attr_fixed_image_inv (w : World) p x w1 :
  attr_fixed_image p w = (inr x, w1) ->
  w1 = w /\ exists px, params_store w !! p = Some px
                       /\ images w !! fixed_image px = Some x.
Proof.
  unfold attr_fixed_image. intros H.
  apply bind_inv in H as (px & w' & Hp & Hi).
  apply get_params_inv in Hp as [-> Hp].
  unfold get, lift_opt, mbind, M_bind in Hi.
  destruct (images w !! fixed_image px) eqn:Hx; simpl in Hi; inversion Hi; subst.
  eauto.
Qed.

Lemma attr_fixed_image_run (w : World) p px x :
  params_store w !! p = Some px -> images w !! fixed_image px = Some x ->
  attr_fixed_image p w = (inr x, w).
Proof.
  intros Hp Hi. unfold attr_fixed_image, get_params, get, lift_opt,
    mbind, M_bind. rewrite Hp. simpl. now rewrite Hi.
Qed.

Lemma get_image_run (w : World) i x :
  images w !! i = Some x -> get_image i w = (inr x, w).
Proof.
  intros H. unfold get_image, get, lift_opt, mbind, M_bind. now rewrite H.
Qed.

Lemma get_params_run (w : World) p px :
  params_store w !! p = Some px -> get_params p w = (inr px, w).
Proof.
  intros H. unfold get_params, get, lift_opt, mbind, M_bind. now rewrite H.
Qed.

Ltac invert_bind H :=
  cbv beta zeta in H;
  let a := fresh "a" in let w := fresh "w" in let Ha := fresh "Ha" in
  apply bind_inv in H as (a & w & Ha & H).

Lemma execute_registration_inv self image p (w : World) img t w1 :
  execute_registration self image p w = (inr (img, t), w1) ->
  (exists px fimg, params_store w !! p = Some px
                   /\ images w !! fixed_image px = Some fimg)
  /\ engine_there (registration self) w1.
Proof.
  unfold execute_registration. intros H.
  do 2 (invert_bind H).
  invert_bind H. apply get_params_inv in Ha as [-> _].
  apply get_image_inv in Ha0 as [-> _].
  apply attr_fixed_image_inv in Ha1 as [_ (px & Hp & Hi)].
  split; [eauto |].
  do 7 (invert_bind H).
  cbv beta zeta in H. unfold mret, M_ret in H. inversion H; subst.
  eapply Execute_returns_engine_there; eauto.
Qed.

Lemma execute_report_run self (w : World) e :
  engines w !! registration self = Some e ->
  execute_report self w = (inr tt, set_stdout (fun o => o ++ report self e) w).
Proof.
  intros He. unfold execute_report, report.
  unfold GetMetricValue, GetOptimizerStopConditionDescription, GetOptimizerIteration,
    get_engine, get, lift_opt, print, modify, mbind, M_bind, mret, M_ret.
  destruct (verbose (base self)).
  - rewrite He. simpl. rewrite He. simpl.
    unfold set_stdout. simpl. now rewrite <- app_assoc.
  - rewrite He.
    destruct (number_of_iterations self =? optimizer_iteration e)%Z.
    + reflexivity.
    + unfold set_stdout. rewrite app_nil_r. now destruct w.
Qed.

(** Once the engine has run, [execute] goes through: it prints the
    report and returns the resampled image. *)
Lemma execute_after_registration self image p (w : World) img t w1 :
  execute_registration self image p w = (inr (img, t), w1) ->
  exists e px fimg,
    engines w1 !! registration self = Some e
    /\ params_store w !! p = Some px
    /\ images w !! fixed_image px = Some fimg
    /\ execute self image (Some p) w
       = (inr (Resample img fimg t sitkLinear 0%Q (GetPixelIDValue img)),
          set_stdout (fun o => o ++ report self e) w1).
Proof.
  intros H.
  destruct (execute_registration_inv _ _ _ _ _ _ _ H) as [(px & fimg & Hp & Hi) Hthere].
  apply lookup_lt_is_Some in Hthere as [e He].
  exists e, px, fimg. repeat split; try assumption.
  destruct (preserves_run _ _ _ _ _ (execute_registration_frame w self image p)
              (conj eq_refl eq_refl) H) as [Him Hpa].
  unfold execute. rewrite (bind_run _ _ _ _ _ H). cbv beta iota zeta.
  rewrite (bind_run _ _ _ _ _ (execute_report_run _ _ _ He)).
  erewrite bind_run; [reflexivity |].
  apply attr_fixed_image_run with (px := px); simpl.
  - now rewrite Hpa.
  - now rewrite Him.
Qed.

(** *** Running the set-up of [execute] forwards *)

Lemma attr_plot_directory_path_run (w : World) p px :
  params_store w !! p = Some px ->
  attr_plot_directory_path p w = (inr (plot_directory_path px), w).
Proof.
  intros H. unfold attr_plot_directory_path, get_params, get, lift_opt, mbind,
    M_bind. now rewrite H.
Qed.

Lemma lookup_set_engines_insert (w : World) r (x : Engine) :
  (r < length (engines w))%nat ->
  engines (set_engines (fun es => <[r := x]> es) w) !! r = Some x.
Proof. intros H. simpl. now apply list_lookup_insert_eq. Qed.

Lemma set_engines_insert_twice (w : World) r (x y : Engine) :
  set_engines (fun es => <[r := y]> es) (set_engines (fun es => <[r := x]> es) w)
  = set_engines (fun es => <[r := y]> es) w.
Proof. unfold set_engines. simpl. now rewrite list_insert_insert_eq. Qed.

Lemma RegistrationPlotter_init_run (w : World) r e fixed image t path :
  engines w !! r = Some e ->
  RegistrationPlotter_init r fixed image t path w
  = (inr (length (plotters w)),
     set_engines
       (fun es => <[r := with_commands e
                            (plotter_commands (length (plotters w)) r fixed image t path)]> es)
       (set_plotters (fun ps => ps ++ [mk_plotter [] []]) w)).
Proof.
  intros He. pose proof (lookup_lt_Some _ _ _ He) as Hlt.
  unfold RegistrationPlotter_init, AddCommand.
  change (new_plotter (mk_plotter [] []) ≫= ?k)
    with (fun w0 : World => k (length (plotters w0))
            (set_plotters (fun ps => ps ++ [mk_plotter [] []]) w0)).
  cbv beta.
  erewrite bind_run; [| apply update_engine_run; exact He].
  erewrite bind_run;
    [| apply update_engine_run, lookup_set_engines_insert; exact Hlt].
  rewrite set_engines_insert_twice.
  erewrite bind_run;
    [| apply update_engine_run, lookup_set_engines_insert; exact Hlt].
  rewrite set_engines_insert_twice.
  erewrite bind_run;
    [| apply update_engine_run, lookup_set_engines_insert; exact Hlt].
  rewrite set_engines_insert_twice.
  unfold mret, M_ret, with_commands, plotter_commands. simpl.
  now rewrite <- !app_assoc.
Qed.

Lemma get_transform_inv (w : World) i x w1 :
  get_transform i w = (inr x, w1) -> w1 = w /\ transforms w !! i = Some x.
Proof.
  unfold get_transform, get, lift_opt, mbind, M_bind.
  destruct (transforms w !! i); simpl; intros H; inversion H; auto.
Qed.

(** What [Execute] returns is the transform the optimiser ends with,
    started from the engine's settings and initial transform. *)
Lemma Execute_result r fixed moving (w : World) t w1 :
  Execute r fixed moving w = (inr t, w1) ->
  exists e t0ref t0,
    engines w !! r = Some e
    /\ initial_transform e = Some t0ref
    /\ transforms w !! t0ref = Some t0
    /\ t = sn_transform (run_final (optimize (settings e) t0 fixed moving)).
Proof.
  unfold Execute. intros H.
  invert_bind H. apply get_engine_inv in Ha as [-> He].
  invert_bind H. destruct (initial_transform a) as [t0ref|] eqn:Hi;
    [| discriminate]. inversion Ha; subst.
  invert_bind H. apply get_transform_inv in Ha0 as [-> Ht].
  invert_bind H.
  destruct (run_error (optimize (settings a) a1 fixed moving)); [discriminate |].
  invert_bind H.
  unfold mret, M_ret in H. inversion H; subst.
  eauto 10.
Qed.

Lemma new_transform_run (w : World) (t : Transform) :
  new_transform t w
  = (inr (length (transforms w)), set_transforms (fun ts => ts ++ [t]) w).
Proof. reflexivity. Qed.

(** The image and the transform the first part of [execute] ends with. *)
Lemma execute_registration_result self image p (w : World) px fimg mimg e img t w1 :
  params_store w !! p = Some px ->
  images w !! fixed_image px = Some fimg ->
  images w !! image = Some mimg ->
  engines w !! registration self = Some e ->
  execute_registration self image p w = (inr (img, t), w1) ->
  img = Normalize mimg
  /\ t = sn_transform
           (run_final
              (optimize (settings e)
                 (CenteredTransformInitializer (Cast fimg (GetPixelIDValue mimg))
                    mimg Euler3DTransform GEOMETRY)
                 (Cast (Normalize fimg) sitkFloat32)
                 (Cast (Normalize mimg) sitkFloat32))).
Proof.
  intros Hp Hi Hm He H. pose proof (lookup_lt_Some _ _ _ He) as Hlt.
  unfold execute_registration in H.
  rewrite (bind_run _ _ _ _ _ (get_params_run w p px Hp)) in H.
  rewrite (bind_run _ _ _ _ _ (get_image_run w image mimg Hm)) in H.
  rewrite (bind_run _ _ _ _ _ (attr_fixed_image_run w p px fimg Hp Hi)) in H.
  rewrite (bind_run _ _ _ _ _ (new_transform_run w _)) in H.
  unfold SetInitialTransform in H.
  erewrite bind_run in H; [| apply update_engine_run; exact He].
  erewrite bind_run in H; [| apply (attr_fixed_image_run _ p px fimg); assumption].
  cbv beta zeta in H.
  erewrite bind_run in H; [| apply (get_image_run _ image mimg); assumption].
  cbv beta zeta in H.
  erewrite bind_run in H; [| apply (attr_plot_directory_path_run _ p px); assumption].
  destruct (truthy (plot_directory_path px)).
  - erewrite bind_run in H;
      [| erewrite bind_run; [| apply (attr_plot_directory_path_run _ p px); assumption];
         erewrite bind_run;
         [reflexivity
         | apply RegistrationPlotter_init_run, lookup_set_engines_insert; exact Hlt]].
    invert_bind H. apply Execute_result in Ha as (e' & t0ref & t0 & He' & Hi' & Ht' & ->).
    unfold mret, M_ret in H. inversion H; subst img w1. split; [reflexivity |].
    simpl in He'.
    rewrite list_lookup_insert_eq in He' by (rewrite ?length_insert; exact Hlt).
    inversion He'; subst e'. simpl in Hi'. inversion Hi'; subst t0ref.
    simpl in Ht'. rewrite list_lookup_middle in Ht' by reflexivity.
    inversion Ht'; subst t0. reflexivity.
  - erewrite bind_run in H; [| reflexivity].
    invert_bind H. apply Execute_result in Ha as (e' & t0ref & t0 & He' & Hi' & Ht' & ->).
    unfold mret, M_ret in H. inversion H; subst img w1. split; [reflexivity |].
    simpl in He'.
    rewrite list_lookup_insert_eq in He' by exact Hlt.
    inversion He'; subst e'. simpl in Hi'. inversion Hi'; subst t0ref.
    simpl in Ht'. rewrite list_lookup_middle in Ht' by reflexivity.
    inversion Ht'; subst t0. reflexivity.
Qed.

Lemma show_engine r s (w : World) e :
  engines w !! r = Some e ->
  engines (show r s w) !! r
  = Some (mk_engine (settings e) (initial_transform e) (commands e)
            (sn_metric_value s) (sn_optimizer_iteration s) (sn_stop_condition s)).
Proof.
  intros He. pose proof (lookup_lt_Some _ _ _ He) as Hlt.
  unfold show. rewrite He.
  destruct (initial_transform e); simpl; now apply list_lookup_insert_eq.
Qed.

(** *** A run nobody observes goes through *)

Lemma fire_unobserved r x (w : World) e :
  engines w !! r = Some e -> commands e = [] ->
  fire r x w = (inr tt, show r x.2 w).
Proof.
  intros He Hc. unfold fire.
  erewrite bind_run; [| reflexivity].
  rewrite (bind_run _ _ _ _ _ (get_engine_run _ _ _ (show_engine r x.2 w e He))).
  simpl. rewrite Hc. reflexivity.
Qed.

Lemma for_each_fire_unobserved r evs (w : World) e :
  engines w !! r = Some e -> commands e = [] ->
  exists w', for_each (fire r) evs w = (inr tt, w').
Proof.
  revert w e. induction evs as [|x evs IH]; intros w e He Hc.
  - eexists. reflexivity.
  - simpl. rewrite (bind_run _ _ _ _ _ (fire_unobserved r x w e He Hc)).
    eapply IH; [apply (show_engine r x.2 w e He) | exact Hc].
Qed.

Lemma get_transform_run (w : World) i x :
  transforms w !! i = Some x -> get_transform i w = (inr x, w).
Proof.
  intros H. unfold get_transform, get, lift_opt, mbind, M_bind. now rewrite H.
Qed.

Lemma Execute_unobserved r fixed moving (w : World) e t0 T :
  engines w !! r = Some e -> commands e = [] ->
  initial_transform e = Some t0 -> transforms w !! t0 = Some T ->
  run_error (optimize (settings e) T fixed moving) = None ->
  exists w',
    Execute r fixed moving w
    = (inr (sn_transform (run_final (optimize (settings e) T fixed moving))), w').
Proof.
  intros He Hc Hi Ht Hok. unfold Execute.
  rewrite (bind_run _ _ _ _ _ (get_engine_run _ _ _ He)).
  rewrite Hi. simpl lift_opt.
  erewrite bind_run; [| reflexivity].
  rewrite (bind_run _ _ _ _ _ (get_transform_run _ _ _ Ht)).
  cbv zeta.
  destruct (for_each_fire_unobserved r
              (run_events (optimize (settings e) T fixed moving)) w e He Hc)
    as [w' Hw'].
  rewrite (bind_run _ _ _ _ _ Hw'), Hok. eexists. reflexivity.
Qed.

(** With no plot directory and no observer attached to the engine, the
    first part of [execute] returns when the engine's run does, and so
    does [execute]. *)
Lemma execute_returns_unobserved self image p (w : World) px fimg mimg e :
  params_store w !! p = Some px ->
  images w !! fixed_image px = Some fimg ->
  images w !! image = Some mimg ->
  engines w !! registration self = Some e ->
  commands e = [] ->
  plot_directory_path px = "" ->
  run_error
    (optimize (settings e)
       (CenteredTransformInitializer (Cast fimg (GetPixelIDValue mimg)) mimg
          Euler3DTransform GEOMETRY)
       (Cast (Normalize fimg) sitkFloat32) (Cast (Normalize mimg) sitkFloat32))
  = None ->
  exists img t w1 w2 r,
    execute_registration self image p w = (inr (img, t), w1)
    /\ execute self image (Some p) w = (inr r, w2).
Proof.
  intros Hp Hi Hm He Hc Hpath Hok. pose proof (lookup_lt_Some _ _ _ He) as Hlt.
  assert (Hreg : exists img t w1,
             execute_registration self image p w = (inr (img, t), w1)).
  { unfold execute_registration.
    rewrite (bind_run _ _ _ _ _ (get_params_run w p px Hp)).
    rewrite (bind_run _ _ _ _ _ (get_image_run w image mimg Hm)).
    rewrite (bind_run _ _ _ _ _ (attr_fixed_image_run w p px fimg Hp Hi)).
    rewrite (bind_run _ _ _ _ _ (new_transform_run w _)).
    unfold SetInitialTransform.
    erewrite bind_run; [| apply update_engine_run; exact He].
    erewrite bind_run; [| apply (attr_fixed_image_run _ p px fimg); assumption].
    cbv beta zeta.
    erewrite bind_run; [| apply (get_image_run _ image mimg); assumption].
    cbv beta zeta.
    erewrite bind_run; [| apply (attr_plot_directory_path_run _ p px); assumption].
    rewrite Hpath. simpl truthy. cbv iota.
    erewrite bind_run; [| reflexivity].
    match goal with
    | |- exists img t w1, (Execute ?r ?f ?m ≫= _) ?w0 = _ =>
        destruct (Execute_unobserved r f m w0 _ (length (transforms w)) _
                    (lookup_set_engines_insert _ _ _ Hlt) Hc eq_refl
                    (list_lookup_middle _ _ _ _ eq_refl) Hok) as [w' Hw']
    end.
    rewrite (bind_run _ _ _ _ _ Hw'). eexists _, _, _. reflexivity. }
  destruct Hreg as (img & t & w1 & Hreg).
  destruct (execute_after_registration _ _ _ _ _ _ _ Hreg)
    as (e1 & px' & fimg' & _ & _ & _ & Hex).
  eexists img, t, w1, _, _. split; [exact Hreg | exact Hex].
Qed.



End Registration.

(** ** Rounding and file names *)

Section Numbers.

(** Up to 2^53 the division is exact. *)
Lemma to_double_exact (n : Z) : (Z.abs n < 2 ^ 53)%Z -> to_double n = n.
Proof.
  intros Hn. unfold to_double.
  assert (He : (Z.log2 (Z.abs n) - 52 <= 0)%Z).
  { destruct (Z.eq_dec (Z.abs n) 0%Z) as [H0|H0].
    - rewrite H0. simpl. lia.
    - assert (Hlt : (Z.log2 (Z.abs n) < 53)%Z)
        by (apply Z.log2_lt_pow2; lia).
      lia. }
  apply Z.leb_le in He. now rewrite He.
Qed.

Lemma round_half_is_central_bounds (n : Z) :
  (Z.abs n < 2 ^ 53)%Z ->
  (-1 <= 2 * round_half n - n <= 1)%Z
  /\ ((0 <= n)%Z -> (0 <= round_half n <= n)%Z).
Proof.
  intros Hr. unfold round_half. rewrite (to_double_exact n Hr). cbv zeta.
  pose proof (Z.div_mod n 2 ltac:(lia)) as Hdm.
  pose proof (Z.mod_pos_bound n 2 ltac:(lia)) as Hmod.
  pose proof (Zeven_mod n) as Hev.
  destruct (Z.even n) eqn:Hn.
  - symmetry in Hev. apply Z.eqb_eq in Hev. lia.
  - symmetry in Hev. apply Z.eqb_neq in Hev.
    destruct (Z.even (n / 2)) eqn:Hq; lia.
Qed.

Lemma uint_of_zeros k s :
  NilEmpty.uint_of_string (zeros k +:+ s)
  = option_map (Nat.iter k Decimal.D0) (NilEmpty.uint_of_string s).
Proof.
  induction k as [|k IH].
  - change (zeros 0 +:+ s) with s. now destruct (NilEmpty.uint_of_string s).
  - change (zeros (S k) +:+ s) with (String "0" (zeros k +:+ s)).
    simpl. rewrite IH. now destruct (NilEmpty.uint_of_string s).
Qed.

Lemma of_uint_zeros k d : Nat.of_uint (Nat.iter k Decimal.D0 d) = Nat.of_uint d.
Proof. induction k as [|k IH]; simpl; [reflexivity | exact IH]. Qed.

(** The index can be read back from its three digits. *)
Lemma int_of_format_03d n : int_of_digits (format_03d n) = Some n.
Proof.
  unfold int_of_digits, format_03d, str_nat. rewrite uint_of_zeros.
  assert (H : exists d, NilEmpty.uint_of_string (NilZero.string_of_uint (Nat.to_uint n))
                        = Some d /\ Nat.of_uint d = n).
  { destruct (Nat.to_uint n) as [| | | | | | | | | |] eqn:Hd;
      try (eexists; split;
           [exact (NilEmpty.usu _) | rewrite <- Hd; apply DecimalNat.Unsigned.of_to]).
    exists Decimal.zero. split; [reflexivity |].
    rewrite <- (DecimalNat.Unsigned.of_to n), Hd. reflexivity. }
  destruct H as (d & -> & Hd). simpl. now rewrite of_uint_zeros, Hd.
Qed.

Lemma list_ascii_of_append a b :
  list_ascii_of_string (a +:+ b) = list_ascii_of_string a ++ list_ascii_of_string b.
Proof.
  induction a as [|c a IH].
  - reflexivity.
  - change (String c a +:+ b) with (String c (a +:+ b)). simpl. now rewrite IH.
Qed.

Lemma append_cancel a b c d :
  a +:+ b +:+ c = a +:+ d +:+ c -> b = d.
Proof.
  intros H. apply (f_equal list_ascii_of_string) in H.
  rewrite !list_ascii_of_append in H.
  apply app_inv_head, app_inv_tail in H.
  rewrite <- (string_of_list_ascii_of_string b), H.
  apply string_of_list_ascii_of_string.
Qed.

(** The name determines the index. *)
Lemma plot_file_name_inj (file_name_prefix : string) (n m : nat) :
  plot_file_name file_name_prefix n = plot_file_name file_name_prefix m -> n = m.
Proof.
  unfold plot_file_name. intros H. apply append_cancel in H.
  apply (f_equal int_of_digits) in H. rewrite !int_of_format_03d in H.
  now inversion H.
Qed.

Lemma string_of_uint_nil (d : Decimal.uint) :
  String.length (NilEmpty.string_of_uint d) = 0%nat -> d = Decimal.Nil.
Proof. destruct d; simpl; intros H; [reflexivity | discriminate ..]. Qed.

(** A number written with at most three digits is below 1000. *)
Lemma str_nat_short (k : nat) :
  (String.length (str_nat k) <= 3)%nat -> (k < 1000)%nat.
Proof.
  intros H. rewrite <- (DecimalNat.Unsigned.of_to k). unfold str_nat in H.
  destruct (Nat.to_uint k) as [|d|d|d|d|d|d|d|d|d|d]; [vm_compute; lia | ..];
    (destruct d as [|d|d|d|d|d|d|d|d|d|d]; [vm_compute; lia | ..]);
    (destruct d as [|d|d|d|d|d|d|d|d|d|d]; [vm_compute; lia | ..]);
    simpl in H;
    (assert (Hd : d = Decimal.Nil) by (apply string_of_uint_nil; lia));
    subst d; vm_compute; lia.
Qed.

Lemma length_zeros (k : nat) : String.length (zeros k) = k.
Proof. induction k as [|k IH]; simpl; [reflexivity | now rewrite IH]. Qed.

Lemma length_append (a b : string) :
  String.length (a +:+ b) = (String.length a + String.length b)%nat.
Proof.
  induction a as [|c a IH]; [reflexivity |].
  change (String c a +:+ b) with (String c (a +:+ b)). simpl. now rewrite IH.
Qed.

Lemma length_format_03d (k : nat) :
  String.length (format_03d k) = Nat.max 3 (String.length (str_nat k)).
Proof. unfold format_03d. rewrite length_append, length_zeros. lia. Qed.

(** From 1000 on nothing is padded and the digits are more than three. *)
Lemma format_03d_long (k : nat) :
  (1000 <= k)%nat ->
  format_03d k = str_nat k /\ (4 <= String.length (format_03d k))%nat.
Proof.
  intros Hk.
  assert (Hl : (4 <= String.length (str_nat k))%nat).
  { destruct (le_lt_dec (String.length (str_nat k)) 3) as [Hs|Hs]; [| lia].
    apply str_nat_short in Hs. lia. }
  split; [| rewrite length_format_03d; lia].
  unfold format_03d.
  replace (3 - String.length (str_nat k))%nat with 0%nat by lia. reflexivity.
Qed.

End Numbers.

(** ** The progress plotter *)

Section Plotter.
Context {Image Transform : Type} `{!SimpleITK Image Transform}.
Local Abbreviation preserves := (preserves (Image := Image) (Transform := Transform)).
Local Abbreviation M := (M Image Transform).
Local Abbreviation World := (World Image Transform).
Local Abbreviation Engine := (Engine Image).

Ltac unfold_code :=
  unfold Execute, fire,
    RegistrationPlotter_init, run_command, _save_plot, _write_combined_image,
    _start_plot, _end_plot, _update_multiresolution_iterations,
    SetInitialTransform, AddCommand, GetMetricValue, GetOptimizerIteration,
    GetOptimizerStopConditionDescription, attr_fixed_image,
    attr_plot_directory_path, WriteImage, plt_draw, plt_close, plt_savefig,
    plt_figure, gcf, print, new_transform, new_plotter, new_engine,
    update_plotter, update_engine, get_transform, get_plotter, get_engine,
    get_params, get_image.

Lemma Sorted_snoc (l : list nat) x :
  Sorted le l -> Forall (fun y => y <= x)%nat l -> Sorted le (l ++ [x]).
Proof.
  induction l as [|a l IH]; simpl; intros Hs Hb.
  - repeat constructor.
  - inversion Hs; subst. inversion Hb; subst. constructor.
    + now apply IH.
    + destruct l; simpl; constructor.
      * assumption.
      * match goal with H : HdRel _ _ (_ :: _) |- _ => inversion H; assumption end.
Qed.

Lemma markers_ok_empty : markers_ok (mk_plotter [] []).
Proof. split; constructor. Qed.

Lemma markers_ok_marker p :
  markers_ok p ->
  markers_ok (mk_plotter (metric_values p)
                (multires_iterations p ++ [length (metric_values p)])).
Proof.
  intros [Hb Hs]. split; simpl.
  - apply Forall_app. split; [exact Hb | repeat constructor].
  - now apply Sorted_snoc.
Qed.

Lemma markers_ok_value p v :
  markers_ok p ->
  markers_ok (mk_plotter (metric_values p ++ [v]) (multires_iterations p)).
Proof.
  intros [Hb Hs]. split; simpl; [| exact Hs].
  eapply Forall_impl; [exact Hb |]. intros m Hm. simpl in Hm.
  rewrite length_app. simpl. lia.
Qed.

(** *** The handlers on a plotter that is there *)

Lemma update_plotter_run (w : World) q x f :
  plotters w !! q = Some x ->
  update_plotter q f w = (inr tt, set_plotters (fun ps => <[q := f x]> ps) w).
Proof.
  intros H. unfold update_plotter, get_plotter, get, lift_opt, mbind, M_bind.
  now rewrite H.
Qed.

Lemma update_plotter_missing (w : World) q f :
  plotters w !! q = None -> update_plotter q f w = (inl missing, w).
Proof.
  intros H. unfold update_plotter, get_plotter, get, lift_opt, mbind, M_bind.
  now rewrite H.
Qed.

Lemma start_plot_run (w : World) q x :
  plotters w !! q = Some x ->
  _start_plot q w = (inr tt, set_plotters (fun ps => <[q := mk_plotter [] []]> ps) w).
Proof.
  intros H. pose proof (lookup_lt_Some _ _ _ H) as Hlt. unfold _start_plot.
  rewrite (bind_run _ _ _ _ _ (update_plotter_run _ _ _ _ H)).
  erewrite update_plotter_run; [| simpl; apply list_lookup_insert_eq; exact Hlt].
  unfold set_plotters. simpl. now rewrite list_insert_insert_eq.
Qed.

Lemma start_plot_missing (w : World) q :
  plotters w !! q = None -> _start_plot q w = (inl missing, w).
Proof.
  intros H. unfold _start_plot.
  now rewrite (bind_fail _ _ _ _ _ (update_plotter_missing _ _ _ H)).
Qed.

Lemma update_multiresolution_iterations_run (w : World) q x :
  plotters w !! q = Some x ->
  _update_multiresolution_iterations q w
  = (inr tt,
     set_plotters
       (fun ps => <[q := mk_plotter (metric_values x)
                           (multires_iterations x ++ [length (metric_values x)])]> ps)
       w).
Proof.
  intros H. unfold _update_multiresolution_iterations.
  now rewrite (update_plotter_run _ _ _ _ H).
Qed.

(** *** The invariant is kept by every callable *)

Lemma update_plotter_ok self q f :
  (forall p, markers_ok p -> markers_ok (f p)) ->
  preserves (plotter_ok self) (update_plotter q f).
Proof.
  intros Hf w (p & Hp & Hok).
  destruct (plotters w !! q) as [x|] eqn:Hq.
  - rewrite (update_plotter_run _ _ _ _ Hq). unfold plotter_ok. simpl.
    destruct (decide (q = self)) as [->|Hne].
    + rewrite Hp in Hq. inversion Hq; subst x.
      exists (f p). split; [| now apply Hf].
      apply list_lookup_insert_eq. now apply lookup_lt_Some in Hp.
    + exists p. split; [| exact Hok]. now rewrite list_lookup_insert_ne.
  - rewrite (update_plotter_missing _ _ _ Hq). unfold plotter_ok. simpl. eauto.
Qed.

Lemma start_plot_ok self q : preserves (plotter_ok self) (_start_plot q).
Proof.
  intros w (p & Hp & Hok).
  destruct (plotters w !! q) as [x|] eqn:Hq.
  - rewrite (start_plot_run _ _ _ Hq). unfold plotter_ok. simpl.
    destruct (decide (q = self)) as [->|Hne].
    + exists (mk_plotter [] []). split; [| apply markers_ok_empty].
      apply list_lookup_insert_eq. now apply lookup_lt_Some in Hp.
    + exists p. split; [| exact Hok]. now rewrite list_lookup_insert_ne.
  - rewrite (start_plot_missing _ _ Hq). unfold plotter_ok. simpl. eauto.
Qed.

Ltac ok_modify :=
  apply preserves_modify; intros ? (? & ? & ?); eexists; split; simpl; eassumption.

Lemma run_command_ok self (c : Command Image) :
  preserves (plotter_ok self) (run_command c).
Proof.
  destruct c; unfold run_command.
  - apply start_plot_ok.
  - unfold_code. ok_modify.
  - apply update_plotter_ok, markers_ok_marker.
  - unfold _save_plot. apply preserves_bind.
    { unfold_code. preserve. }
    intros v. apply preserves_bind.
    { apply update_plotter_ok. intros p. apply markers_ok_value. }
    intros _. unfold_code. preserve; ok_modify.
Qed.

Lemma show_plotters r s (w : World) : plotters (show r s w) = plotters w.
Proof. unfold show. repeat case_match; reflexivity. Qed.

Lemma fire_ok self r x : preserves (plotter_ok self) (fire r x).
Proof.
  unfold fire, get_engine. preserve; try apply run_command_ok.
  apply preserves_modify. intros w (p & Hp & Hok). exists p.
  now rewrite show_plotters.
Qed.

Lemma commands_for_elem ev (c : Command Image) cmds :
  (ev, c) ∈ cmds -> c ∈ commands_for ev cmds.
Proof.
  intros H. unfold commands_for. apply list_elem_of_In.
  apply (in_map snd _ (ev, c)). apply list_elem_of_In.
  apply list_elem_of_filter. split; [reflexivity | exact H].
Qed.

Lemma for_each_inv {A} (f : A -> M unit) x l (w w1 : World) :
  for_each f (x :: l) w = (inr tt, w1) ->
  exists w', f x w = (inr tt, w') /\ for_each f l w' = (inr tt, w1).
Proof.
  simpl. intros H. apply bind_inv in H as ([] & w' & Hx & Hl). eauto.
Qed.

(** If the callables of an event all returned and [_start_plot] of a
    plotter was among them, that plotter satisfies the invariant. *)
Lemma start_establishes self (cs : list (Command Image)) (w w1 : World) :
  for_each run_command cs w = (inr tt, w1) ->
  cb_start_plot self ∈ cs ->
  plotter_ok self w1.
Proof.
  revert w. induction cs as [|c cs IH]; intros w H Hin.
  - inversion Hin.
  - apply for_each_inv in H as (w' & Hc & Hrest).
    apply elem_of_cons in Hin as [<-|Hin].
    + refine (preserves_run _ _ w' _ _
                (preserves_for_each _ _ cs (run_command_ok self)) _ Hrest).
      simpl in Hc. destruct (plotters w !! self) as [x|] eqn:Hq.
      * rewrite (start_plot_run _ _ _ Hq) in Hc. inversion Hc; subst w'.
        exists (mk_plotter [] []). split; [| apply markers_ok_empty].
        simpl. apply list_lookup_insert_eq. now apply lookup_lt_Some in Hq.
      * rewrite (start_plot_missing _ _ Hq) in Hc. discriminate.
    + eapply IH; eassumption.
Qed.

Lemma fire_inv r ev s (w w1 : World) e :
  engines w !! r = Some e ->
  fire r (ev, s) w = (inr tt, w1) ->
  for_each run_command (commands_for ev (commands e)) (show r s w) = (inr tt, w1).
Proof.
  intros He H. unfold fire in H.
  apply bind_inv in H as ([] & w' & Hs & H).
  unfold modify in Hs. inversion Hs; subst w'. simpl in H.
  rewrite (bind_run _ _ _ _ _ (get_engine_run _ _ _ (show_engine r s w e He))) in H.
  exact H.
Qed.

(** C6.  On a plotter that is there, [_start_plot] empties the metric
    history and the marker list, and [_update_multiresolution_iterations]
    appends the length of the history to the markers.  Hence, once the
    start event of an engine to which the plotter's [_start_plot] is
    attached has been handled, then after every further sequence of
    events, in any order and whether or not a handler raises on the way,
    each marker is at most the length of the history and the markers are
    in non-decreasing order. *)
Theorem plotter_markers_invariant
    (w : World) (self r : nat) (p0 : RegistrationPlotter) (e : Engine)
    (s0 : Snapshot Transform) (w1 : World) :
  plotters w !! self = Some p0 ->
  engines w !! r = Some e ->
  (sitkStartEvent, cb_start_plot self) ∈ commands e ->
  fire r (sitkStartEvent, s0) w = (inr tt, w1) ->
  (exists wa, _start_plot self w = (inr tt, wa)
              /\ plotters wa !! self = Some (mk_plotter [] []))
  /\ (exists wb, _update_multiresolution_iterations self w = (inr tt, wb)
                 /\ plotters wb !! self
                    = Some (mk_plotter (metric_values p0)
                              (multires_iterations p0 ++ [length (metric_values p0)])))
  /\ (forall trace : list (Event * Snapshot Transform),
        exists p, plotters (for_each (fire r) trace w1).2 !! self = Some p
                  /\ Forall (fun m => m <= length (metric_values p))%nat
                       (multires_iterations p)
                  /\ Sorted le (multires_iterations p)).
Proof.
  intros Hp He Hin Hfire. pose proof (lookup_lt_Some _ _ _ Hp) as Hlt.
  split; [| split].
  - eexists. split; [apply (start_plot_run _ _ _ Hp) |].
    simpl. now apply list_lookup_insert_eq.
  - eexists. split; [apply (update_multiresolution_iterations_run _ _ _ Hp) |].
    simpl. now apply list_lookup_insert_eq.
  - intros trace.
    assert (Hok : plotter_ok self w1).
    { eapply start_establishes.
      - apply (fire_inv _ _ _ _ _ _ He Hfire).
      - now apply commands_for_elem. }
    destruct (preserves_for_each _ _ trace (fire_ok self r) w1 Hok)
      as (p & Hq & Hb & Hs).
    exists p. auto.
Qed.

(** *** What [_save_plot] writes *)

Ltac quiet_modify :=
  apply preserves_modify; intros ? (? & ? & ?); repeat split; simpl; assumption.

Ltac quiet_step H HQ :=
  cbv beta zeta in H;
  let a := fresh "a" in
  let w' := fresh "w" in
  let Ha := fresh "Ha" in
  let HQ' := fresh "HQ" in
  apply bind_inv in H as (a & w' & Ha & H);
  assert (HQ' : quiet _ w')
    by (refine (preserves_run _ _ _ _ _ _ HQ Ha); unfold_code; preserve; quiet_modify);
  clear HQ; rename HQ' into HQ.

Lemma get_plotter_inv (w : World) q x w1 :
  get_plotter q w = (inr x, w1) -> w1 = w /\ plotters w !! q = Some x.
Proof.
  unfold get_plotter, get, lift_opt, mbind, M_bind.
  destruct (plotters w !! q); simpl; intros H; inversion H; auto.
Qed.

Lemma plt_draw_run (d : Draw) (w : World) :
  plt_draw d w
  = (inr tt, set_figures (fun fs => (hd [] fs ++ [d]) :: tail fs) w).
Proof.
  unfold plt_draw, gcf, get, modify, mbind, M_bind, mret, M_ret.
  destruct w as [im pa en pl tr fg fl so]. destruct fg; reflexivity.
Qed.

Lemma gcf_run_cons (w : World) f fs :
  figures w = f :: fs -> gcf w = (inr f, w).
Proof.
  intros H. unfold gcf, get, mbind, M_bind, mret, M_ret. now rewrite H.
Qed.

Lemma get_plotter_run (w : World) q x :
  plotters w !! q = Some x -> get_plotter q w = (inr x, w).
Proof.
  intros H. unfold get_plotter, get, lift_opt, mbind, M_bind. now rewrite H.
Qed.

Lemma list_comprehension_lookup_inv {A} (l : list A) (idx : list nat) e
    (w w1 : World) ys :
  list_comprehension (fun i => lift_opt (l !! i) e) idx w = (inr ys, w1) ->
  w1 = w /\ Forall2 (fun i y => l !! i = Some y) idx ys.
Proof.
  revert ys. induction idx as [|i idx IH]; intros ys H; simpl in H.
  - inversion H; subst. split; [reflexivity | constructor].
  - destruct (l !! i) as [y|] eqn:Hy.
    + simpl lift_opt in H. erewrite bind_run in H; [| reflexivity].
      apply bind_inv in H as (ys' & w' & Hys & H).
      inversion H; subst. destruct (IH _ Hys) as [-> Hall].
      split; [reflexivity | now constructor].
    + erewrite bind_fail in H; [discriminate | reflexivity].
Qed.

(** What [_write_combined_image] has done when it returns. *)
Lemma write_combined_image_inv self image1 image2 file_name (w w1 : World) :
  _write_combined_image self image1 image2 file_name w = (inr tt, w1) ->
  exists img,
    side_by_side image1 image2 img
    /\ w1 = set_files (fun fl => fl ++ [(file_name, ImageFile img)]) w.
Proof.
  unfold _write_combined_image, side_by_side. intros H.
  destruct (GetHeight image1 >? GetHeight image2)%Z; cbv beta iota zeta in H.
  - match type of H with
    | (lift_runtime ?P1 ≫= _) _ = _ => destruct P1 as [msg|c1] eqn:HP1
    end.
    { erewrite bind_fail in H; [discriminate | reflexivity]. }
    erewrite bind_run in H; [| reflexivity].
    match type of H with
    | (lift_runtime ?P2 ≫= _) _ = _ => destruct P2 as [msg|c2] eqn:HP2
    end.
    { erewrite bind_fail in H; [discriminate | reflexivity]. }
    erewrite bind_run in H; [| reflexivity].
    unfold WriteImage, modify in H. inversion H; subst w1.
    exists c2. split; [| reflexivity].
    eexists _, _, c1. split; [split; reflexivity |].
    split; [exact HP1 | exact HP2].
  - match type of H with
    | (lift_runtime ?P1 ≫= _) _ = _ => destruct P1 as [msg|c1] eqn:HP1
    end.
    { erewrite bind_fail in H; [discriminate | reflexivity]. }
    erewrite bind_run in H; [| reflexivity].
    match type of H with
    | (lift_runtime ?P2 ≫= _) _ = _ => destruct P2 as [msg|c2] eqn:HP2
    end.
    { erewrite bind_fail in H; [discriminate | reflexivity]. }
    erewrite bind_run in H; [| reflexivity].
    unfold WriteImage, modify in H. inversion H; subst w1.
    exists c2. split; [| reflexivity].
    eexists _, _, c1. split; [split; reflexivity |].
    split; [exact HP1 | exact HP2].
Qed.

(** One call of [_save_plot] that returns: the metric value the engine
    shows is appended to the history; the history is drawn on the
    current figure, with the markers; and one file is written, named by
    the prefix, the new length of the history as [format(_, '03d')] and
    [.png], holding the blended central slices with the figure to their
    right. *)
Lemma save_plot_inv self r e fixed moving t prefix (w w3 : World) p :
  plotters w !! self = Some p ->
  engines w !! r = Some e ->
  _save_plot self r fixed moving t prefix w = (inr tt, w3) ->
  let p' := mk_plotter (metric_values p ++ [metric_value e]) (multires_iterations p) in
  exists ys T slices img,
    Forall2 (fun i y => metric_values p' !! i = Some y) (multires_iterations p) ys
    /\ transforms w !! t = Some T
    /\ blended_slices fixed moving T slices
    /\ side_by_side slices
         (canvas_image (hd [] (figures w) ++ iteration_draws p' ys)) img
    /\ w3 = plot_saved self p (metric_value e) ys prefix img w.
Proof.
  intros Hp He H p'. pose proof (lookup_lt_Some _ _ _ Hp) as Hlt.
  unfold _save_plot, GetMetricValue in H.
  rewrite (bind_run _ _ _ _ _ (bind_run _ _ _ _ _ (get_engine_run _ _ _ He))) in H.
  cbv beta in H.
  rewrite (bind_run _ _ _ _ _ (update_plotter_run _ _ _ _ Hp)) in H.
  fold p' in H.
  erewrite bind_run in H;
    [| apply get_plotter_run; simpl; apply list_lookup_insert_eq; exact Hlt].
  rewrite (bind_run _ _ _ _ _ (plt_draw_run _ _)) in H.
  apply bind_inv in H as (ys & w' & Hys & H).
  apply list_comprehension_lookup_inv in Hys as [-> Hall].
  rewrite (bind_run _ _ _ _ _ (plt_draw_run _ _)) in H.
  rewrite (bind_run _ _ _ _ _ (plt_draw_run _ _)) in H.
  rewrite (bind_run _ _ _ _ _ (plt_draw_run _ _)) in H.
  erewrite bind_run in H; [| eapply gcf_run_cons; reflexivity].
  cbv zeta in H.
  destruct (GetSize fixed !! 2%nat) as [z|] eqn:Hz;
    [| erewrite bind_fail in H; [discriminate | reflexivity]].
  simpl lift_opt in H. erewrite bind_run in H; [| reflexivity].
  apply bind_inv in H as (T & w' & HT & H).
  apply get_transform_inv in HT as [-> HT]. simpl in HT.
  destruct (getitem_z fixed (round_half z)) as [fs|] eqn:Hfs;
    [| erewrite bind_fail in H; [discriminate | reflexivity]].
  simpl lift_opt in H. erewrite bind_run in H; [| reflexivity].
  destruct (getitem_z (Resample moving fixed T sitkLinear 0%Q (GetPixelIDValue moving))
              (round_half z)) as [ms|] eqn:Hms;
    [| erewrite bind_fail in H; [discriminate | reflexivity]].
  simpl lift_opt in H. erewrite bind_run in H; [| reflexivity].
  destruct (image_add (scalar_mul (1 - 0.7)%Q fs) (scalar_mul 0.7%Q ms))
    as [msg|combined] eqn:Hadd;
    [erewrite bind_fail in H; [discriminate | reflexivity] |].
  simpl lift_runtime in H. erewrite bind_run in H; [| reflexivity].
  cbv zeta in H.
  erewrite bind_run in H;
    [| apply get_plotter_run; simpl; apply list_lookup_insert_eq; exact Hlt].
  apply write_combined_image_inv in H as (img & Hside & ->).
  exists ys, T. eexists. exists img.
  split; [exact Hall |]. split; [exact HT |].
  split; [exists z, fs, ms, combined; repeat split; try assumption; reflexivity |].
  split.
  { simpl in Hside. unfold iteration_draws. rewrite <- !app_assoc in Hside.
    exact Hside. }
  unfold plot_saved, plot_file_name. fold p'. unfold set_files, set_figures, set_plotters.
  simpl. unfold iteration_draws. rewrite <- !app_assoc. simpl.
  subst p'. simpl. rewrite length_app. simpl.
  now replace (length (metric_values p) + 1)%nat
    with (S (length (metric_values p))) by lia.
Qed.

Lemma save_plot_writes self r e fixed moving t prefix (w w3 : World) p :
  plotters w !! self = Some p ->
  engines w !! r = Some e ->
  _save_plot self r fixed moving t prefix w = (inr tt, w3) ->
  plotters w3
  = <[self := mk_plotter (metric_values p ++ [metric_value e]) (multires_iterations p)]>
      (plotters w)
  /\ engines w3 = engines w
  /\ exists img,
       files w3
       = files w ++ [(prefix +:+ format_03d (S (length (metric_values p))) +:+ ".png",
                      ImageFile img)].
Proof.
  intros Hp He H.
  destruct (save_plot_inv _ _ _ _ _ _ _ _ _ _ Hp He H)
    as (ys & T & slices & img & _ & _ & _ & _ & ->).
  split; [reflexivity |]. split; [reflexivity |]. exists img. reflexivity.
Qed.

(** *** One plotter among the observers of an engine *)

Lemma other_command_keeps self p es (c : Command Image) :
  command_self c <> self ->
  preserves (plotter_is self p es) (run_command c).
Proof.
  intros Hne. destruct c; simpl in Hne; unfold_code; preserve;
    apply preserves_modify; intros ? [? ?]; split; simpl;
    rewrite ?list_lookup_insert_ne by exact Hne; assumption.
Qed.

Lemma for_each_app {A} (f : A -> M unit) l1 l2 (w w2 : World) :
  for_each f (l1 ++ l2) w = (inr tt, w2) ->
  exists w1, for_each f l1 w = (inr tt, w1) /\ for_each f l2 w1 = (inr tt, w2).
Proof.
  revert w. induction l1 as [|x l1 IH]; intros w H.
  - exists w. split; [reflexivity | exact H].
  - change ((x :: l1) ++ l2) with (x :: (l1 ++ l2)) in H.
    apply for_each_inv in H as (w' & Hx & H).
    apply IH in H as (w1 & H1 & H2). exists w1. split; [| exact H2].
    simpl. now rewrite (bind_run _ _ _ _ _ Hx).
Qed.

Lemma commands_for_app ev (l1 l2 : list (Event * Command Image)) :
  commands_for ev (l1 ++ l2) = commands_for ev l1 ++ commands_for ev l2.
Proof. unfold commands_for. now rewrite filter_app, map_app. Qed.

Lemma commands_for_others ev self (old : list (Event * Command Image)) :
  Forall (fun x => command_self x.2 <> self) old ->
  Forall (fun c => command_self c <> self) (commands_for ev old).
Proof.
  intros H. unfold commands_for. induction H as [|x old Hx _ IH]; simpl.
  - constructor.
  - rewrite filter_cons. destruct (decide (x.1 = ev)); simpl; [constructor |]; assumption.
Qed.

Lemma others_keep self p es (cs : list (Command Image)) (w w1 : World) :
  Forall (fun c => command_self c <> self) cs ->
  plotter_is self p es w ->
  for_each run_command cs w = (inr tt, w1) ->
  plotter_is self p es w1.
Proof.
  intros Hcs. revert w. induction Hcs as [|c cs Hc _ IH]; intros w Hw H.
  - inversion H; subst. exact Hw.
  - apply for_each_inv in H as (w' & Hx & H).
    apply (IH w'); [| exact H].
    exact (preserves_run _ _ _ _ _ (other_command_keeps self p es c Hc) Hw Hx).
Qed.

(** An event delivered by the engine moves the plotter by
    [plotter_step], whatever other plotters are attached before it. *)
Lemma fire_steps_plotter self r fixed moving t path
    (old : list (Event * Command Image)) (e : Engine) p x (w w1 : World) :
  engines w !! r = Some e ->
  commands e = old ++ plotter_commands self r fixed moving t path ->
  Forall (fun x => command_self x.2 <> self) old ->
  plotters w !! self = Some p ->
  fire r x w = (inr tt, w1) ->
  plotters w1 !! self = Some (plotter_step p x)
  /\ exists e1, engines w1 !! r = Some e1 /\ commands e1 = commands e.
Proof.
  intros He Hcmds Hold Hp H. destruct x as [ev s].
  pose proof (lookup_lt_Some _ _ _ Hp) as Hlt.
  apply (fire_inv _ _ _ _ _ _ He) in H.
  rewrite Hcmds, commands_for_app in H.
  apply for_each_app in H as (wm & Hothers & Hself).
  assert (Hm : plotter_is self p (engines (show r s w)) wm).
  { eapply others_keep; [apply commands_for_others; exact Hold | | exact Hothers].
    split; [now rewrite show_plotters | reflexivity]. }
  destruct Hm as [Hpm Hem].
  pose proof (show_engine r s w e He) as Hes. rewrite <- Hem in Hes.
  assert (Hkeep : forall w' : World, engines w' = engines wm ->
            exists e1, engines w' !! r = Some e1 /\ commands e1 = commands e).
  { intros w' ->. eexists. split; [exact Hes | reflexivity]. }
  unfold plotter_step. destruct ev; simpl in Hself;
    unfold commands_for in Hself; simpl in Hself;
    apply bind_inv in Hself as ([] & w' & Hc & Hret);
    inversion Hret; subst w'; clear Hret.
  - rewrite (start_plot_run _ _ _ Hpm) in Hc. inversion Hc; subst w1. simpl.
    split; [apply list_lookup_insert_eq; now apply lookup_lt_Some in Hpm |].
    now apply Hkeep.
  - unfold _end_plot, plt_close, modify in Hc. inversion Hc; subst w1. simpl.
    split; [exact Hpm | now apply Hkeep].
  - rewrite (update_multiresolution_iterations_run _ _ _ Hpm) in Hc.
    inversion Hc; subst w1. simpl.
    split; [apply list_lookup_insert_eq; now apply lookup_lt_Some in Hpm |].
    now apply Hkeep.
  - destruct (save_plot_writes _ _ _ _ _ _ _ _ _ _ Hpm Hes Hc) as (Hpl & Hen & _).
    split; [| now apply Hkeep].
    rewrite Hpl. simpl. apply list_lookup_insert_eq. now apply lookup_lt_Some in Hpm.
Qed.

Lemma trace_steps_plotter self r fixed moving t path
    (old : list (Event * Command Image)) (e : Engine) p
    (trace : list (Event * Snapshot Transform)) (w w1 : World) :
  engines w !! r = Some e ->
  commands e = old ++ plotter_commands self r fixed moving t path ->
  Forall (fun x => command_self x.2 <> self) old ->
  plotters w !! self = Some p ->
  for_each (fire r) trace w = (inr tt, w1) ->
  plotters w1 !! self = Some (foldl plotter_step p trace)
  /\ exists e1, engines w1 !! r = Some e1 /\ commands e1 = commands e.
Proof.
  intros He Hcmds Hold. revert e p w He Hcmds.
  induction trace as [|x trace IH]; intros e p w He Hcmds Hp H.
  - inversion H; subst. eauto.
  - apply for_each_inv in H as (w' & Hx & H).
    destruct (fire_steps_plotter _ _ _ _ _ _ _ _ _ _ _ _ He Hcmds Hold Hp Hx)
      as (Hp' & e1 & He1 & Hc1).
    simpl. rewrite <- Hc1. apply (IH e1 _ w'); try assumption. now rewrite Hc1.
Qed.

Lemma history_length p (trace : list (Event * Snapshot Transform)) :
  Forall (fun x => x.1 <> sitkStartEvent) trace ->
  length (metric_values (foldl plotter_step p trace))
  = (length (metric_values p) + iterations trace)%nat.
Proof.
  intros Hns. revert p. induction Hns as [|x trace Hx _ IH]; intros p.
  - unfold iterations. simpl. lia.
  - simpl. rewrite IH. unfold iterations. rewrite filter_cons.
    unfold plotter_step. destruct x as [ev s]. simpl in *.
    destruct ev; simpl; try contradiction; rewrite ?length_app; simpl; lia.
Qed.

(** When the engine raises an event, the callables of the plotters
    attached earlier run first; then those of [self] run, on a plotter
    that is still [p] and an engine that shows the snapshot. *)
Lemma fire_reaches_plotter self r fixed moving t path
    (old : list (Event * Command Image)) (e : Engine) p ev s (w w1 : World) :
  engines w !! r = Some e ->
  commands e = old ++ plotter_commands self r fixed moving t path ->
  Forall (fun x => command_self x.2 <> self) old ->
  plotters w !! self = Some p ->
  fire r (ev, s) w = (inr tt, w1) ->
  exists wm e1,
    plotters wm !! self = Some p
    /\ engines wm !! r = Some e1
    /\ metric_value e1 = sn_metric_value s
    /\ for_each run_command
         (commands_for ev (plotter_commands self r fixed moving t path)) wm
       = (inr tt, w1).
Proof.
  intros He Hcmds Hold Hp H.
  apply (fire_inv _ _ _ _ _ _ He) in H.
  rewrite Hcmds, commands_for_app in H.
  apply for_each_app in H as (wm & Hothers & Hself).
  assert (Hm : plotter_is self p (engines (show r s w)) wm).
  { eapply others_keep; [apply commands_for_others; exact Hold | | exact Hothers].
    split; [now rewrite show_plotters | reflexivity]. }
  destruct Hm as [Hpm Hem].
  pose proof (show_engine r s w e He) as Hes. rewrite <- Hem in Hes.
  eexists wm, _. repeat split; [exact Hpm | exact Hes | reflexivity | exact Hself].
Qed.

(** The file an iteration event makes the plotter write is the last one
    written when the event has been handled. *)
Lemma fire_iteration_writes self r fixed moving t path
    (old : list (Event * Command Image)) (e : Engine) p s (w w1 : World) :
  engines w !! r = Some e ->
  commands e = old ++ plotter_commands self r fixed moving t path ->
  Forall (fun x => command_self x.2 <> self) old ->
  plotters w !! self = Some p ->
  fire r (sitkIterationEvent, s) w = (inr tt, w1) ->
  let p' := mk_plotter (metric_values p ++ [sn_metric_value s]) (multires_iterations p) in
  exists T slices pre ys img,
    last (files w1)
    = Some (path +:+ format_03d (S (length (metric_values p))) +:+ ".png",
            ImageFile img)
    /\ blended_slices fixed moving T slices
    /\ side_by_side slices (canvas_image (pre ++ iteration_draws p' ys)) img
    /\ Forall2 (fun i y => metric_values p' !! i = Some y) (multires_iterations p) ys
    /\ transforms w1 !! t = Some T
    /\ plotters w1 !! self = Some p'.
Proof.
  intros He Hcmds Hold Hp H p'.
  destruct (fire_reaches_plotter _ _ _ _ _ _ _ _ _ _ _ _ _ He Hcmds Hold Hp H)
    as (wm & e1 & Hpm & Hem & Hv & Hself).
  unfold commands_for in Hself. simpl in Hself.
  apply bind_inv in Hself as ([] & w' & Hc & Hret).
  inversion Hret; subst w'; clear Hret.
  destruct (save_plot_inv _ _ _ _ _ _ _ _ _ _ Hpm Hem Hc)
    as (ys & T & slices & img & Hall & HT & Hbl & Hside & ->).
  rewrite Hv in Hall, Hside. fold p' in Hall, Hside.
  exists T, slices, (hd [] (figures wm)), ys, img.
  split; [unfold plot_saved, plot_file_name; simpl; apply last_snoc |].
  split; [exact Hbl |]. split; [exact Hside |]. split; [exact Hall |].
  split; [exact HT |].
  unfold plot_saved. simpl. rewrite Hv. fold p'.
  apply list_lookup_insert_eq. now apply lookup_lt_Some in Hpm.
Qed.

Lemma format_03d_three_digits (n : nat) :
  (n < 1000)%nat -> String.length (format_03d n) = 3%nat.
Proof.
  intros Hn.
  assert (Hall : forallb (fun k => String.length (format_03d k) =? 3)%nat (seq 0 1000) = true)
    by (vm_compute; reflexivity).
  rewrite forallb_forall in Hall.
  apply Nat.eqb_eq, Hall, in_seq. lia.
Qed.

(** C7, as the code has it.  A plotter attached to an engine by
    [RegistrationPlotter.__init__] (after whatever plotters were attached
    before), the start event handled, then any events but a start,
    [k - 1] of them iteration events: the metric history has [k - 1]
    entries, and when the next iteration event has been handled the
    plotter has written its composite image, and written it last, to the
    plot directory path followed by [k] as [format(k, '03d')] and
    [.png].  The image is the blended central slices of the two volumes
    with, to their right, the figure on which the metric history, now
    [k] values ending in the one the engine shows, has just been drawn
    with its markers.  The digits denote [k], zero-padded to three: three
    digits exactly up to [k = 999], the first file being 001, and from
    the 1000th iteration event on the plain decimal of [k], which is
    longer. *)
Theorem iteration_plot_file_name
    self r fixed moving t path (old : list (Event * Command Image)) (e : Engine)
    (p0 : RegistrationPlotter) (s0 : Snapshot Transform)
    (trace : list (Event * Snapshot Transform)) (w w1 w2 : World) :
  engines w !! r = Some e ->
  commands e = old ++ plotter_commands self r fixed moving t path ->
  Forall (fun x => command_self x.2 <> self) old ->
  plotters w !! self = Some p0 ->
  fire r (sitkStartEvent, s0) w = (inr tt, w1) ->
  Forall (fun x => x.1 <> sitkStartEvent) trace ->
  for_each (fire r) trace w1 = (inr tt, w2) ->
  let k := S (iterations trace) in
  (exists p, plotters w2 !! self = Some p
             /\ length (metric_values p) = iterations trace)
  /\ (forall s w3,
        fire r (sitkIterationEvent, s) w2 = (inr tt, w3) ->
        exists T slices pre p' ys img,
          last (files w3) = Some (path +:+ format_03d k +:+ ".png", ImageFile img)
          /\ blended_slices fixed moving T slices
          /\ side_by_side slices (canvas_image (pre ++ iteration_draws p' ys)) img
          /\ transforms w3 !! t = Some T
          /\ plotters w3 !! self = Some p'
          /\ length (metric_values p') = k
          /\ last (metric_values p') = Some (sn_metric_value s)
          /\ Forall2 (fun i y => metric_values p' !! i = Some y)
               (multires_iterations p') ys)
  /\ int_of_digits (format_03d k) = Some k
  /\ ((k < 1000)%nat -> String.length (format_03d k) = 3%nat)
  /\ ((1000 <= k)%nat ->
      format_03d k = str_nat k /\ (4 <= String.length (format_03d k))%nat)
  /\ format_03d 1 = "001".
Proof.
  intros He Hcmds Hold Hp Hstart Hns Htrace k.
  destruct (trace_steps_plotter _ _ _ _ _ _ _ _ _
              ((sitkStartEvent, s0) :: trace) w w2 He Hcmds Hold Hp)
    as (Hfold & e2 & He2 & Hc2).
  { simpl. now rewrite (bind_run _ _ _ _ _ Hstart). }
  simpl in Hfold.
  change (plotter_step p0 (sitkStartEvent, s0)) with (mk_plotter [] []) in Hfold.
  pose proof (history_length (mk_plotter [] []) trace Hns) as Hlen. simpl in Hlen.
  rewrite Hcmds in Hc2.
  split; [| split; [| split; [| split; [| split]]]].
  - eexists. split; [exact Hfold | exact Hlen].
  - intros s w3 Hfire.
    destruct (fire_iteration_writes _ _ _ _ _ _ _ _ _ _ _ _ He2 Hc2 Hold Hfold Hfire)
      as (T & slices & pre & ys & img & Hlast & Hbl & Hside & Hall & HT & Hp').
    rewrite Hlen in Hlast.
    eexists T, slices, pre, _, ys, img.
    split; [exact Hlast |]. split; [exact Hbl |]. split; [exact Hside |].
    split; [exact HT |]. split; [exact Hp' |]. simpl.
    split; [rewrite length_app, Hlen; simpl; subst k; lia |].
    split; [apply last_snoc | exact Hall].
  - apply int_of_format_03d.
  - apply format_03d_three_digits.
  - apply format_03d_long.
  - reflexivity.
Qed.

End Plotter.

(** ** The plotting helpers *)

Section Plotting.
Context {Image Transform : Type} `{!SimpleITK Image Transform}.
Local Abbreviation preserves := (preserves (Image := Image) (Transform := Transform)).
Local Abbreviation M := (M Image Transform).
Local Abbreviation World := (World Image Transform).

(** C8.  If the three arrays are not all of one shape, or the image is
    not 2-dimensional, [plot_2d_segmentation] raises ValueError and
    nothing has happened: no file was written, no figure opened, no mask
    computed. *)
Theorem plot_2d_segmentation_rejects
    (path : string) (image : ndarray Q) (ground_truth segmentation : ndarray Z)
    (alpha : Q) (label : Z) (w : World) :
  ~ (shape image = shape ground_truth /\ shape ground_truth = shape segmentation)
  \/ ndim image <> 2%nat ->
  exists msg,
    plot_2d_segmentation path image ground_truth segmentation alpha label w
    = (inl (ValueError msg), w).
Proof.
  intros H. unfold plot_2d_segmentation.
  destruct (bool_decide (shape image = shape ground_truth)
            && bool_decide (shape ground_truth = shape segmentation)) eqn:Hs.
  - apply andb_true_iff in Hs as [H1 H2].
    apply bool_decide_eq_true in H1, H2.
    destruct H as [H|H]; [tauto |].
    apply Nat.eqb_neq in H. rewrite H. simpl. eauto.
  - simpl. eauto.
Qed.

(** *** The overlay, element by element *)

Lemma lookup_map {A B} (f : A -> B) (l : list A) (i : nat) :
  map f l !! i = f <$> (l !! i).
Proof.
  revert i. induction l as [|x l IH]; intros [|i]; simpl; try reflexivity.
  apply IH.
Qed.

Lemma np_bitwise_and_same (a b : ndarray bool) :
  shape a = shape b ->
  np_bitwise_and a b = inr (mk_ndarray (shape a) (zip_with andb (data a) (data b))).
Proof. intros H. unfold np_bitwise_and. now rewrite decide_True. Qed.

Lemma np_setitem_bool_same (m : ndarray Z) (b : ndarray bool) (v : Z) :
  shape b = shape m ->
  np_setitem_bool m b v
  = inr (mk_ndarray (shape m)
           (zip_with (fun (c : bool) x => if c then v else x) (data b) (data m))).
Proof. intros H. unfold np_setitem_bool. now rewrite decide_True. Qed.

Ltac np_step :=
  (erewrite bind_run; [| reflexivity]); cbv beta;
  rewrite np_setitem_bool_same by (simpl; congruence);
  (erewrite bind_run; [| reflexivity]); cbv beta.

Lemma segmentation_overlay_run (ground_truth segmentation : ndarray Z) (label : Z)
    (w : World) :
  shape ground_truth = shape segmentation ->
  exists masked,
    segmentation_overlay ground_truth segmentation label w = (inr masked, w)
    /\ shape (ma_data masked) = shape ground_truth
    /\ shape (ma_mask masked) = shape ground_truth
    /\ (ndarray_wf ground_truth -> ndarray_wf segmentation ->
        ndarray_wf (ma_data masked))
    /\ (ndarray_wf ground_truth -> ndarray_wf segmentation ->
        forall i g s,
          data ground_truth !! i = Some g ->
          data segmentation !! i = Some s ->
          data (ma_data masked) !! i = Some (overlay_value label g s)
          /\ data (ma_mask masked) !! i
             = Some (overlay_value label g s =? 0)%Z).
Proof.
  intros Hsh. unfold segmentation_overlay. cbv zeta.
  rewrite !np_bitwise_and_same by (simpl; congruence).
  do 3 np_step.
  eexists. split; [reflexivity |]. cbn [masked_where ma_data ma_mask shape data np_eq].
  split; [reflexivity |]. split; [reflexivity |].
  split.
  { intros Hwg Hws. unfold ndarray_wf in *. cbn [shape data np_zeros np_eq np_ne].
    rewrite <- Hsh in Hws.
    rewrite !length_zip_with, !length_map, length_replicate. lia. }
  intros Hwg Hws i g s Hg Hs.
  assert (Hz : replicate (foldr Nat.mul 1%nat (shape ground_truth)) 0%Z !! i = Some 0%Z).
  { apply lookup_replicate. split; [reflexivity |].
    unfold ndarray_wf in Hwg. rewrite <- Hwg. now apply lookup_lt_Some in Hg. }
  cbn [np_zeros np_ne data shape].
  rewrite lookup_map.
  rewrite !lookup_zip_with, !lookup_map, Hg, Hs, Hz. simpl.
  split; reflexivity.
Qed.

Lemma overlay_value_cases (label g s : Z) :
  let v := overlay_value label g s in
  (v = 1%Z <-> g = label /\ s <> label)
  /\ (v = 2%Z <-> g = label /\ s = label)
  /\ (v = 3%Z <-> g <> label /\ s = label)
  /\ (v = 0%Z <-> g <> label /\ s <> label)
  /\ (v = 0 \/ v = 1 \/ v = 2 \/ v = 3)%Z.
Proof.
  unfold overlay_value.
  destruct (Z.eqb_spec g label), (Z.eqb_spec s label); simpl;
    repeat split; intros; try tauto; try lia; try (exfalso; intuition lia).
Qed.

(** C9.  On arrays of one 2-dimensional shape, [plot_2d_segmentation]
    saves the image with an overlay drawn in the colour map (red, green,
    blue), and at every position the overlay is: 1, the first colour,
    where the ground truth is the label and the segmentation is not
    (under-segmentation); 2, the second, where both are (correct); 3,
    the third, where the segmentation is the label and the ground truth
    is not (over-segmentation); and 0, which is masked out, where neither
    is.  Exactly one of the four holds at each position. *)
Theorem plot_2d_segmentation_overlay_classes
    (path : string) (image : ndarray Q) (ground_truth segmentation : ndarray Z)
    (alpha : Q) (label : Z) (w : World) :
  shape image = shape ground_truth ->
  shape ground_truth = shape segmentation ->
  ndim image = 2%nat ->
  ndarray_wf ground_truth ->
  ndarray_wf segmentation ->
  exists masked w',
    plot_2d_segmentation path image ground_truth segmentation alpha label w
    = (inr tt, w')
    /\ files w'
       = files w ++ [(path,
                      FigureFile [add_axes (segmentation_axes image masked alpha)]
                        (Some (segmentation_axes image masked alpha)))]
    /\ shape (ma_data masked) = shape ground_truth
    /\ ndarray_wf (ma_data masked)
    /\ forall i g s,
         data ground_truth !! i = Some g ->
         data segmentation !! i = Some s ->
         exists v m,
           data (ma_data masked) !! i = Some v
           /\ data (ma_mask masked) !! i = Some m
           /\ (v = 1%Z <-> g = label /\ s <> label)
           /\ (v = 2%Z <-> g = label /\ s = label)
           /\ (v = 3%Z <-> g <> label /\ s = label)
           /\ (v = 0%Z <-> g <> label /\ s <> label)
           /\ (v = 0 \/ v = 1 \/ v = 2 \/ v = 3)%Z
           /\ (m = true <-> v = 0%Z).
Proof.
  intros H1 H2 Hd Hwg Hws.
  destruct (segmentation_overlay_run ground_truth segmentation label w H2)
    as (masked & Hrun & Hsd & _ & Hwf & Hval).
  exists masked. unfold plot_2d_segmentation.
  rewrite !bool_decide_eq_true_2 by assumption. rewrite Hd.
  change (negb (true && true)) with false. change (negb (2 =? 2)%nat) with false.
  cbv iota. rewrite (bind_run _ _ _ _ _ Hrun).
  eexists. split; [reflexivity |]. split; [reflexivity |]. split; [exact Hsd |].
  split; [exact (Hwf Hwg Hws) |].
  intros i g s Hg Hs.
  destruct (Hval Hwg Hws i g s Hg Hs) as [Hv Hm].
  destruct (overlay_value_cases label g s) as (C1 & C2 & C3 & C0 & Call).
  eexists _, _. split; [exact Hv |]. split; [exact Hm |].
  repeat split; try tauto; try apply Z.eqb_eq.
Qed.

(** *** Histograms *)

Lemma plot_histogram_tail path (d : ndarray Q) no_bins title_ xlabel_ ylabel_ (w : World) :
  (plt_hist (flatten d) no_bins None;;
   (if truthy title_ then plt_draw (title title_) else mret tt);;
   (if truthy xlabel_ then plt_draw (xlabel xlabel_ None) else mret tt);;
   (if truthy ylabel_ then plt_draw (ylabel ylabel_ None) else mret tt);;
   plt_savefig path None;;
   plt_close) w
  = histogram_outcome path d no_bins title_ xlabel_ ylabel_ w.
Proof.
  unfold histogram_outcome, histogram_saved, histogram_labels, figure_made, bins_error.
  destruct w as [im pa en pl tr fg fl so].
  destruct (no_bins <=? 0)%Z eqn:Hb;
    destruct fg as [|f fs]; destruct (truthy title_), (truthy xlabel_), (truthy ylabel_);
    unfold plt_hist, plt_draw, plt_savefig, plt_close, gcf, modify, get, raise, mbind,
      M_bind, mret, M_ret, set_figures, set_files; simpl; rewrite ?Hb; simpl;
    rewrite <- ?app_assoc; reflexivity.
Qed.



End Plotting.

(** * Further properties of the two modules *)

(** ** What the code can raise *)

Section Raising.
Context {Image Transform : Type} `{!SimpleITK Image Transform}.
Local Abbreviation raises_only := (raises_only (Image := Image) (Transform := Transform)).
Local Abbreviation M := (M Image Transform).
Local Abbreviation World := (World Image Transform).
Implicit Types E : Exn -> Prop.

Lemma raises_only_ret {A} E (a : A) : raises_only E (mret a : M A).
Proof. intros w e w' H. discriminate H. Qed.

Lemma raises_only_raise {A} E e : E e -> raises_only E (raise e : M A).
Proof. intros He w e' w' H. inversion H; subst. exact He. Qed.

Lemma raises_only_get E : raises_only E get.
Proof. intros w e w' H. discriminate H. Qed.

Lemma raises_only_modify E f : raises_only E (modify f).
Proof. intros w e w' H. discriminate H. Qed.

Lemma raises_only_bind {A B} E (m : M A) (k : A -> M B) :
  raises_only E m -> (forall a, raises_only E (k a)) -> raises_only E (m ≫= k).
Proof.
  intros Hm Hk w e w' H. unfold mbind, M_bind in H.
  destruct (m w) as [[e1|a] w1] eqn:Hmw.
  - inversion H; subst. eapply Hm; eassumption.
  - eapply Hk; eassumption.
Qed.

Lemma raises_only_lift_opt {A} E (o : option A) e :
  E e -> raises_only E (lift_opt o e).
Proof. intros He. destruct o; [apply raises_only_ret | now apply raises_only_raise]. Qed.

Lemma raises_only_lift_runtime {A} E (r : string + A) :
  (forall msg, E (RuntimeError msg)) -> raises_only E (lift_runtime r).
Proof.
  intros He. destruct r; [apply raises_only_raise, He | apply raises_only_ret].
Qed.

Lemma raises_only_for_each {A} E (f : A -> M unit) l :
  (forall x, raises_only E (f x)) -> raises_only E (for_each f l).
Proof.
  intros Hf. induction l as [|x l IH]; simpl.
  - apply raises_only_ret.
  - apply raises_only_bind; [apply Hf | intros _; exact IH].
Qed.

Lemma raises_only_list_comprehension {A B} E (f : A -> M B) l :
  (forall x, raises_only E (f x)) -> raises_only E (list_comprehension f l).
Proof.
  intros Hf. induction l as [|x l IH]; simpl.
  - apply raises_only_ret.
  - apply raises_only_bind; [apply Hf | intros y].
    apply raises_only_bind; [exact IH | intros ys; apply raises_only_ret].
Qed.

End Raising.

(** Splits a goal [raises_only E m] along the structure of [m]; what is
    left is [E] of each exception [m] can raise. *)
Ltac raising :=
  repeat first
    [ apply raises_only_ret
    | apply raises_only_get
    | apply raises_only_modify
    | apply raises_only_raise
    | apply raises_only_lift_opt
    | apply raises_only_lift_runtime; intros ?
    | apply raises_only_bind; [| intros ?]
    | apply raises_only_for_each; intros ?
    | apply raises_only_list_comprehension; intros ?
    | match goal with
      | |- raises_only _ (if ?b then _ else _) => destruct b
      | |- raises_only _ (match ?x with _ => _ end) => destruct x
      | |- raises_only _ (let '(_, _) := ?x in _) => destruct x
      end ].

(** ** The state [execute] leaves *)

Section Execute_state.
Context {Image Transform : Type} `{!SimpleITK Image Transform}.
Local Abbreviation preserves := (preserves (Image := Image) (Transform := Transform)).
Local Abbreviation M := (M Image Transform).
Local Abbreviation World := (World Image Transform).
Local Abbreviation Engine := (Engine Image).

Ltac unfold_code :=
  unfold execute, execute_registration, execute_report, Execute, fire,
    RegistrationPlotter_init, run_command, _save_plot, _write_combined_image,
    _start_plot, _end_plot, _update_multiresolution_iterations,
    SetInitialTransform, AddCommand, GetMetricValue, GetOptimizerIteration,
    GetOptimizerStopConditionDescription, attr_fixed_image,
    attr_plot_directory_path, WriteImage, plt_draw, plt_close, plt_savefig,
    plt_figure, gcf, print, new_transform, new_plotter, new_engine,
    update_plotter, update_engine, get_transform, get_plotter, get_engine,
    get_params, get_image.

(** The set-up of [execute] (lines 126 to 136) run forwards: what is left
    is the run of the engine, in a state that differs from the one
    [execute] was called in by the new transform, the engine's reference
    to it and, with a plot directory, the new plotter and its
    callables. *)
Lemma execute_registration_prepared self image p (w : World) px fimg mimg e :
  params_store w !! p = Some px ->
  images w !! fixed_image px = Some fimg ->
  images w !! image = Some mimg ->
  engines w !! registration self = Some e ->
  exists w5,
    execute_registration self image p w
    = (Execute (registration self) (Cast (Normalize fimg) sitkFloat32)
         (Cast (Normalize mimg) sitkFloat32)
       ≫= fun transform => mret (Normalize mimg, transform)) w5
    /\ engines w5
       = <[registration self :=
             mk_engine (settings e) (Some (length (transforms w)))
               (commands e
                ++ attached_commands (registration self) (Normalize fimg)
                     (Normalize mimg) (plot_directory_path px) (plotters w)
                     (transforms w))
               (metric_value e) (optimizer_iteration e) (stop_condition e)]>
           (engines w)
    /\ transforms w5
       = transforms w
         ++ [CenteredTransformInitializer (Cast fimg (GetPixelIDValue mimg)) mimg
               Euler3DTransform GEOMETRY]
    /\ plotters w5
       = plotters w ++ (if truthy (plot_directory_path px) then [mk_plotter [] []] else [])
    /\ files w5 = files w
    /\ figures w5 = figures w
    /\ stdout w5 = stdout w.
Proof.
  intros Hp Hi Hm He. pose proof (lookup_lt_Some _ _ _ He) as Hlt.
  unfold execute_registration.
  rewrite (bind_run _ _ _ _ _ (get_params_run w p px Hp)).
  rewrite (bind_run _ _ _ _ _ (get_image_run w image mimg Hm)).
  rewrite (bind_run _ _ _ _ _ (attr_fixed_image_run w p px fimg Hp Hi)).
  rewrite (bind_run _ _ _ _ _ (new_transform_run w _)).
  unfold SetInitialTransform.
  erewrite bind_run; [| apply update_engine_run; exact He].
  erewrite bind_run; [| apply (attr_fixed_image_run _ p px fimg); assumption].
  cbv beta zeta.
  erewrite bind_run; [| apply (get_image_run _ image mimg); assumption].
  cbv beta zeta.
  erewrite bind_run; [| apply (attr_plot_directory_path_run _ p px); assumption].
  unfold attached_commands.
  destruct (truthy (plot_directory_path px)).
  - erewrite bind_run;
      [| erewrite bind_run; [| apply (attr_plot_directory_path_run _ p px); assumption];
         erewrite bind_run;
         [reflexivity
         | apply RegistrationPlotter_init_run, lookup_set_engines_insert; exact Hlt]].
    eexists. split; [reflexivity |]. simpl.
    rewrite list_insert_insert_eq. unfold with_commands. simpl.
    repeat split; reflexivity.
  - erewrite bind_run; [| reflexivity].
    eexists. split; [reflexivity |]. simpl. rewrite !app_nil_r.
    repeat split; reflexivity.
Qed.






(** X4.  If [execute] raises, it has printed nothing: the plotters'
    callables and the engine print nothing, and the report comes only
    once the run has returned, after which nothing is raised. *)
Theorem execute_raising_prints_nothing
    self image params (w : World) err w' :
  execute self image params w = (inl err, w') ->
  stdout w' = stdout w.
Proof.
  intros H. destruct params as [p|]; [| inversion H; reflexivity].
  destruct (execute_registration self image p w) as [[e1|[img t]] w1] eqn:Hreg.
  - unfold execute in H. rewrite (bind_fail _ _ _ _ _ Hreg) in H.
    inversion H; subst.
    assert (Hq : preserves (fun w0 : World => stdout w0 = stdout w)
                   (execute_registration self image p)).
    { unfold execute_registration, Execute, fire, get_engine, get_transform.
      preserve;
        try (apply preserves_for_each; intros c; destruct c);
        unfold_code; preserve;
        apply preserves_modify; intros w0 Hw0; unfold show;
        repeat case_match; simpl; assumption. }
    exact (preserves_run _ _ _ _ _ Hq eq_refl Hreg).
  - destruct (execute_after_registration _ _ _ _ _ _ _ Hreg)
      as (e & px & fimg & _ & _ & _ & Hex).
    rewrite Hex in H. discriminate H.
Qed.

End Execute_state.

(** ** What [_save_plot] needs and does *)

Section Plotter_effects.
Context {Image Transform : Type} `{!SimpleITK Image Transform}.
Local Abbreviation preserves := (preserves (Image := Image) (Transform := Transform)).
Local Abbreviation raises_only := (raises_only (Image := Image) (Transform := Transform)).
Local Abbreviation raises_only_from :=
  (raises_only_from (Image := Image) (Transform := Transform)).
Local Abbreviation M := (M Image Transform).
Local Abbreviation World := (World Image Transform).
Local Abbreviation Engine := (Engine Image).

Ltac unfold_code :=
  unfold execute, execute_registration, execute_report, Execute, fire,
    RegistrationPlotter_init, run_command, _save_plot, _write_combined_image,
    _start_plot, _end_plot, _update_multiresolution_iterations,
    SetInitialTransform, AddCommand, GetMetricValue, GetOptimizerIteration,
    GetOptimizerStopConditionDescription, attr_fixed_image,
    attr_plot_directory_path, WriteImage, plt_draw, plt_close, plt_savefig,
    plt_figure, gcf, print, new_transform, new_plotter, new_engine,
    update_plotter, update_engine, get_transform, get_plotter, get_engine,
    get_params, get_image, missing.

(** The list comprehension of line 218 goes through when every index is
    one of the list. *)
Lemma list_comprehension_lookup_run {A} (l : list A) (idx : list nat) e (w : World) :
  Forall (fun i => i < length l)%nat idx ->
  exists ys,
    list_comprehension (fun i => lift_opt (l !! i) e) idx w = (inr ys, w)
    /\ Forall2 (fun i y => l !! i = Some y) idx ys.
Proof.
  induction 1 as [|i idx Hi _ (ys & Hys & Hall)]; simpl.
  - exists []. split; [reflexivity | constructor].
  - apply lookup_lt_is_Some in Hi as [y Hy].
    exists (y :: ys). split; [| now constructor].
    rewrite Hy. simpl. erewrite bind_run; [| reflexivity].
    now rewrite (bind_run _ _ _ _ _ Hys).
Qed.

Lemma markers_strict p v :
  markers_ok p ->
  Forall (fun i => i < length (metric_values p ++ [v]))%nat (multires_iterations p).
Proof.
  intros [Hb _]. eapply Forall_impl; [exact Hb |].
  intros i Hi. simpl in Hi. rewrite length_app. simpl. lia.
Qed.

(** X5.  What [_save_plot] has done when it returns.  It has appended
    the metric value the engine shows to the history; read the history
    at every marker; added four drawing calls (the history in red, the
    markers as blue stars, the two axis labels) to the current figure,
    without clearing it; and written exactly one file, named by the
    prefix and the new length of the history, that holds the central
    slices of the fixed volume and of the moving volume resampled with
    the current transform, blended with weight 0.7 on the moving one,
    and the figure to their right.  Engines, transforms, the caller's
    objects and the output are untouched. *)
Theorem save_plot_returns
    self r (e0 : Engine) fixed moving t prefix (w w3 : World) p :
  plotters w !! self = Some p ->
  engines w !! r = Some e0 ->
  _save_plot self r fixed moving t prefix w = (inr tt, w3) ->
  let p' := mk_plotter (metric_values p ++ [metric_value e0]) (multires_iterations p) in
  exists ys T slices img,
    Forall2 (fun i y => metric_values p' !! i = Some y) (multires_iterations p) ys
    /\ transforms w !! t = Some T
    /\ blended_slices fixed moving T slices
    /\ side_by_side slices
         (canvas_image (hd [] (figures w) ++ iteration_draws p' ys)) img
    /\ plotters w3 = <[self := p']> (plotters w)
    /\ figures w3 = (hd [] (figures w) ++ iteration_draws p' ys) :: tail (figures w)
    /\ files w3
       = files w ++ [(plot_file_name prefix (S (length (metric_values p))), ImageFile img)]
    /\ engines w3 = engines w
    /\ transforms w3 = transforms w
    /\ images w3 = images w
    /\ params_store w3 = params_store w
    /\ stdout w3 = stdout w.
Proof.
  intros Hp He H p'.
  destruct (save_plot_inv _ _ _ _ _ _ _ _ _ _ Hp He H)
    as (ys & T & slices & img & Hall & HT & Hbl & Hside & ->).
  exists ys, T, slices, img.
  split; [exact Hall |]. split; [exact HT |]. split; [exact Hbl |].
  split; [exact Hside |]. repeat split; reflexivity.
Qed.

(** *** The markers are always indices of the history *)

Lemma raises_only_from_lift {A} (P : World -> Prop) E (m : M A) :
  raises_only E m -> raises_only_from P E m.
Proof. intros Hm w _ e w' H. eapply Hm; eassumption. Qed.

Lemma raises_only_from_bind {A B} (P : World -> Prop) E (m : M A) (k : A -> M B) :
  preserves P m -> raises_only_from P E m ->
  (forall a, raises_only_from P E (k a)) ->
  raises_only_from P E (m ≫= k).
Proof.
  intros Hp Hm Hk w Hw e w' H. unfold mbind, M_bind in H.
  pose proof (Hp w Hw) as Hw1.
  destruct (m w) as [[e1|a] w1] eqn:Hmw; simpl in Hw1.
  - inversion H; subst. exact (Hm w Hw _ _ Hmw).
  - exact (Hk a w1 Hw1 _ _ H).
Qed.

Lemma raises_only_from_for_each {A} (P : World -> Prop) E (f : A -> M unit) l :
  (forall x, preserves P (f x)) -> (forall x, raises_only_from P E (f x)) ->
  raises_only_from P E (for_each f l).
Proof.
  intros Hp Hf. induction l as [|x l IH]; simpl.
  - apply raises_only_from_lift, raises_only_ret.
  - apply raises_only_from_bind; [apply Hp | apply Hf | intros _; exact IH].
Qed.

Lemma update_plotter_all_ok q f :
  (forall p, markers_ok p -> markers_ok (f p)) ->
  preserves all_ok (update_plotter q f).
Proof.
  intros Hf w Hw. unfold all_ok in *.
  destruct (plotters w !! q) as [x|] eqn:Hq.
  - rewrite (update_plotter_run _ _ _ _ Hq). simpl.
    apply Forall_insert; [exact Hw |].
    apply Hf. eapply Forall_lookup_1; eassumption.
  - rewrite (update_plotter_missing _ _ _ Hq). exact Hw.
Qed.

Lemma start_plot_all_ok q : preserves all_ok (_start_plot q).
Proof.
  intros w Hw. unfold all_ok in *.
  destruct (plotters w !! q) as [x|] eqn:Hq.
  - rewrite (start_plot_run _ _ _ Hq). simpl.
    apply Forall_insert; [exact Hw | apply markers_ok_empty].
  - rewrite (start_plot_missing _ _ Hq). exact Hw.
Qed.

Ltac all_ok_modify :=
  apply preserves_modify; unfold all_ok; intros ? ?; simpl;
  rewrite ?show_plotters;
  first [ assumption
        | apply Forall_app; split; [assumption | repeat constructor] ].

Lemma run_command_all_ok (c : Command Image) : preserves all_ok (run_command c).
Proof.
  destruct c; unfold run_command.
  - apply start_plot_all_ok.
  - unfold_code. all_ok_modify.
  - apply update_plotter_all_ok, markers_ok_marker.
  - unfold _save_plot. apply preserves_bind.
    { unfold_code. preserve. }
    intros v. apply preserves_bind.
    { apply update_plotter_all_ok. intros p. apply markers_ok_value. }
    intros _. unfold_code. preserve; all_ok_modify.
Qed.

Lemma fire_all_ok r x : preserves all_ok (fire r x).
Proof.
  unfold fire, get_engine. preserve; try apply run_command_all_ok. all_ok_modify.
Qed.

Lemma Execute_all_ok r fixed moving : preserves all_ok (Execute r fixed moving).
Proof.
  unfold Execute, fire, get_engine, get_transform.
  preserve; try apply run_command_all_ok; all_ok_modify.
Qed.

Lemma execute_all_ok self image params : preserves all_ok (execute self image params).
Proof.
  unfold execute. destruct params as [p|]; [| apply preserves_raise].
  apply preserves_bind;
    [| intros [img t]; unfold_code; preserve; all_ok_modify].
  unfold execute_registration.
  repeat (apply preserves_bind;
          [ first [ apply Execute_all_ok
                  | solve [unfold_code; preserve; all_ok_modify] ]
          | intros ? ]).
  apply preserves_ret.
Qed.

Lemma not_list_index_error_missing : missing <> list_index_error.
Proof. discriminate. Qed.

(** In a state where the markers are in order, the read of the history at
    the markers (line 218) is not what [_save_plot] fails on. *)
Lemma save_plot_no_list_index_error self r fixed moving t prefix :
  raises_only_from all_ok (fun e => e <> list_index_error)
    (_save_plot self r fixed moving t prefix).
Proof.
  intros w Hw e w' H. unfold _save_plot, GetMetricValue in H.
  destruct (engines w !! r) as [e0|] eqn:He.
  2:{ unfold get_engine, get, lift_opt, mbind, M_bind in H. rewrite He in H.
      inversion H. apply not_list_index_error_missing. }
  rewrite (bind_run _ _ _ _ _ (bind_run _ _ _ _ _ (get_engine_run _ _ _ He))) in H.
  cbv beta in H.
  destruct (plotters w !! self) as [p|] eqn:Hp.
  2:{ rewrite (bind_fail _ _ _ _ _ (update_plotter_missing _ _ _ Hp)) in H.
      inversion H. apply not_list_index_error_missing. }
  pose proof (lookup_lt_Some _ _ _ Hp) as Hlt.
  assert (Hok : markers_ok p) by (eapply Forall_lookup_1; eassumption).
  rewrite (bind_run _ _ _ _ _ (update_plotter_run _ _ _ _ Hp)) in H.
  erewrite bind_run in H;
    [| apply get_plotter_run; simpl; apply list_lookup_insert_eq; exact Hlt].
  rewrite (bind_run _ _ _ _ _ (plt_draw_run _ _)) in H.
  match type of H with
  | (list_comprehension _ _ ≫= _) ?w0 = _ =>
      destruct (list_comprehension_lookup_run
                  (metric_values p ++ [metric_value e0]) (multires_iterations p)
                  (IndexError "list index out of range") w0
                  (markers_strict p (metric_value e0) Hok))
        as (ys & Hys & _)
  end.
  simpl in H. rewrite (bind_run _ _ _ _ _ Hys) in H.
  match type of H with
  | ?m ?w0 = _ =>
      assert (Hr : raises_only (fun e1 => e1 <> list_index_error) m)
        by (unfold_code; raising; discriminate);
      exact (Hr _ _ _ H)
  end.
Qed.

Ltac no_list_error :=
  apply raises_only_from_lift; unfold_code; raising; discriminate.

Lemma run_command_no_list_index_error (c : Command Image) :
  raises_only_from all_ok (fun e => e <> list_index_error) (run_command c).
Proof.
  destruct c; unfold run_command;
    [no_list_error | no_list_error | no_list_error |].
  apply save_plot_no_list_index_error.
Qed.

Lemma fire_no_list_index_error r x :
  raises_only_from all_ok (fun e => e <> list_index_error) (fire r x).
Proof.
  unfold fire.
  apply raises_only_from_bind; [all_ok_modify | no_list_error | intros _].
  apply raises_only_from_bind;
    [unfold get_engine; preserve | no_list_error | intros e].
  apply raises_only_from_for_each; intros c;
    [apply run_command_all_ok | apply run_command_no_list_index_error].
Qed.

Lemma Execute_no_list_index_error r fixed moving :
  raises_only_from all_ok (fun e => e <> list_index_error) (Execute r fixed moving).
Proof.
  unfold Execute.
  apply raises_only_from_bind;
    [unfold get_engine; preserve | no_list_error | intros e].
  apply raises_only_from_bind; [preserve | no_list_error | intros t0].
  apply raises_only_from_bind;
    [unfold get_transform; preserve | no_list_error | intros t].
  cbv zeta.
  apply raises_only_from_bind; [| | intros _; no_list_error].
  - apply preserves_for_each. intros x. apply fire_all_ok.
  - apply raises_only_from_for_each; intros x;
      [apply fire_all_ok | apply fire_no_list_index_error].
Qed.

(** X6.  The read of the metric history at the markers (line 218) never
    fails in a run: from a state in which every plotter has its markers in
    order (such as one without plotters), [execute] leaves every plotter,
    the new one too, with its markers in order, and what it raises, if
    anything, is not an IndexError for a list index out of range. *)
Theorem execute_never_raises_list_index_error
    self image params (w : World) :
  all_ok w ->
  all_ok (execute self image params w).2
  /\ forall w', execute self image params w <> (inl list_index_error, w').
Proof.
  intros Hw. split; [exact (execute_all_ok self image params w Hw) |].
  intros w' H. revert H.
  assert (Hr : raises_only_from all_ok (fun e => e <> list_index_error)
                 (execute self image params)).
  { unfold execute. destruct params as [p|]; [| no_list_error].
    apply raises_only_from_bind;
      [| | intros [img t]; no_list_error].
    - unfold execute_registration.
      repeat (apply preserves_bind;
              [ first [ apply Execute_all_ok
                      | solve [unfold_code; preserve; all_ok_modify] ]
              | intros ? ]).
      apply preserves_ret.
    - unfold execute_registration.
      repeat (apply raises_only_from_bind;
              [ first [ apply Execute_all_ok
                      | solve [unfold_code; preserve; all_ok_modify] ]
              | first [ apply Execute_no_list_index_error | solve [no_list_error] ]
              | intros ? ]).
      no_list_error. }
  intros H. exact (Hr w Hw _ _ H eq_refl).
Qed.

(** *** The files of a run *)

Lemma show_files r x (w : World) : files (show r x w) = files w.
Proof. unfold show. repeat case_match; reflexivity. Qed.

(** One event delivered to an engine that a single plotter observes. *)
Lemma fire_single_plotter self r fixed moving t path (e : Engine) p ev x
    (w w1 : World) :
  engines w !! r = Some e ->
  commands e = plotter_commands self r fixed moving t path ->
  plotters w !! self = Some p ->
  fire r (ev, x) w = (inr tt, w1) ->
  plotters w1 !! self = Some (plotter_step p (ev, x))
  /\ (exists e1, engines w1 !! r = Some e1 /\ commands e1 = commands e)
  /\ map fst (files w1)
     = map fst (files w)
       ++ (if decide (ev = sitkIterationEvent)
           then [plot_file_name path (S (length (metric_values p)))]
           else []).
Proof.
  intros He Hc Hp H.
  destruct (fire_steps_plotter self r fixed moving t path [] e p (ev, x) w w1
              He Hc (Forall_nil_2 _) Hp H) as (Hstep & Hen).
  split; [exact Hstep |]. split; [exact Hen |].
  apply (fire_inv _ _ _ _ _ _ He) in H. rewrite Hc in H.
  assert (Hps : plotters (show r x w) !! self = Some p)
    by now rewrite show_plotters.
  destruct ev; unfold commands_for in H; simpl in H;
    apply bind_inv in H as ([] & w' & Hcmd & Hret);
    inversion Hret; subst w'; clear Hret.
  - rewrite (start_plot_run _ _ _ Hps) in Hcmd. inversion Hcmd; subst w1.
    simpl. now rewrite show_files, app_nil_r.
  - unfold _end_plot, plt_close, modify in Hcmd. inversion Hcmd; subst w1.
    simpl. now rewrite show_files, app_nil_r.
  - rewrite (update_multiresolution_iterations_run _ _ _ Hps) in Hcmd.
    inversion Hcmd; subst w1. simpl. now rewrite show_files, app_nil_r.
  - destruct (save_plot_writes _ _ _ _ _ _ _ _ _ _ Hps (show_engine r x w e He) Hcmd)
      as (_ & _ & img & Hf).
    rewrite Hf, map_app, show_files. reflexivity.
Qed.

Lemma iterations_cons ev x (trace : list (Event * Snapshot Transform)) :
  iterations ((ev, x) :: trace)
  = ((if decide (ev = sitkIterationEvent) then 1 else 0) + iterations trace)%nat.
Proof.
  unfold iterations. rewrite filter_cons. simpl.
  destruct (decide (ev = sitkIterationEvent)); reflexivity.
Qed.

Lemma trace_files
    self r fixed moving t path (e : Engine) p
    (trace : list (Event * Snapshot Transform)) (w w2 : World) :
  engines w !! r = Some e ->
  commands e = plotter_commands self r fixed moving t path ->
  plotters w !! self = Some p ->
  Forall (fun x => x.1 <> sitkStartEvent) trace ->
  for_each (fire r) trace w = (inr tt, w2) ->
  map fst (files w2)
  = map fst (files w)
    ++ map (plot_file_name path)
         (seq (S (length (metric_values p))) (iterations trace)).
Proof.
  intros He Hc Hp Hns. revert e p w He Hc Hp.
  induction Hns as [|[ev x] trace Hx _ IH]; intros e p w He Hc Hp H.
  - inversion H; subst. simpl. now rewrite app_nil_r.
  - apply for_each_inv in H as (w' & Hfire & H).
    destruct (fire_single_plotter _ _ _ _ _ _ _ _ _ _ _ _ He Hc Hp Hfire)
      as (Hp' & (e1 & He1 & Hc1) & Hf).
    rewrite Hc in Hc1.
    rewrite (IH e1 _ w' He1 Hc1 Hp' H), Hf, iterations_cons.
    simpl in Hx. unfold plotter_step. simpl.
    destruct ev; try contradiction; simpl; rewrite ?app_nil_r; try reflexivity.
    rewrite length_app. simpl. rewrite <- app_assoc. simpl.
    now replace (length (metric_values p) + 1)%nat
      with (S (length (metric_values p))) by lia.
Qed.

(** X7.  An engine observed by one plotter, and a sequence of events
    without a start event that are all handled: the files written are, in
    order, one per iteration event, numbered on from the length the metric
    history had; nothing else is written. *)
Theorem run_writes_one_file_per_iteration
    self r fixed moving t path (e : Engine) p
    (trace : list (Event * Snapshot Transform)) (w w2 : World) :
  engines w !! r = Some e ->
  commands e = plotter_commands self r fixed moving t path ->
  plotters w !! self = Some p ->
  Forall (fun x => x.1 <> sitkStartEvent) trace ->
  for_each (fire r) trace w = (inr tt, w2) ->
  map fst (files w2)
  = map fst (files w)
    ++ map (plot_file_name path)
         (seq (S (length (metric_values p))) (iterations trace)).
Proof. apply trace_files. Qed.

(** The same from a new plotter, with the start event, if there is one,
    coming first. *)
Lemma trace_files_from_new
    self r fixed moving t path (e : Engine)
    (trace : list (Event * Snapshot Transform)) (w w2 : World) :
  engines w !! r = Some e ->
  commands e = plotter_commands self r fixed moving t path ->
  plotters w !! self = Some (mk_plotter [] []) ->
  Forall (fun x => x.1 <> sitkStartEvent) (tail trace) ->
  for_each (fire r) trace w = (inr tt, w2) ->
  map fst (files w2)
  = map fst (files w) ++ map (plot_file_name path) (seq 1 (iterations trace)).
Proof.
  intros He Hc Hp Hns H. destruct trace as [|[ev x] trace].
  - inversion H; subst. simpl. now rewrite app_nil_r.
  - simpl in Hns. apply for_each_inv in H as (w' & Hfire & H).
    destruct (fire_single_plotter _ _ _ _ _ _ _ _ _ _ _ _ He Hc Hp Hfire)
      as (Hp' & (e1 & He1 & Hc1) & Hf).
    rewrite Hc in Hc1.
    rewrite (trace_files _ _ _ _ _ _ e1 _ trace w' w2 He1 Hc1 Hp' Hns H).
    rewrite Hf, iterations_cons. unfold plotter_step. simpl.
    destruct ev; simpl; rewrite ?app_nil_r; try reflexivity.
    now rewrite <- app_assoc.
Qed.

(** X8.  [execute] with a plot directory on a filter whose engine has no
    observer yet: if the engine's start event, should it raise one, comes
    first, and the run returns, the files written are exactly one per
    iteration event of the run, named by the plot directory path followed
    by 001, 002, ... in this order, and [.png]. *)
Theorem execute_writes_one_file_per_iteration
    self image p (w : World) px fimg mimg e img t w1 :
  params_store w !! p = Some px ->
  images w !! fixed_image px = Some fimg ->
  images w !! image = Some mimg ->
  engines w !! registration self = Some e ->
  commands e = [] ->
  truthy (plot_directory_path px) = true ->
  let events :=
    run_events
      (optimize (settings e)
         (CenteredTransformInitializer (Cast fimg (GetPixelIDValue mimg)) mimg
            Euler3DTransform GEOMETRY)
         (Cast (Normalize fimg) sitkFloat32) (Cast (Normalize mimg) sitkFloat32)) in
  Forall (fun x => x.1 <> sitkStartEvent) (tail events) ->
  execute_registration self image p w = (inr (img, t), w1) ->
  map fst (files (execute self image (Some p) w).2)
  = map fst (files w)
    ++ map (plot_file_name (plot_directory_path px)) (seq 1 (iterations events)).
Proof.
  intros Hp Hi Hm He Hc Hpath events Hns Hreg.
  pose proof (lookup_lt_Some _ _ _ He) as Hlt.
  destruct (execute_after_registration _ _ _ _ _ _ _ Hreg)
    as (e1 & px' & fimg' & _ & _ & _ & Hex).
  rewrite Hex. simpl. clear Hex e1 px' fimg'.
  destruct (execute_registration_prepared self image p w px fimg mimg e Hp Hi Hm He)
    as (w5 & Heq & Hen & Htr & Hpl & Hfl & _).
  rewrite Heq in Hreg. clear Heq.
  unfold attached_commands in Hen. rewrite Hpath, Hc in Hen. simpl in Hen.
  rewrite Hpath in Hpl.
  apply bind_inv in Hreg as (t' & w6 & HEx & Hret).
  inversion Hret; subst; clear Hret.
  unfold Execute in HEx.
  erewrite bind_run in HEx;
    [| apply get_engine_run; rewrite Hen; apply list_lookup_insert_eq; exact Hlt].
  simpl in HEx. erewrite bind_run in HEx; [| reflexivity].
  erewrite bind_run in HEx;
    [| apply get_transform_run; rewrite Htr; apply list_lookup_middle; reflexivity].
  cbv zeta in HEx. fold events in HEx.
  apply bind_inv in HEx as ([] & w7 & Hrun & Hret).
  destruct (run_error _); [discriminate |].
  apply bind_inv in Hret as ([] & w8 & Hshow & Hret).
  inversion Hshow; subst w8. inversion Hret; subst w1.
  rewrite show_files, <- Hfl.
  eapply trace_files_from_new; [| | | exact Hns | exact Hrun].
  - rewrite Hen. apply list_lookup_insert_eq. exact Hlt.
  - reflexivity.
  - rewrite Hpl. apply list_lookup_middle. reflexivity.
Qed.

End Plotter_effects.

(** ** The composite image, unobserved runs, and the plotting helpers *)

Section Layout.
Context {Image Transform : Type} `{!SimpleITK Image Transform}.
Local Abbreviation M := (M Image Transform).
Local Abbreviation World := (World Image Transform).
Local Abbreviation Engine := (Engine Image).

(** X10.  An engine observed by one plotter, and a sequence of events
    without a start event that are all handled: the files written have
    pairwise different names, and none has the name of an earlier
    iteration of the plotter's history.  So as long as the history is not
    reset, no plot of this plotter overwrites another. *)
Theorem run_plot_files_are_distinct
    self r fixed moving t path (e : Engine) p
    (trace : list (Event * Snapshot Transform)) (w w2 : World) :
  engines w !! r = Some e ->
  commands e = plotter_commands self r fixed moving t path ->
  plotters w !! self = Some p ->
  Forall (fun x => x.1 <> sitkStartEvent) trace ->
  for_each (fire r) trace w = (inr tt, w2) ->
  exists names,
    map fst (files w2) = map fst (files w) ++ names
    /\ length names = iterations trace
    /\ NoDup names
    /\ forall k, (k <= length (metric_values p))%nat -> plot_file_name path k ∉ names.
Proof.
  intros He Hc Hp Hns Hrun.
  pose proof (trace_files _ _ _ _ _ _ _ _ _ _ _ He Hc Hp Hns Hrun) as Hf.
  eexists. split; [exact Hf |].
  split; [now rewrite length_map, length_seq |].
  change (map (plot_file_name path)) with (fmap (M := list) (plot_file_name path)).
  split.
  - apply NoDup_fmap_2; [| apply NoDup_seq].
    intros n m Hnm. now apply plot_file_name_inj in Hnm.
  - intros k Hk Hin. apply list_elem_of_fmap in Hin as (j & Hj & Hin).
    apply plot_file_name_inj in Hj. subst j.
    apply elem_of_seq in Hin. lia.
Qed.

(** X11.  The layout of the composite image, granted that a new image has
    the height it was made with, for images as high as an unsigned int
    allows.  When [_write_combined_image] returns it has written one
    file: the two images pasted side by side into a new image as wide as
    both and as high as the higher; the first at the left edge, the
    second right of it; the higher one at the top, the other one centred
    vertically, to within half a pixel, and inside the composite. *)
Theorem write_combined_image_layout
    self (image1 image2 : Image) file_name (w w1 : World) :
  (forall width height pid n, GetHeight (NewImage [width; height] pid n) = height) ->
  (0 <= GetHeight image1 < 2 ^ 32)%Z ->
  (0 <= GetHeight image2 < 2 ^ 32)%Z ->
  _write_combined_image self image1 image2 file_name w = (inr tt, w1) ->
  let height := Z.max (GetHeight image1) (GetHeight image2) in
  let canvas :=
    NewImage [(GetWidth image1 + GetWidth image2)%Z; height]
      (GetPixelID image1) (GetNumberOfComponentsPerPixel image1) in
  exists y1 y2 c1 img,
    Paste canvas image1 (GetSize image1) [0%Z; 0%Z] [0%Z; y1] = inr c1
    /\ Paste c1 image2 (GetSize image2) [0%Z; 0%Z] [GetWidth image1; y2] = inr img
    /\ w1 = set_files (fun fl => fl ++ [(file_name, ImageFile img)]) w
    /\ (0 <= y1 /\ y1 + GetHeight image1 <= height)%Z
    /\ (0 <= y2 /\ y2 + GetHeight image2 <= height)%Z
    /\ (-1 <= 2 * y1 - (height - GetHeight image1) <= 1)%Z
    /\ (-1 <= 2 * y2 - (height - GetHeight image2) <= 1)%Z
    /\ (y1 = 0 \/ y2 = 0)%Z.
Proof.
  intros Hnew Hh1 Hh2 H height canvas.
  apply write_combined_image_inv in H as (img & Hside & ->).
  unfold side_by_side in Hside. fold height in Hside. fold canvas in Hside.
  destruct Hside as (y1 & y2 & c1 & Hy & HP1 & HP2).
  assert (Hc : GetHeight canvas = height) by apply Hnew.
  rewrite Hc in Hy.
  assert (B1 : (Z.abs (height - GetHeight image1) < 2 ^ 53)%Z) by (subst height; lia).
  assert (B2 : (Z.abs (height - GetHeight image2) < 2 ^ 53)%Z) by (subst height; lia).
  pose proof (round_half_is_central_bounds _ B1) as R1.
  pose proof (round_half_is_central_bounds _ B2) as R2.
  exists y1, y2, c1, img.
  split; [exact HP1 |]. split; [exact HP2 |]. split; [reflexivity |].
  destruct (GetHeight image1 >? GetHeight image2)%Z eqn:Hgt;
    destruct Hy as [-> ->]; subst height; lia.
Qed.

End Layout.

Section Unobserved.
Context {Image Transform : Type} `{!SimpleITK Image Transform}.
Local Abbreviation M := (M Image Transform).
Local Abbreviation World := (World Image Transform).
Local Abbreviation Engine := (Engine Image).

Lemma show_same_outside r x (w : World) : same_outside w (show r x w).
Proof.
  unfold same_outside, show. repeat case_match; simpl;
    rewrite ?length_insert; repeat split; reflexivity.
Qed.

Lemma same_outside_trans (w1 w2 w3 : World) :
  same_outside w1 w2 -> same_outside w2 w3 -> same_outside w1 w3.
Proof.
  unfold same_outside. intros (? & ? & ? & ? & ?) (? & ? & ? & ? & ?).
  repeat split; congruence.
Qed.

Lemma for_each_fire_unobserved_outside r evs (w : World) e :
  engines w !! r = Some e -> commands e = [] ->
  exists w' e',
    for_each (fire r) evs w = (inr tt, w')
    /\ same_outside w w'
    /\ engines w' !! r = Some e'
    /\ commands e' = [] /\ settings e' = settings e
    /\ initial_transform e' = initial_transform e.
Proof.
  revert w e. induction evs as [|x evs IH]; intros w e He Hc.
  - exists w, e. split; [reflexivity |].
    split; [repeat split; reflexivity | auto].
  - simpl. rewrite (bind_run _ _ _ _ _ (fire_unobserved r x w e He Hc)).
    destruct (IH (show r x.2 w) _ (show_engine r x.2 w e He) Hc)
      as (w' & e' & Hrun & Hout & He' & Hc' & Hs' & Hi').
    exists w', e'. split; [exact Hrun |].
    split; [eapply same_outside_trans; [apply show_same_outside | exact Hout] |].
    auto.
Qed.

(** The engine's run when nobody observes it, however it ends. *)
Lemma Execute_unobserved_frame r fixed moving (w : World) e t0 T :
  engines w !! r = Some e -> commands e = [] ->
  initial_transform e = Some t0 -> transforms w !! t0 = Some T ->
  exists e',
    same_outside w (Execute r fixed moving w).2
    /\ engines (Execute r fixed moving w).2 !! r = Some e'
    /\ commands e' = [] /\ settings e' = settings e.
Proof.
  intros He Hc Hi Ht. unfold Execute.
  rewrite (bind_run _ _ _ _ _ (get_engine_run _ _ _ He)).
  rewrite Hi. simpl lift_opt.
  erewrite bind_run; [| reflexivity].
  rewrite (bind_run _ _ _ _ _ (get_transform_run _ _ _ Ht)).
  cbv zeta.
  destruct (for_each_fire_unobserved_outside r
              (run_events (optimize (settings e) T fixed moving)) w e He Hc)
    as (w' & e' & Hrun & Hout & He' & Hc' & Hs' & _).
  rewrite (bind_run _ _ _ _ _ Hrun).
  destruct (run_error (optimize (settings e) T fixed moving)) as [msg|].
  - exists e'. simpl. auto.
  - erewrite bind_run; [| reflexivity]. simpl.
    eexists. split; [eapply same_outside_trans; [exact Hout | apply show_same_outside] |].
    split; [eapply show_engine; exact He' |]. simpl. auto.
Qed.

Lemma get_image_fail (w : World) i :
  images w !! i = None -> get_image i w = (inl no_image, w).
Proof.
  intros H. unfold get_image, get, lift_opt, mbind, M_bind. now rewrite H.
Qed.

Lemma attr_fixed_image_fail (w : World) p px :
  params_store w !! p = Some px -> images w !! fixed_image px = None ->
  attr_fixed_image p w = (inl null_image, w).
Proof.
  intros Hp H. unfold attr_fixed_image, get_params, get, lift_opt, mbind, M_bind.
  rewrite Hp. simpl. now rewrite H.
Qed.

(** A registration nobody observes, however it ends. *)
Lemma execute_unobserved_frame
    self image p (w : World) px e :
  params_store w !! p = Some px ->
  plot_directory_path px = "" ->
  engines w !! registration self = Some e ->
  commands e = [] ->
  files (execute self image (Some p) w).2 = files w
  /\ figures (execute self image (Some p) w).2 = figures w
  /\ plotters (execute self image (Some p) w).2 = plotters w
  /\ exists e2,
       engines (execute self image (Some p) w).2 !! registration self = Some e2
       /\ commands e2 = [] /\ settings e2 = settings e.
Proof.
  intros Hp Hpath He Hc. pose proof (lookup_lt_Some _ _ _ He) as Hlt.
  destruct (images w !! image) as [mimg|] eqn:Hm.
  2:{ assert (Hreg : execute_registration self image p w = (inl no_image, w)).
      { unfold execute_registration.
        rewrite (bind_run _ _ _ _ _ (get_params_run w p px Hp)).
        now rewrite (bind_fail _ _ _ _ _ (get_image_fail w image Hm)). }
      unfold execute. rewrite (bind_fail _ _ _ _ _ Hreg). simpl. eauto 10. }
  destruct (images w !! fixed_image px) as [fimg|] eqn:Hi.
  2:{ assert (Hreg : execute_registration self image p w = (inl null_image, w)).
      { unfold execute_registration.
        rewrite (bind_run _ _ _ _ _ (get_params_run w p px Hp)).
        rewrite (bind_run _ _ _ _ _ (get_image_run w image mimg Hm)).
        now rewrite (bind_fail _ _ _ _ _ (attr_fixed_image_fail w p px Hp Hi)). }
      unfold execute. rewrite (bind_fail _ _ _ _ _ Hreg). simpl. eauto 10. }
  destruct (execute_registration_prepared self image p w px fimg mimg e Hp Hi Hm He)
    as (w5 & Heq & Hen & Htr & Hpl & Hfl & Hfg & Hso).
  unfold attached_commands in Hen. rewrite Hpath in Hen, Hpl. simpl in Hen, Hpl.
  rewrite Hc in Hen. simpl in Hen. rewrite app_nil_r in Hpl.
  assert (He5 : engines w5 !! registration self
                = Some (mk_engine (settings e) (Some (length (transforms w))) []
                          (metric_value e) (optimizer_iteration e) (stop_condition e)))
    by (rewrite Hen; now apply list_lookup_insert_eq).
  assert (Ht5 : transforms w5 !! length (transforms w)
                = Some (CenteredTransformInitializer (Cast fimg (GetPixelIDValue mimg))
                          mimg Euler3DTransform GEOMETRY))
    by (rewrite Htr; now apply list_lookup_middle).
  match type of Heq with
  | _ = (Execute ?r ?f ?m ≫= _) _ =>
      destruct (Execute_unobserved_frame r f m w5 _ _ _ He5 eq_refl eq_refl Ht5)
        as (e' & (Ofl & Ofg & Opl & _) & He' & Hc' & Hs');
      destruct (Execute r f m w5) as [[err|T'] w6] eqn:HEx
  end; simpl in Ofl, Ofg, Opl, He', Hs'.
  - rewrite (bind_fail _ _ _ _ _ HEx) in Heq.
    unfold execute. rewrite (bind_fail _ _ _ _ _ Heq). simpl.
    rewrite Ofl, Ofg, Opl, Hfl, Hfg, Hpl. eauto 10.
  - rewrite (bind_run _ _ _ _ _ HEx) in Heq. unfold mret, M_ret in Heq.
    destruct (execute_after_registration _ _ _ _ _ _ _ Heq)
      as (e1 & px' & fimg' & _ & _ & _ & Hex).
    rewrite Hex. simpl.
    rewrite Ofl, Ofg, Opl, Hfl, Hfg, Hpl. eauto 10.
Qed.

(** X1.  A registration nobody observes touches nothing but the engine
    and the transforms: when the parameter object has an empty plot
    directory and the engine has no callable attached, then however
    [execute] ends, returning or raising, it has written no file, opened
    or drawn on no figure and made no plotter, and the engine has its
    settings and still no callable. *)
Theorem execute_unobserved_writes_nothing
    self image p (w : World) px e :
  params_store w !! p = Some px ->
  plot_directory_path px = "" ->
  engines w !! registration self = Some e ->
  commands e = [] ->
  files (execute self image (Some p) w).2 = files w
  /\ figures (execute self image (Some p) w).2 = figures w
  /\ plotters (execute self image (Some p) w).2 = plotters w
  /\ exists e2,
       engines (execute self image (Some p) w).2 !! registration self = Some e2
       /\ commands e2 = [] /\ settings e2 = settings e.
Proof. apply execute_unobserved_frame. Qed.

(** When [execute] returns, the first part has returned. *)
Lemma execute_returned self image p (w : World) r w2 :
  execute self image (Some p) w = (inr r, w2) ->
  exists img t w1, execute_registration self image p w = (inr (img, t), w1).
Proof.
  unfold execute. intros H.
  apply bind_inv in H as ([img t] & w1 & Hreg & _). eauto.
Qed.

(** X15.  The constructor and [execute] fit together.  When the two
    calls, one after the other, return for a parameter object without
    plot directory, the sequences were of one length and the numbers
    ones the toolkit accepts, and what is returned is the normalised
    moving image resampled onto the fixed image with the transform the
    engine ended on, the engine being configured from the constructor's
    arguments alone (nothing of an earlier use is in it); no file is
    written, no figure touched and no plotter made. *)
Theorem new_filter_registers
    super_init bins lr ss n (sf : list Z) (sg : list Q)
    image p (w : World) px fimg mimg r w2 :
  params_store w !! p = Some px ->
  images w !! fixed_image px = Some fimg ->
  images w !! image = Some mimg ->
  plot_directory_path px = "" ->
  (self ← RigidMultiModalRegistration_init super_init bins lr ss n sf sg;
   execute self image (Some p)) w = (inr r, w2) ->
  length sf = length sg
  /\ ((0 <= bins < 2 ^ 32) /\ (0 <= n < 2 ^ 32)
      /\ Forall (fun x => 0 <= x < 2 ^ 32) sf)%Z
  /\ r = Resample (Normalize mimg) fimg
           (sn_transform
              (run_final
                 (optimize (settings (configured_engine bins lr n sf sg))
                    (CenteredTransformInitializer (Cast fimg (GetPixelIDValue mimg))
                       mimg Euler3DTransform GEOMETRY)
                    (Cast (Normalize fimg) sitkFloat32)
                    (Cast (Normalize mimg) sitkFloat32))))
           sitkLinear 0%Q (GetPixelIDValue (Normalize mimg))
  /\ files w2 = files w
  /\ figures w2 = figures w
  /\ plotters w2 = plotters w.
Proof.
  intros Hp Hi Hm Hpath H.
  apply bind_inv in H as (self & w1 & Hinit & Hex).
  destruct (decide (length sf = length sg)) as [Hlen|Hlen];
    [| rewrite (init_unequal_lengths _ _ _ _ _ _ _ _ Hlen) in Hinit; discriminate].
  destruct (is_uint32 bins && is_uint32 n && forallb is_uint32 sf) eqn:Hacc.
  2:{ destruct (init_refused super_init bins lr ss n sf sg w Hlen Hacc)
        as (err & e' & msg & Hrun & _).
      rewrite Hrun in Hinit. discriminate. }
  apply andb_true_iff in Hacc as [Hacc Hsf].
  apply andb_true_iff in Hacc as [Hb Hn].
  rewrite (init_equal_lengths _ _ _ _ _ _ _ _ Hlen Hb Hn Hsf) in Hinit.
  injection Hinit as <- <-.
  set (self := mk_registration super_init bins lr ss n sf sg (length (engines w))) in *.
  set (w1 := set_engines (fun es => es ++ [configured_engine bins lr n sf sg]) w) in *.
  assert (He : engines w1 !! registration self
               = Some (configured_engine bins lr n sf sg))
    by (subst w1 self; simpl; now apply list_lookup_middle).
  split; [exact Hlen |].
  split; [rewrite <- !is_uint32_true, <- forallb_is_uint32; auto |].
  destruct (execute_unobserved_frame self image p w1 px _ Hp Hpath He eq_refl)
    as (Hfl & Hfg & Hpl & _).
  rewrite Hex in Hfl, Hfg, Hpl. simpl in Hfl, Hfg, Hpl.
  split; [| auto].
  destruct (execute_returned _ _ _ _ _ _ Hex) as (img & t & w' & Hreg).
  destruct (execute_registration_result self image p w1 px fimg mimg _ img t w'
              Hp Hi Hm He Hreg) as [-> ->].
  destruct (execute_after_registration _ _ _ _ _ _ _ Hreg)
    as (e1 & px' & fimg' & _ & Hp' & Hi' & Hex').
  rewrite Hex in Hex'. simpl in Hp', Hi'.
  rewrite Hp in Hp'. inversion Hp'; subst px'.
  rewrite Hi in Hi'. inversion Hi'; subst fimg'.
  inversion Hex'. reflexivity.
Qed.

End Unobserved.

Section Plots.
Context {Image Transform : Type} `{!SimpleITK Image Transform}.
Local Abbreviation M := (M Image Transform).
Local Abbreviation World := (World Image Transform).

(** X12.  [plot_slice] hands any slice number, also a negative one, to the
    toolkit.  When the toolkit has the slice, the call returns and has
    written one file, the slice in grey on axes of its own in a figure of
    its own, and pyplot's figures are as they were: a drawing in progress
    is not in the file and is not closed.  When the toolkit refuses the
    number, that is raised and nothing has happened. *)
Theorem plot_slice_saves_the_slice
    (path : string) (image : Image) (slice_no : Z) (w : World) :
  plot_slice path image slice_no w
  = match getitem_z image slice_no with
    | Some s =>
        (inr tt,
         set_files
           (fun fl =>
              fl ++ [(path,
                      FigureFile [add_axes (slice_axes (GetArrayFromImage s))]
                        (Some (slice_axes (GetArrayFromImage s))))])
           w)
    | None => (inl (LibraryError "slice index out of range"), w)
    end.
Proof.
  unfold plot_slice. destruct (getitem_z image slice_no) as [s|]; [| reflexivity].
  erewrite bind_run; [| reflexivity]. cbv beta zeta.
  destruct w as [im pa en pl tr fg fl so]. reflexivity.
Qed.

(** X13.  [plot_2d_segmentation] returns exactly when the three arrays are
    of one shape and the image is 2-dimensional, whatever the arrays hold:
    NumPy raises nothing on the way.  It then has written one file, at
    [path], and pyplot's figures are as they were.  Otherwise it raises
    ValueError and the state is untouched. *)
Theorem plot_2d_segmentation_returns_iff_valid
    (path : string) (image : ndarray Q) (ground_truth segmentation : ndarray Z)
    (alpha : Q) (label : Z) (w : World) :
  let valid :=
    shape image = shape ground_truth /\ shape ground_truth = shape segmentation
    /\ ndim image = 2%nat in
  let result :=
    plot_2d_segmentation path image ground_truth segmentation alpha label w in
  ((exists w', result = (inr tt, w')
               /\ figures w' = figures w
               /\ map fst (files w') = map fst (files w) ++ [path]
               /\ stdout w' = stdout w)
   <-> valid)
  /\ ((exists msg, result = (inl (ValueError msg), w)) <-> ~ valid).
Proof.
  intros valid result. subst valid result.
  unfold plot_2d_segmentation.
  destruct (decide (shape image = shape ground_truth)) as [H1|H1];
    [destruct (decide (shape ground_truth = shape segmentation)) as [H2|H2];
     [destruct (decide (ndim image = 2%nat)) as [H3|H3] |] |].
  - rewrite !bool_decide_eq_true_2 by assumption. rewrite H3.
    change (negb (true && true)) with false. change (negb (2 =? 2)%nat) with false.
    cbv iota.
    destruct (segmentation_overlay_run ground_truth segmentation label w H2)
      as (masked & Hrun & _).
    rewrite (bind_run _ _ _ _ _ Hrun). cbv beta zeta.
    destruct w as [im pa en pl tr fg fl so].
    split.
    + split; [auto |]. intros _. eexists. split; [reflexivity |]. simpl.
      rewrite map_app. auto.
    + split; [intros [msg Hm]; discriminate Hm | intros Hn; exfalso; apply Hn; auto].
  - rewrite !bool_decide_eq_true_2 by assumption.
    change (negb (true && true)) with false. cbv iota.
    apply Nat.eqb_neq in H3 as H3b. rewrite H3b. simpl negb. cbv iota.
    split.
    + split; [intros (w' & Hm & _); discriminate Hm | intros (_ & _ & ?); contradiction].
    + split; [intros _ (_ & _ & ?); contradiction | intros _; eexists; reflexivity].
  - rewrite (bool_decide_eq_true_2 _ H1), (bool_decide_eq_false_2 _ H2).
    simpl negb. cbv iota.
    split.
    + split; [intros (w' & Hm & _); discriminate Hm | intros (_ & ? & _); contradiction].
    + split; [intros _ (_ & ? & _); contradiction | intros _; eexists; reflexivity].
  - rewrite (bool_decide_eq_false_2 _ H1). simpl negb. cbv iota.
    split.
    + split; [intros (w' & Hm & _); discriminate Hm | intros (? & _); contradiction].
    + split; [intros _ (? & _); contradiction | intros _; eexists; reflexivity].
Qed.

Lemma plot_histogram_run path image no_bins slice_no title_ xlabel_ ylabel_ d
    (w : World) :
  histogram_data image slice_no = Some d ->
  (0 < no_bins)%Z ->
  plot_histogram path image no_bins slice_no title_ xlabel_ ylabel_ w
  = (inr tt, histogram_saved path d no_bins title_ xlabel_ ylabel_ w).
Proof.
  unfold histogram_data, plot_histogram. intros H Hb.
  assert (Hpos : (no_bins <=? 0)%Z = false) by lia.
  destruct (slice_no >? -1)%Z.
  - destruct (getitem_z image slice_no) as [s|]; [| discriminate H].
    inversion H; subst d.
    erewrite bind_run; [| reflexivity]. cbv beta zeta.
    rewrite plot_histogram_tail. unfold histogram_outcome. now rewrite Hpos.
  - inversion H; subst d.
    erewrite bind_run; [| reflexivity]. cbv beta zeta.
    rewrite plot_histogram_tail. unfold histogram_outcome. now rewrite Hpos.
Qed.

(** X14.  [plot_histogram] opens no figure of its own: it draws on
    pyplot's current figure and closes it.  So, for positive numbers of
    bins and data the toolkit gives, a drawing in progress ends up in
    the file, in front of the histogram, and is gone afterwards; and of
    two histograms plotted one after the other the second file holds the
    second histogram only. *)
Theorem plot_histogram_draws_on_current_figure
    (path1 path2 : string) (image1 image2 : Image) (bins1 bins2 slice1 slice2 : Z)
    (title1 xlabel1 ylabel1 title2 xlabel2 ylabel2 : string)
    (d1 d2 : ndarray Q) (w : World) :
  histogram_data image1 slice1 = Some d1 ->
  histogram_data image2 slice2 = Some d2 ->
  (0 < bins1)%Z ->
  (0 < bins2)%Z ->
  exists w1 w2,
    plot_histogram path1 image1 bins1 slice1 title1 xlabel1 ylabel1 w = (inr tt, w1)
    /\ files w1
       = files w
         ++ [(path1,
              FigureFile (hd [] (figures w)
                          ++ hist (flatten d1) bins1 None
                               :: histogram_labels title1 xlabel1 ylabel1) None)]
    /\ figures w1 = tail (figures w)
    /\ plot_histogram path2 image2 bins2 slice2 title2 xlabel2 ylabel2 w1 = (inr tt, w2)
    /\ (length (figures w) <= 1 ->
        files w2
        = files w1
          ++ [(path2,
               FigureFile (hist (flatten d2) bins2 None
                             :: histogram_labels title2 xlabel2 ylabel2) None)]
        /\ figures w2 = []).
Proof.
  intros H1 H2 Hb1 Hb2.
  eexists _, _.
  split; [apply plot_histogram_run; [exact H1 | exact Hb1] |].
  split; [reflexivity |]. split; [reflexivity |].
  split; [apply plot_histogram_run; [exact H2 | exact Hb2] |].
  intros Hlen. unfold histogram_saved. simpl.
  destruct (figures w) as [|f [|g fs]]; simpl in *; [auto | auto | lia].
Qed.

End Plots.

(** ** The theorems on concrete inputs *)

Section Instances.
Import Ref.
Local Abbreviation World := (World image transform).

(** The constructor with its default arguments returns a filter. *)
Example default_filter_is_made :
  exists self w,
    RigidMultiModalRegistration_default (mk_ifilter false) world0 = (inr self, w)
    /\ number_of_iterations self = 200%Z
    /\ shrink_factors self = [4%Z; 2%Z; 1%Z].
Proof. eexists _, _. split; [vm_compute; reflexivity | split; reflexivity]. Qed.



(** C2 as the specification words it does not hold: sequences of one
    length with a negative shrink factor, or a number of bins beyond an
    unsigned int, and the constructor raises, TypeError and OverflowError,
    where the claim has it succeed. *)
Lemma init_refuses_numbers_counterexample :
  length [(-1)%Z] = length [0%Q]
  /\ (exists msg w',
        RigidMultiModalRegistration_init (mk_ifilter false) 200%Z 1%Q 0.001%Q 200%Z
          [(-1)%Z] [0%Q] world0
        = (inl (TypeError msg), w'))
  /\ (exists msg w',
        RigidMultiModalRegistration_init (mk_ifilter false) (2 ^ 32)%Z 1%Q 0.001%Q 200%Z
          [4%Z; 2%Z; 1%Z] [2%Q; 1%Q; 0%Q] world0
        = (inl (OverflowError msg), w')).
Proof.
  split; [reflexivity |].
  split; eexists _, _; vm_compute; reflexivity.
Qed.


(** What is printed in the three cases. *)
Example execute_prints_warning :
  stdout (execute filter2 2 (Some 3%nat) world1).2 = [not_converged].
Proof. vm_compute. reflexivity. Qed.

Example execute_prints_nothing :
  match make false 200%Z with
  | (inr f, w) => stdout (execute f 2 (Some 3%nat) w).2 = []
  | _ => False
  end.
Proof. vm_compute. reflexivity. Qed.

Example execute_prints_verbose :
  stdout (execute filter2_verbose 2 (Some 3%nat) world1).2
  = ["RigidMultiModalRegistration:" +:+ nl +:+ " Final metric value: -4/10";
     " Optimizer's stopping condition, Maximum number of iterations exceeded."].
Proof. vm_compute. reflexivity. Qed.

Lemma plotter_markers_invariant_witness :
  plotters world2 !! 0%nat = Some (mk_plotter [] [])
  /\ engines world2 !! 0%nat = Some engine2
  /\ (sitkStartEvent, cb_start_plot 0%nat) ∈ commands engine2
  /\ fire 0%nat start0 world2 = (inr tt, (fire 0%nat start0 world2).2)
  /\ exists p,
       plotters (for_each (fire 0%nat) trace2 (fire 0%nat start0 world2).2).2 !! 0%nat
       = Some p
       /\ Forall (fun m => m <= length (metric_values p))%nat (multires_iterations p)
       /\ Sorted le (multires_iterations p).
Proof.
  assert (Hp : plotters world2 !! 0%nat = Some (mk_plotter [] []))
    by (vm_compute; reflexivity).
  assert (He : engines world2 !! 0%nat = Some engine2) by (vm_compute; reflexivity).
  assert (Hin : (sitkStartEvent, cb_start_plot 0%nat) ∈ commands engine2)
    by (simpl; left).
  assert (Hf : fire 0%nat start0 world2 = (inr tt, (fire 0%nat start0 world2).2))
    by (vm_compute; reflexivity).
  split; [exact Hp |]. split; [exact He |]. split; [exact Hin |]. split; [exact Hf |].
  exact (proj2 (proj2 (plotter_markers_invariant world2 0%nat 0%nat _ engine2 _ _
                         Hp He Hin Hf)) trace2).
Defined.

Lemma iteration_plot_file_name_witness :
  engines world2 !! 0%nat = Some engine2
  /\ commands engine2
     = [] ++ plotter_commands 0%nat 0%nat (i_normalize fixed_volume)
               (i_normalize moving_volume) 0%nat "out/"
  /\ plotters world2 !! 0%nat = Some (mk_plotter [] [])
  /\ fire 0%nat start0 world2 = (inr tt, (fire 0%nat start0 world2).2)
  /\ Forall (fun x => x.1 <> sitkStartEvent) trace2
  /\ for_each (fire 0%nat) trace2 (fire 0%nat start0 world2).2
     = (inr tt, (for_each (fire 0%nat) trace2 (fire 0%nat start0 world2).2).2)
  /\ fire 0%nat (sitkIterationEvent, snap t_euler3d 0 3 "")
       (for_each (fire 0%nat) trace2 (fire 0%nat start0 world2).2).2
     = (inr tt,
        (fire 0%nat (sitkIterationEvent, snap t_euler3d 0 3 "")
           (for_each (fire 0%nat) trace2 (fire 0%nat start0 world2).2).2).2)
  /\ exists T slices fig img,
       last (files
               (fire 0%nat (sitkIterationEvent, snap t_euler3d 0 3 "")
                  (for_each (fire 0%nat) trace2 (fire 0%nat start0 world2).2).2).2)
       = Some ("out/003.png", ImageFile img)
       /\ blended_slices (i_normalize fixed_volume) (i_normalize moving_volume) T slices
       /\ side_by_side slices (canvas_image fig) img.
Proof.
  assert (Hp : plotters world2 !! 0%nat = Some (mk_plotter [] []))
    by (vm_compute; reflexivity).
  assert (He : engines world2 !! 0%nat = Some engine2) by (vm_compute; reflexivity).
  assert (Hc : commands engine2
               = [] ++ plotter_commands 0%nat 0%nat (i_normalize fixed_volume)
                         (i_normalize moving_volume) 0%nat "out/") by reflexivity.
  assert (Hf : fire 0%nat start0 world2 = (inr tt, (fire 0%nat start0 world2).2))
    by (vm_compute; reflexivity).
  assert (Hns : Forall (fun x : Event * Snapshot transform => x.1 <> sitkStartEvent) trace2)
    by (repeat constructor; discriminate).
  assert (Ht : for_each (fire 0%nat) trace2 (fire 0%nat start0 world2).2
               = (inr tt, (for_each (fire 0%nat) trace2 (fire 0%nat start0 world2).2).2))
    by (vm_compute; reflexivity).
  assert (Hn : fire 0%nat (sitkIterationEvent, snap t_euler3d 0 3 "")
                 (for_each (fire 0%nat) trace2 (fire 0%nat start0 world2).2).2
               = (inr tt,
                  (fire 0%nat (sitkIterationEvent, snap t_euler3d 0 3 "")
                     (for_each (fire 0%nat) trace2 (fire 0%nat start0 world2).2).2).2))
    by (vm_compute; reflexivity).
  split; [exact He |]. split; [exact Hc |]. split; [exact Hp |].
  split; [exact Hf |]. split; [exact Hns |]. split; [exact Ht |]. split; [exact Hn |].
  destruct (proj1 (proj2 (iteration_plot_file_name 0%nat 0%nat _ _ 0%nat "out/" []
                            engine2 _ _ trace2 world2 _ _ He Hc (Forall_nil_2 _)
                            Hp Hf Hns Ht)) _ _ Hn)
    as (T & slices & pre & p' & ys & img & Hlast & Hbl & Hside & _).
  exists T, slices, (pre ++ iteration_draws p' ys), img.
  split; [exact Hlast |]. split; [exact Hbl | exact Hside].
Defined.

(** C7 as the specification words it does not hold: the thousandth
    iteration event of a run writes a file with four digits. *)
Lemma thousandth_plot_counterexample :
  (for_each (fire 0%nat) trace1000 world2).1 = inr tt
  /\ iterations trace1000 = 1000%nat
  /\ last (map fst (files (for_each (fire 0%nat) trace1000 world2).2))
     = Some "out/1000.png"
  /\ String.length (format_03d 1000) = 4%nat.
Proof.
  split; [vm_compute; reflexivity |]. split; [vm_compute; reflexivity |].
  split; [vm_compute; reflexivity | reflexivity].
Qed.

(** The files a run with a plot directory leaves: 001 upwards. *)
Example execute_plot_files :
  map fst (files (execute filter2 2 (Some 4%nat) world1).2)
  = ["out/001.png"; "out/002.png"; "out/003.png"; "out/004.png"; "out/005.png";
     "out/006.png"].
Proof. vm_compute. reflexivity. Qed.

Example format_03d_grows : format_03d 12 = "012" /\ format_03d 1000 = "1000".
Proof. split; reflexivity. Qed.

Lemma plot_2d_segmentation_rejects_witness :
  (~ (shape example_image = shape example_ground_truth
      /\ shape example_ground_truth
         = shape (mk_ndarray [10%nat; 16%nat] (replicate 160 0%Z)))
   \/ ndim example_image <> 2%nat)
  /\ exists msg,
       plot_2d_segmentation "overlay.png" example_image example_ground_truth
         (mk_ndarray [10%nat; 16%nat] (replicate 160 0%Z)) 0.5%Q 1%Z world0
       = (inl (ValueError msg), world0).
Proof.
  assert (H : ~ (shape example_image = shape example_ground_truth
                 /\ shape example_ground_truth
                    = shape (mk_ndarray [10%nat; 16%nat] (replicate 160 0%Z)))
              \/ ndim example_image <> 2%nat)
    by (left; intros [_ H]; discriminate H).
  split; [exact H |].
  exact (plot_2d_segmentation_rejects "overlay.png" example_image example_ground_truth
           _ 0.5%Q 1%Z world0 H).
Defined.

Lemma plot_2d_segmentation_overlay_classes_witness :
  shape example_image = shape example_ground_truth
  /\ shape example_ground_truth = shape example_segmentation
  /\ ndim example_image = 2%nat
  /\ ndarray_wf example_ground_truth
  /\ ndarray_wf example_segmentation
  /\ exists masked w',
       plot_2d_segmentation "overlay.png" example_image example_ground_truth
         example_segmentation 0.5%Q 1%Z world0 = (inr tt, w')
       /\ data (ma_data masked) !! 48%nat = Some 1%Z
       /\ data (ma_data masked) !! 64%nat = Some 2%Z
       /\ data (ma_data masked) !! 72%nat = Some 3%Z
       /\ data (ma_data masked) !! 0%nat = Some 0%Z.
Proof.
  assert (Hg : ndarray_wf example_ground_truth) by reflexivity.
  assert (Hs : ndarray_wf example_segmentation) by reflexivity.
  repeat (split; [reflexivity |]).
  destruct (plot_2d_segmentation_overlay_classes "overlay.png" example_image
              example_ground_truth example_segmentation 0.5%Q 1%Z world0
              eq_refl eq_refl eq_refl Hg Hs)
    as (masked & w' & Hrun & _ & _ & _ & Hcls).
  exists masked, w'. split; [exact Hrun |].
  assert (Hat : forall i g s v,
            data example_ground_truth !! i = Some g ->
            data example_segmentation !! i = Some s ->
            v = overlay_value 1 g s ->
            data (ma_data masked) !! i = Some v).
  { intros i g s v Hgi Hsi ->.
    destruct (Hcls i g s Hgi Hsi) as (v & m & Hv & _ & C1 & C2 & C3 & C0 & _).
    rewrite Hv. f_equal.
    destruct (overlay_value_cases 1 g s) as (D1 & D2 & D3 & D0 & [E|[E|[E|E]]]);
      rewrite E; [apply C0, D0 | apply C1, D1 | apply C2, D2 | apply C3, D3]; exact E. }
  split; [apply (Hat 48%nat 1%Z 0%Z); reflexivity |].
  split; [apply (Hat 64%nat 1%Z 1%Z); reflexivity |].
  split; [apply (Hat 72%nat 0%Z 1%Z); reflexivity |].
  apply (Hat 0%nat 0%Z 0%Z); reflexivity.
Defined.



(** A negative [slice_no] would index from the end if the toolkit were
    asked; it is not. *)
Example toolkit_slices_from_the_end :
  getitem_z fixed_volume (-1)%Z = Some (i_slice fixed_volume 47%Z).
Proof. reflexivity. Qed.

(** *** The further properties on the same inputs *)

Lemma execute_unobserved_writes_nothing_witness :
  params_store world1 !! 6%nat = Some (mk_params 5%nat "")
  /\ engines world1 !! 0%nat = Some engine1
  /\ (execute filter2 7 (Some 6%nat) world1).1 = inl (RuntimeError refusal)
  /\ files (execute filter2 7 (Some 6%nat) world1).2 = files world1
  /\ figures (execute filter2 7 (Some 6%nat) world1).2 = figures world1
  /\ plotters (execute filter2 7 (Some 6%nat) world1).2 = plotters world1
  /\ exists e2,
       engines (execute filter2 7 (Some 6%nat) world1).2 !! 0%nat = Some e2
       /\ commands e2 = [] /\ settings e2 = settings engine1.
Proof.
  assert (Hp : params_store world1 !! 6%nat = Some (mk_params 5%nat ""))
    by (vm_compute; reflexivity).
  assert (He : engines world1 !! 0%nat = Some engine1) by (vm_compute; reflexivity).
  split; [exact Hp |]. split; [exact He |]. split; [vm_compute; reflexivity |].
  exact (execute_unobserved_writes_nothing filter2 7%nat 6%nat world1 _ engine1
           Hp eq_refl He eq_refl).
Defined.


(** The engine gives up in the middle of [execute], on a verbose
    filter: nothing is printed. *)
Lemma execute_raising_prints_nothing_witness :
  execute filter2_verbose 7 (Some 6%nat) world1
  = (inl (RuntimeError refusal), (execute filter2_verbose 7 (Some 6%nat) world1).2)
  /\ stdout (execute filter2_verbose 7 (Some 6%nat) world1).2 = stdout world1.
Proof.
  assert (H : execute filter2_verbose 7 (Some 6%nat) world1
              = (inl (RuntimeError refusal),
                 (execute filter2_verbose 7 (Some 6%nat) world1).2))
    by (vm_compute; reflexivity).
  split; [exact H |].
  exact (execute_raising_prints_nothing filter2_verbose 7%nat (Some 6%nat) world1 _ _ H).
Defined.

Lemma save_plot_returns_witness :
  plotters world2 !! 0%nat = Some (mk_plotter [] [])
  /\ engines world2 !! 0%nat = Some engine2
  /\ _save_plot 0%nat 0%nat (i_normalize fixed_volume) (i_normalize moving_volume)
       0%nat "out/" world2
     = (inr tt,
        (_save_plot 0%nat 0%nat (i_normalize fixed_volume) (i_normalize moving_volume)
           0%nat "out/" world2).2)
  /\ exists slices img,
       blended_slices (i_normalize fixed_volume) (i_normalize moving_volume)
         t_euler3d slices
       /\ files (_save_plot 0%nat 0%nat (i_normalize fixed_volume)
                   (i_normalize moving_volume) 0%nat "out/" world2).2
          = [("out/001.png", ImageFile img)]
       /\ plotters (_save_plot 0%nat 0%nat (i_normalize fixed_volume)
                      (i_normalize moving_volume) 0%nat "out/" world2).2
          = [mk_plotter [0%Q] []].
Proof.
  assert (Hp : plotters world2 !! 0%nat = Some (mk_plotter [] []))
    by (vm_compute; reflexivity).
  assert (He : engines world2 !! 0%nat = Some engine2) by (vm_compute; reflexivity).
  assert (H : _save_plot 0%nat 0%nat (i_normalize fixed_volume)
                (i_normalize moving_volume) 0%nat "out/" world2
              = (inr tt,
                 (_save_plot 0%nat 0%nat (i_normalize fixed_volume)
                    (i_normalize moving_volume) 0%nat "out/" world2).2))
    by (vm_compute; reflexivity).
  split; [exact Hp |]. split; [exact He |]. split; [exact H |].
  destruct (save_plot_returns 0%nat 0%nat engine2 _ _ 0%nat "out/" world2 _ _ Hp He H)
    as (ys & T & slices & img & _ & HT & Hbl & _ & Hpl & _ & Hfl & _).
  assert (HT' : transforms world2 !! 0%nat = Some t_euler3d) by (vm_compute; reflexivity).
  rewrite HT' in HT. injection HT as <-.
  exists slices, img. split; [exact Hbl |].
  rewrite Hfl, Hpl. split; reflexivity.
Defined.

Lemma execute_never_raises_list_index_error_witness :
  all_ok world2
  /\ all_ok (execute filter2 2 (Some 4%nat) world2).2
  /\ forall w', execute filter2 2 (Some 4%nat) world2 <> (inl list_index_error, w').
Proof.
  assert (H : all_ok world2) by (repeat constructor).
  split; [exact H |].
  exact (execute_never_raises_list_index_error filter2 2%nat (Some 4%nat) world2 H).
Defined.

Lemma run_writes_one_file_per_iteration_witness :
  engines world2 !! 0%nat = Some engine2
  /\ plotters world2 !! 0%nat = Some (mk_plotter [] [])
  /\ Forall (fun x : Event * Snapshot transform => x.1 <> sitkStartEvent) trace2
  /\ for_each (fire 0%nat) trace2 world2
     = (inr tt, (for_each (fire 0%nat) trace2 world2).2)
  /\ map fst (files (for_each (fire 0%nat) trace2 world2).2)
     = ["out/001.png"; "out/002.png"].
Proof.
  assert (Hp : plotters world2 !! 0%nat = Some (mk_plotter [] []))
    by (vm_compute; reflexivity).
  assert (He : engines world2 !! 0%nat = Some engine2) by (vm_compute; reflexivity).
  assert (Hns : Forall (fun x : Event * Snapshot transform => x.1 <> sitkStartEvent) trace2)
    by (repeat constructor; discriminate).
  assert (Ht : for_each (fire 0%nat) trace2 world2
               = (inr tt, (for_each (fire 0%nat) trace2 world2).2))
    by (vm_compute; reflexivity).
  repeat (split; [assumption |]).
  exact (run_writes_one_file_per_iteration 0%nat 0%nat (i_normalize fixed_volume)
           (i_normalize moving_volume) 0%nat "out/" engine2 (mk_plotter [] [])
           trace2 world2 _ He eq_refl Hp Hns Ht).
Defined.

Lemma execute_writes_one_file_per_iteration_witness :
  params_store world1 !! 4%nat = Some (mk_params 1%nat "out/")
  /\ images world1 !! 1%nat = Some fixed_volume
  /\ images world1 !! 2%nat = Some moving_volume
  /\ engines world1 !! 0%nat = Some engine1
  /\ execute_registration filter2 2 4 world1
     = (inr (i_normalize moving_volume, final_transform),
        (execute_registration filter2 2 4 world1).2)
  /\ map fst (files (execute filter2 2 (Some 4%nat) world1).2)
     = ["out/001.png"; "out/002.png"; "out/003.png"; "out/004.png"; "out/005.png";
        "out/006.png"].
Proof.
  assert (Hp : params_store world1 !! 4%nat = Some (mk_params 1%nat "out/"))
    by (vm_compute; reflexivity).
  assert (Hi : images world1 !! 1%nat = Some fixed_volume) by (vm_compute; reflexivity).
  assert (Hm : images world1 !! 2%nat = Some moving_volume) by (vm_compute; reflexivity).
  assert (He : engines world1 !! 0%nat = Some engine1) by (vm_compute; reflexivity).
  assert (Hr : execute_registration filter2 2 4 world1
               = (inr (i_normalize moving_volume, final_transform),
                  (execute_registration filter2 2 4 world1).2))
    by (vm_compute; reflexivity).
  repeat (split; [assumption |]).
  refine (execute_writes_one_file_per_iteration filter2 2%nat 4%nat world1 _ _ _
            engine1 _ _ _ Hp Hi Hm He eq_refl eq_refl _ Hr).
  vm_compute. repeat (constructor; [discriminate |]). constructor.
Defined.

Lemma run_plot_files_are_distinct_witness :
  engines world2 !! 0%nat = Some engine2
  /\ plotters world2 !! 0%nat = Some (mk_plotter [] [])
  /\ Forall (fun x : Event * Snapshot transform => x.1 <> sitkStartEvent) trace2
  /\ for_each (fire 0%nat) trace2 world2
     = (inr tt, (for_each (fire 0%nat) trace2 world2).2)
  /\ exists names,
       map fst (files (for_each (fire 0%nat) trace2 world2).2)
       = map fst (files world2) ++ names
       /\ length names = iterations trace2
       /\ NoDup names
       /\ forall k, (k <= 0)%nat -> plot_file_name "out/" k ∉ names.
Proof.
  assert (Hp : plotters world2 !! 0%nat = Some (mk_plotter [] []))
    by (vm_compute; reflexivity).
  assert (He : engines world2 !! 0%nat = Some engine2) by (vm_compute; reflexivity).
  assert (Hns : Forall (fun x : Event * Snapshot transform => x.1 <> sitkStartEvent) trace2)
    by (repeat constructor; discriminate).
  assert (Ht : for_each (fire 0%nat) trace2 world2
               = (inr tt, (for_each (fire 0%nat) trace2 world2).2))
    by (vm_compute; reflexivity).
  repeat (split; [assumption |]).
  exact (run_plot_files_are_distinct 0%nat 0%nat (i_normalize fixed_volume)
           (i_normalize moving_volume) 0%nat "out/" engine2 (mk_plotter [] [])
           trace2 world2 _ He eq_refl Hp Hns Ht).
Defined.

Lemma write_combined_image_layout_witness :
  (forall width height pid n, GetHeight (i_new [width; height] pid n) = height)
  /\ (0 <= GetHeight example_slices < 2 ^ 32)%Z
  /\ (0 <= GetHeight (i_canvas []) < 2 ^ 32)%Z
  /\ _write_combined_image 0%nat example_slices (i_canvas []) "c.png" world0
     = (inr tt,
        (_write_combined_image 0%nat example_slices (i_canvas []) "c.png" world0).2)
  /\ exists y1 y2 img,
       files (_write_combined_image 0%nat example_slices (i_canvas []) "c.png" world0).2
       = [("c.png", ImageFile img)]
       /\ (0 <= y1 /\ y1 + 64 <= 480)%Z
       /\ (0 <= y2 /\ y2 + 480 <= 480)%Z
       /\ (-1 <= 2 * y1 - (480 - 64) <= 1)%Z
       /\ (y1 = 0 \/ y2 = 0)%Z.
Proof.
  assert (H : forall width height pid n,
             GetHeight (i_new [width; height] pid n) = height)
    by (intros; reflexivity).
  assert (H1 : (0 <= GetHeight example_slices < 2 ^ 32)%Z)
    by (vm_compute; split; [discriminate | reflexivity]).
  assert (H2 : (0 <= GetHeight (i_canvas []) < 2 ^ 32)%Z)
    by (vm_compute; split; [discriminate | reflexivity]).
  assert (Hr : _write_combined_image 0%nat example_slices (i_canvas []) "c.png" world0
               = (inr tt,
                  (_write_combined_image 0%nat example_slices (i_canvas []) "c.png"
                     world0).2))
    by (vm_compute; reflexivity).
  split; [exact H |]. split; [exact H1 |]. split; [exact H2 |]. split; [exact Hr |].
  destruct (write_combined_image_layout 0%nat example_slices (i_canvas []) "c.png"
              world0 _ H H1 H2 Hr)
    as (y1 & y2 & c1 & img & _ & _ & Hw & B1 & B2 & C1 & _ & Hz).
  exists y1, y2, img. rewrite Hw.
  split; [reflexivity |]. split; [exact B1 |]. split; [exact B2 |].
  split; [exact C1 | exact Hz].
Defined.

Lemma plot_histogram_draws_on_current_figure_witness :
  histogram_data fixed_volume (-1)%Z = Some (array_of fixed_volume)
  /\ histogram_data moving_volume 1%Z = Some (array_of (i_slice moving_volume 1))
  /\ (0 < 255)%Z
  /\ (0 < 64)%Z
  /\ exists w1 w2,
       plot_histogram "a.png" fixed_volume 255%Z (-1)%Z "T1" "" "" world0 = (inr tt, w1)
       /\ plot_histogram "b.png" moving_volume 64%Z 1%Z "" "" "" w1 = (inr tt, w2)
       /\ files w2
          = [("a.png",
              FigureFile [hist (flatten (array_of fixed_volume)) 255%Z None; title "T1"]
                None);
             ("b.png",
              FigureFile [hist (flatten (array_of (i_slice moving_volume 1))) 64%Z None]
                None)]
       /\ figures w2 = [].
Proof.
  assert (H1 : histogram_data fixed_volume (-1)%Z = Some (array_of fixed_volume))
    by reflexivity.
  assert (H2 : histogram_data moving_volume 1%Z = Some (array_of (i_slice moving_volume 1)))
    by reflexivity.
  assert (B1 : (0 < 255)%Z) by lia.
  assert (B2 : (0 < 64)%Z) by lia.
  split; [exact H1 |]. split; [exact H2 |]. split; [exact B1 |]. split; [exact B2 |].
  destruct (plot_histogram_draws_on_current_figure "a.png" "b.png" fixed_volume
              moving_volume 255%Z 64%Z (-1)%Z 1%Z "T1" "" "" "" "" "" _ _ world0
              H1 H2 B1 B2)
    as (w1 & w2 & Hr1 & Hf1 & _ & Hr2 & Hlast).
  exists w1, w2. split; [exact Hr1 |]. split; [exact Hr2 |].
  assert (Hlen : (length (figures world0) <= 1)%nat) by (simpl; lia).
  destruct (Hlast Hlen) as [Hf2 Hg2].
  rewrite Hf2, Hf1. split; [reflexivity | exact Hg2].
Defined.

Lemma new_filter_registers_witness :
  params_store world0 !! 3%nat = Some (mk_params 1%nat "")
  /\ images world0 !! 1%nat = Some fixed_volume
  /\ images world0 !! 2%nat = Some moving_volume
  /\ (self ← RigidMultiModalRegistration_init (mk_ifilter false) 200%Z 1%Q 0.001%Q
                2%Z [4%Z; 2%Z; 1%Z] [2%Q; 1%Q; 0%Q];
       execute self 2%nat (Some 3%nat)) world0
     = (inr (i_resample (i_normalize moving_volume) fixed_volume final_transform
               sitkLinear 0%Q sitkFloat64),
        ((self ← RigidMultiModalRegistration_init (mk_ifilter false) 200%Z 1%Q 0.001%Q
                   2%Z [4%Z; 2%Z; 1%Z] [2%Q; 1%Q; 0%Q];
          execute self 2%nat (Some 3%nat)) world0).2)
  /\ files ((self ← RigidMultiModalRegistration_init (mk_ifilter false) 200%Z 1%Q
                      0.001%Q 2%Z [4%Z; 2%Z; 1%Z] [2%Q; 1%Q; 0%Q];
             execute self 2%nat (Some 3%nat)) world0).2 = files world0
  /\ Forall (fun x => 0 <= x < 2 ^ 32)%Z [4%Z; 2%Z; 1%Z].
Proof.
  assert (Hp : params_store world0 !! 3%nat = Some (mk_params 1%nat ""))
    by (vm_compute; reflexivity).
  assert (Hi : images world0 !! 1%nat = Some fixed_volume) by (vm_compute; reflexivity).
  assert (Hm : images world0 !! 2%nat = Some moving_volume) by (vm_compute; reflexivity).
  assert (Hr : (self ← RigidMultiModalRegistration_init (mk_ifilter false) 200%Z 1%Q
                         0.001%Q 2%Z [4%Z; 2%Z; 1%Z] [2%Q; 1%Q; 0%Q];
                execute self 2%nat (Some 3%nat)) world0
               = (inr (i_resample (i_normalize moving_volume) fixed_volume
                         final_transform sitkLinear 0%Q sitkFloat64),
                  ((self ← RigidMultiModalRegistration_init (mk_ifilter false) 200%Z
                             1%Q 0.001%Q 2%Z [4%Z; 2%Z; 1%Z] [2%Q; 1%Q; 0%Q];
                    execute self 2%nat (Some 3%nat)) world0).2))
    by (vm_compute; reflexivity).
  repeat (split; [assumption |]).
  destruct (new_filter_registers (mk_ifilter false) 200%Z 1%Q 0.001%Q 2%Z
              [4%Z; 2%Z; 1%Z] [2%Q; 1%Q; 0%Q] 2%nat 3%nat world0 _ _ _ _ _
              Hp Hi Hm eq_refl Hr)
    as (_ & (_ & _ & Hsf) & _ & Hfl & _).
  split; [exact Hfl | exact Hsf].
Defined.

End Instances.
